(** * Validation and migration rule engine of the plugin-automation scripts

    A shallow embedding of the rule logic of

      - agent-builder/skills/building-commands/scripts/migrate-command.py
      - agent-builder/skills/building-commands/scripts/audit-commands.py
      - claude-component-builder/skills/building-commands/scripts/validate-command.py
      - agent-builder/skills/building-skills/scripts/audit-skills.py
      - agent-builder/skills/building-skills/scripts/migrate-skill.py
      - agent-builder/skills/building-hooks/scripts/migrate-hook.py

    Python values are a first-order tree ([pyval]); a Python exception is the
    [Raise] branch of [result]; in-place mutation of a decoded JSON or YAML
    tree is a functional rebuild of that tree.  What belongs to the Python
    runtime and needs the Unicode database or PyYAML is gathered in the class
    [PyRuntime] and left abstract. *)

From Stdlib Require Import String Ascii DecimalString.
From Stdlib Require Import NArith ZArith Bool Lia List.
Import ListNotations.
Open Scope string_scope.
Open Scope list_scope.

Set Implicit Arguments.

(** ** Strings

    A Python [str] is a sequence of code points. *)

Abbreviation pystr := (list N).

Definition pystr_of_string (s : string) : pystr :=
  map N_of_ascii (list_ascii_of_string s).

Coercion pystr_of_string : string >-> list.

Definition strs (l : list string) : list pystr := map pystr_of_string l.

Fixpoint str_eqb (a b : pystr) : bool :=
  match a, b with
  | [], [] => true
  | x :: a', y :: b' => N.eqb x y && str_eqb a' b'
  | _, _ => false
  end.

(** [x in l] for a list [l] of strings and a string [x]. *)
Definition str_mem (x : pystr) (l : list pystr) : bool := existsb (str_eqb x) l.

(** [str.isspace] of one code point; the same set is [\s] of [re] and what
    [str.strip()] and [str.split()] remove. *)
Definition isspace (c : N) : bool :=
  ((9 <=? c) && (c <=? 13) || (28 <=? c) && (c <=? 32)
   || (c =? 133) || (c =? 160) || (c =? 5760)
   || (8192 <=? c) && (c <=? 8202)
   || (c =? 8232) || (c =? 8233) || (c =? 8239) || (c =? 8287)
   || (c =? 12288))%N.

Definition ascii_isdigit (c : N) : bool := ((48 <=? c) && (c <=? 57))%N.
Definition ascii_isupper (c : N) : bool := ((65 <=? c) && (c <=? 90))%N.
Definition ascii_islower (c : N) : bool := ((97 <=? c) && (c <=? 122))%N.
Definition ascii_tolower (c : N) : N := if ascii_isupper c then (c + 32)%N else c.

(** [s.startswith(p)] *)
Fixpoint startswith (s p : pystr) {struct p} : bool :=
  match p with
  | [] => true
  | x :: p' =>
      match s with
      | y :: s' => N.eqb x y && startswith s' p'
      | [] => false
      end
  end.

(** [s.endswith(p)] *)
Definition endswith (s p : pystr) : bool := startswith (rev s) (rev p).

(** [needle in s] for two strings *)
Fixpoint str_in (needle s : pystr) : bool :=
  startswith s needle ||
  match s with
  | [] => false
  | _ :: s' => str_in needle s'
  end.

Fixpoint lstrip (s : pystr) : pystr :=
  match s with
  | c :: s' => if isspace c then lstrip s' else s
  | [] => []
  end.

(** [s.strip()] *)
Definition strip (s : pystr) : pystr := rev (lstrip (rev (lstrip s))).

(** [s.split()]: the maximal runs of non-whitespace, in order. *)
Fixpoint split_ws_from (cur : pystr) (s : pystr) : list pystr :=
  match s with
  | [] => match cur with [] => [] | _ => [rev cur] end
  | c :: s' =>
      if isspace c
      then match cur with
           | [] => split_ws_from [] s'
           | _ => rev cur :: split_ws_from [] s'
           end
      else split_ws_from (c :: cur) s'
  end.

Definition split_ws (s : pystr) : list pystr := split_ws_from [] s.

(** [s.split(sep)] for a one-character separator. *)
Fixpoint split_on_from (sep : N) (cur : pystr) (s : pystr) : list pystr :=
  match s with
  | [] => [rev cur]
  | c :: s' =>
      if N.eqb c sep
      then rev cur :: split_on_from sep [] s'
      else split_on_from sep (c :: cur) s'
  end.

Definition split_on (sep : N) (s : pystr) : list pystr := split_on_from sep [] s.

(** [sep.join(l)] *)
Fixpoint join (sep : pystr) (l : list pystr) : pystr :=
  match l with
  | [] => []
  | [x] => x
  | x :: l' => x ++ sep ++ join sep l'
  end.

(** [str(n)] for an integer. *)
Definition str_of_Z (z : Z) : pystr := NilZero.string_of_int (Z.to_int z).
Definition str_of_nat (n : nat) : pystr := str_of_Z (Z.of_nat n).

Definition hex_digit (n : N) : N := (if n <? 10 then 48 + n else 87 + n)%N.

(** The [w] low hexadecimal digits of [n], most significant first. *)
Fixpoint hex_fixed (w : nat) (n : N) : pystr :=
  match w with
  | O => []
  | S w' => hex_fixed w' (n / 16) ++ [hex_digit (n mod 16)]
  end.

(** ** Values and exceptions *)

#[warnings="-register-all"]
Inductive pyval : Type :=
| PNone
| PBool (b : bool)
| PInt (z : Z)
| PStr (s : pystr)
| PList (l : list pyval)
| PDict (d : list (pystr * pyval)).

(** A dict is its items in insertion order; keys are strings (every JSON key
    is, and so are the frontmatter keys the scripts look up). *)
Abbreviation pydict := (list (pystr * pyval)).

Definition kv (k : pystr) (v : pyval) : pystr * pyval := (k, v).

Inductive exn : Type :=
| TypeError
| AttributeError
| KeyError
| NameError
| ValueError
| YAMLError (msg : pystr)
| OSError (msg : pystr).

Inductive result (A : Type) : Type :=
| Ok (a : A)
| Raise (e : exn).

Arguments Ok {A} a.
Arguments Raise {A} e.

Definition bind {A B : Type} (m : result A) (k : A -> result B) : result B :=
  match m with
  | Ok a => k a
  | Raise e => Raise e
  end.

Declare Scope py_scope.
Delimit Scope py_scope with py.
Notation "x <- m ;; k" := (bind m (fun x => k))
  (at level 61, m at next level, right associativity) : py_scope.
Notation "' pat <- m ;; k" := (bind m (fun x => match x with pat => k end))
  (at level 61, pat pattern, m at next level, right associativity) : py_scope.
Open Scope py_scope.

Definition returns {A : Type} (m : result A) : Prop := exists a, m = Ok a.

(** [for x in l: ...] threading an accumulator, stopping at the first raise. *)
Fixpoint foldM {A S : Type} (f : S -> A -> result S) (l : list A) (s : S) : result S :=
  match l with
  | [] => Ok s
  | x :: l' => s' <- f s x ;; foldM f l' s'
  end.

(** [[f(x) for x in l]] where [f] may raise. *)
Fixpoint mapM {A B : Type} (f : A -> result B) (l : list A) : result (list B) :=
  match l with
  | [] => Ok []
  | x :: l' => y <- f x ;; ys <- mapM f l' ;; Ok (y :: ys)
  end.

(** [enumerate(l)] *)
Fixpoint enumerate_from {A : Type} (i : nat) (l : list A) : list (nat * A) :=
  match l with
  | [] => []
  | x :: l' => (i, x) :: enumerate_from (S i) l'
  end.

Definition enumerate {A : Type} (l : list A) : list (nat * A) := enumerate_from 0 l.

(** *** Dict primitives *)

Fixpoint dict_get (d : pydict) (k : pystr) : option pyval :=
  match d with
  | [] => None
  | (k', v) :: d' => if str_eqb k' k then Some v else dict_get d' k
  end.

Definition dict_has (d : pydict) (k : pystr) : bool :=
  match dict_get d k with Some _ => true | None => false end.

(** [d[k] = v]: overwrite in place, or append a new key at the end. *)
Fixpoint dict_set (d : pydict) (k : pystr) (v : pyval) : pydict :=
  match d with
  | [] => [(k, v)]
  | (k', v') :: d' =>
      if str_eqb k' k then (k', v) :: d' else (k', v') :: dict_set d' k v
  end.

(** [del d[k]] for a key that is present. *)
Fixpoint dict_del (d : pydict) (k : pystr) : pydict :=
  match d with
  | [] => []
  | (k', v') :: d' =>
      if str_eqb k' k then dict_del d' k else (k', v') :: dict_del d' k
  end.

(** *** Operators and methods on arbitrary values *)

(** [bool(v)] *)
Definition truthy (v : pyval) : bool :=
  match v with
  | PNone => false
  | PBool b => b
  | PInt z => negb (Z.eqb z 0)
  | PStr s => match s with [] => false | _ => true end
  | PList l => match l with [] => false | _ => true end
  | PDict d => match d with [] => false | _ => true end
  end.

(** [v == s] for a string [s]: only an equal string is equal to a string. *)
Definition eq_str (v : pyval) (s : pystr) : bool :=
  match v with
  | PStr t => str_eqb t s
  | _ => false
  end.

(** [v in [s1, ..., sn]] for a list literal of strings. *)
Definition in_strs (v : pyval) (l : list pystr) : bool := existsb (eq_str v) l.

(** [k in v] for a string [k]: key of a dict, element of a list, substring of
    a string; the other types are not iterable. *)
Definition contains (v : pyval) (k : pystr) : result bool :=
  match v with
  | PDict d => Ok (dict_has d k)
  | PList l => Ok (existsb (fun x => eq_str x k) l)
  | PStr s => Ok (str_in k s)
  | _ => Raise TypeError
  end.

(** [v[k]] for a string [k]. *)
Definition getitem (v : pyval) (k : pystr) : result pyval :=
  match v with
  | PDict d => match dict_get d k with Some x => Ok x | None => Raise KeyError end
  | _ => Raise TypeError
  end.

(** [v.get(k, default)] *)
Definition get_default (v : pyval) (k : pystr) (default : pyval) : result pyval :=
  match v with
  | PDict d => Ok (match dict_get d k with Some x => x | None => default end)
  | _ => Raise AttributeError
  end.

(** [v.items()] *)
Definition items (v : pyval) : result pydict :=
  match v with
  | PDict d => Ok d
  | _ => Raise AttributeError
  end.

(** What [for x in v] runs through: the elements of a list, the keys of a
    dict, the characters of a string. *)
Definition iterate (v : pyval) : result (list pyval) :=
  match v with
  | PList l => Ok l
  | PDict d => Ok (map (fun p => PStr (fst p)) d)
  | PStr s => Ok (map (fun c => PStr [c]) s)
  | _ => Raise TypeError
  end.

(** [len(v)] *)
Definition py_len (v : pyval) : result nat :=
  match v with
  | PStr s => Ok (length s)
  | PList l => Ok (length l)
  | PDict d => Ok (length d)
  | _ => Raise TypeError
  end.

(** [v[k] = x] for a string [k]. *)
Definition setitem (v : pyval) (k : pystr) (x : pyval) : result pyval :=
  match v with
  | PDict d => Ok (PDict (dict_set d k x))
  | _ => Raise TypeError
  end.

(** [del v[k]] for a string [k]. *)
Definition delitem (v : pyval) (k : pystr) : result pyval :=
  match v with
  | PDict d => if dict_has d k then Ok (PDict (dict_del d k)) else Raise KeyError
  | _ => Raise TypeError
  end.

(** [v in table] for a dict literal [table] with string keys and values:
    the key is hashed first, which a list or a dict refuses. *)
Definition lookup_alias (v : pyval) (table : list (pystr * pystr)) : result (option pystr) :=
  match v with
  | PList _ | PDict _ => Raise TypeError
  | PStr s =>
      Ok (match find (fun p => str_eqb (fst p) s) table with
          | Some p => Some (snd p)
          | None => None
          end)
  | _ => Ok None
  end.

(** A [str] method called on [v]. *)
Definition as_str (v : pyval) : result pystr :=
  match v with
  | PStr s => Ok s
  | _ => Raise AttributeError
  end.

Definition isinstance_str (v : pyval) : bool :=
  match v with PStr _ => true | _ => false end.

Definition isinstance_list (v : pyval) : bool :=
  match v with PList _ => true | _ => false end.

(** ** The Python runtime

    The parts of CPython and PyYAML the scripts call and that are driven by
    tables this development does not contain.  The Unicode predicates are
    consulted for code points from 128 on only. *)

Class PyRuntime : Type := {
  (** [str.isprintable] of one code point, used by [repr] *)
  unicode_isprintable : N -> bool;
  (** [str.isalnum] of one code point: the non-ASCII part of [\w] *)
  unicode_isalnum : N -> bool;
  (** [str.isdecimal] of one code point: the non-ASCII part of [\d] *)
  unicode_isdecimal : N -> bool;
  (** simple lower-case mapping of one code point, used by [re.IGNORECASE] *)
  unicode_tolower : N -> N;
  (** full lower-case mapping of one code point, used by [str.lower] *)
  unicode_lower : N -> pystr;
  (** [yaml.safe_load] *)
  yaml_safe_load : pystr -> result pyval;
  (** [yaml.dump(v, default_flow_style=False, sort_keys=False)] *)
  yaml_dump : pyval -> pystr
}.

Section Runtime.

Context {rt : PyRuntime}.

(** [s.lower()]. The final-sigma rule of CPython is taken as part of
    [unicode_lower]. *)
Definition lower (s : pystr) : pystr :=
  flat_map (fun c => if (c <? 128)%N then [ascii_tolower c] else unicode_lower c) s.

Definition repr_char (quote : N) (c : N) : pystr :=
  (if (c =? quote) || (c =? 92) then [92; c]
   else if c =? 9 then [92; 116]
   else if c =? 10 then [92; 110]
   else if c =? 13 then [92; 114]
   else if (c <? 32) || (c =? 127) then [92; 120] ++ hex_fixed 2 c
   else if c <? 127 then [c]
   else if unicode_isprintable c then [c]
   else if c <=? 255 then [92; 120] ++ hex_fixed 2 c
   else if c <=? 65535 then [92; 117] ++ hex_fixed 4 c
   else [92; 85] ++ hex_fixed 8 c)%N.

(** [repr(s)] of a string: single quotes unless the string has a single
    quote and no double quote. *)
Definition repr_str (s : pystr) : pystr :=
  let quote := (if existsb (N.eqb 39) s && negb (existsb (N.eqb 34) s) then 34 else 39)%N in
  [quote] ++ flat_map (repr_char quote) s ++ [quote].

Fixpoint py_repr (v : pyval) : pystr :=
  match v return pystr with
  | PNone => "None"
  | PBool true => "True"
  | PBool false => "False"
  | PInt z => str_of_Z z
  | PStr s => repr_str s
  | PList l => "[" ++ join ", " (map py_repr l) ++ "]"
  | PDict d =>
      "{" ++ join ", " (map (fun p => repr_str (fst p) ++ ": " ++ py_repr (snd p)) d) ++ "}"
  end.

(** [str(v)], which is also what an f-string field [{v}] inserts. *)
Definition py_str (v : pyval) : pystr :=
  match v with
  | PStr s => s
  | _ => py_repr v
  end.

End Runtime.

(** ** Regular expressions

    The patterns of the scripts, run the way [re] runs them: a backtracking
    matcher whose alternatives are tried in priority order.  [run] lists the
    states in which a match of [r] can end, most preferred first; the head of
    the list is the match [re] reports. *)

Inductive cclass : Type :=
| CSpace                         (* \s *)
| CDigit                         (* \d *)
| CWord                          (* \w *)
| CRanges (rs : list (N * N)).   (* [a-z0-9-] and the like *)

Inductive regex : Type :=
| REps
| RChar (c : N)
| RClass (k : cclass)
| RAny                           (* . *)
| RSeq (r1 r2 : regex)
| RAlt (r1 r2 : regex)
| RStar (greedy : bool) (r : regex)
| RGroup (r : regex)             (* a capturing group *)
| RBol                           (* ^ *)
| REol                           (* $ *)
| RWordB.                        (* \b *)

Record flags : Type := { ignorecase : bool; dotall : bool }.

Definition NOFLAGS : flags := {| ignorecase := false; dotall := false |}.
Definition DOTALL : flags := {| ignorecase := false; dotall := true |}.
Definition IGNORECASE : flags := {| ignorecase := true; dotall := false |}.

(** [prev] is the character before the current position, [rest] the text
    from the current position on, [groups] the groups closed so far. *)
Record mstate : Type := { prev : option N; rest : pystr; groups : list pystr }.

Definition start_state (p : option N) (s : pystr) : mstate :=
  {| prev := p; rest := s; groups := [] |}.

Definition advance (st : mstate) (c : N) (s : pystr) : mstate :=
  {| prev := Some c; rest := s; groups := groups st |}.

(** The text of the literal [s], character by character. *)
Fixpoint rlit (s : pystr) : regex :=
  match s with
  | [] => REps
  | [c] => RChar c
  | c :: s' => RSeq (RChar c) (rlit s')
  end.

Definition rplus (r : regex) : regex := RSeq r (RStar true r).

(** The repetition of a body [step]: after each round that consumed some
    text, either one more round or stop; a greedy repetition prefers one
    more round, a lazy one prefers to stop.  [n] bounds the number of rounds
    and is taken as the length of the text. *)
Fixpoint star_loop (step : mstate -> list mstate) (greedy : bool) (n : nat) (st : mstate)
  : list mstate :=
  match n with
  | O => [st]
  | S n' =>
      let more :=
        flat_map
          (fun st' =>
             if (length (rest st') <? length (rest st))%nat
             then star_loop step greedy n' st'
             else [])
          (step st) in
      if greedy then more ++ [st] else st :: more
  end.

Section Regex.

Context {rt : PyRuntime}.

Definition is_word (c : N) : bool :=
  if (c <? 128)%N
  then ascii_isdigit c || ascii_isupper c || ascii_islower c || (c =? 95)%N
  else unicode_isalnum c.

Definition class_match (k : cclass) (c : N) : bool :=
  match k with
  | CSpace => isspace c
  | CDigit => if (c <? 128)%N then ascii_isdigit c else unicode_isdecimal c
  | CWord => is_word c
  | CRanges rs => existsb (fun r => (fst r <=? c) && (c <=? snd r))%N rs
  end.

Definition simple_lower (c : N) : N :=
  if (c <? 128)%N then ascii_tolower c else unicode_tolower c.

(** A literal pattern character against a text character.  Under
    [re.IGNORECASE] a cased pattern letter matches every character whose
    lower case is the letter's, and [i] and [s] also match the dotless i
    (U+0131) and the long s (U+017F). *)
Definition char_match (fl : flags) (pc c : N) : bool :=
  if ignorecase fl && (ascii_isupper pc || ascii_islower pc)
  then
    let lo := ascii_tolower pc in
    let lc := simple_lower c in
    ((lc =? lo) || (lo =? 105) && (lc =? 305) || (lo =? 115) && (lc =? 383))%N
  else (c =? pc)%N.

Definition at_boundary (st : mstate) : bool :=
  let before := match prev st with Some c => is_word c | None => false end in
  let after := match rest st with c :: _ => is_word c | [] => false end in
  xorb before after.

Fixpoint run (fl : flags) (r : regex) (st : mstate) : list mstate :=
  match r with
  | REps => [st]
  | RChar pc =>
      match rest st with
      | c :: s' => if char_match fl pc c then [advance st c s'] else []
      | [] => []
      end
  | RClass k =>
      match rest st with
      | c :: s' => if class_match k c then [advance st c s'] else []
      | [] => []
      end
  | RAny =>
      match rest st with
      | c :: s' => if dotall fl || negb (c =? 10)%N then [advance st c s'] else []
      | [] => []
      end
  | RSeq r1 r2 => flat_map (run fl r2) (run fl r1 st)
  | RAlt r1 r2 => run fl r1 st ++ run fl r2 st
  | RStar greedy r' => star_loop (run fl r') greedy (length (rest st)) st
  | RGroup r' =>
      map (fun st' =>
             {| prev := prev st'; rest := rest st';
                groups := groups st' ++
                          [firstn (length (rest st) - length (rest st')) (rest st)] |})
          (run fl r' st)
  | RBol => match prev st with None => [st] | Some _ => [] end
  | REol =>
      match rest st with
      | [] => [st]
      | [c] => if (c =? 10)%N then [st] else []
      | _ => []
      end
  | RWordB => if at_boundary st then [st] else []
  end.

(** [re.match(r, s, fl)]: the preferred match at the start of [s], if any. *)
Definition re_match (fl : flags) (r : regex) (s : pystr) : option mstate :=
  hd_error (run fl r (start_state None s)).

(** [re.search(r, s, fl)]: the preferred match at the first position that
    has one. *)
Fixpoint search_from (fl : flags) (r : regex) (p : option N) (s : pystr) : option mstate :=
  match run fl r (start_state p s) with
  | st :: _ => Some st
  | [] =>
      match s with
      | [] => None
      | c :: s' => search_from fl r (Some c) s'
      end
  end.

Definition re_search (fl : flags) (r : regex) (s : pystr) : bool :=
  match search_from fl r None s with Some _ => true | None => false end.

(** [re.findall(r, s, fl)] for a pattern with one group: the text of the group
    in each match, scanning left to right without overlap.  (After a match of
    no character the scan moves on by one character; the pattern of the
    scripts never matches the empty string.) *)
Fixpoint findall_from (fl : flags) (r : regex) (fuel : nat) (p : option N) (s : pystr)
  : list pystr :=
  match fuel with
  | O => []
  | S fuel' =>
      match run fl r (start_state p s) with
      | st :: _ =>
          last (groups st) [] ::
          (if (length (rest st) <? length s)%nat
           then findall_from fl r fuel' (prev st) (rest st)
           else match s with
                | [] => []
                | c :: s' => findall_from fl r fuel' (Some c) s'
                end)
      | [] =>
          match s with
          | [] => []
          | c :: s' => findall_from fl r fuel' (Some c) s'
          end
      end
  end.

Definition re_findall (fl : flags) (r : regex) (s : pystr) : list pystr :=
  findall_from fl r (S (length s)) None s.

End Regex.

(** ** Files and the patterns the scripts share *)

(** What the scripts observe of a path: its text, its stem, whether it
    exists, and what [read_text()] gives: the content, or the text [str(e)]
    of the exception it raises. *)
Record file : Type := {
  file_path : pystr;
  file_stem : pystr;
  file_exists : bool;
  file_read : pystr + pystr
}.

(** What the skill scripts observe of a skill directory: its path and name,
    [SKILL.md], which resource directories exist, and the [*.py] and [*.sh]
    files of [scripts/] with whether each is executable. *)
Record skill_dir : Type := {
  skill_path : pystr;
  skill_name : pystr;
  skill_md_exists : bool;
  skill_md_read : pystr + pystr;
  has_scripts : bool;
  has_references : bool;
  has_assets : bool;
  has_templates : bool;
  py_scripts : list (pystr * bool);
  sh_scripts : list (pystr * bool)
}.

(** What a script does to the file system. *)
Inductive fs_op : Type :=
| Rename (src dst : pystr)
| WriteText (path content : pystr).

Definition NL : pystr := [10%N].

(** Truth value of what [re.match] returns. *)
Definition matched (m : option mstate) : bool :=
  match m with Some _ => true | None => false end.

Fixpoint rseq (l : list regex) : regex :=
  match l with
  | [] => REps
  | [r] => r
  | r :: l' => RSeq r (rseq l')
  end.

Definition SPACE : regex := RClass CSpace.

(** [^[a-z0-9-]+$] *)
Definition name_re : regex :=
  rseq [RBol; rplus (RClass (CRanges [(97, 122); (48, 57); (45, 45)]%N)); REol].

(** [^---\s*\n(.*?)\n---\s*\n], the head of both frontmatter patterns. *)
Definition frontmatter_head : list regex :=
  [RBol; rlit "---"; RStar true SPACE; RChar 10; RGroup (RStar false RAny);
   RChar 10; rlit "---"; RStar true SPACE; RChar 10].

(** The same followed by a second group, any text to the end, and [$]. *)
Definition frontmatter_body_re : regex :=
  rseq (frontmatter_head ++ [RGroup (RStar true RAny); REol]).

(** [^---\s*\n(.*?)\n---\s*\n] *)
Definition frontmatter_re : regex := rseq frontmatter_head.

(** [\$\d+] *)
Definition positional_re : regex := rseq [RChar 36; rplus (RClass CDigit)].

(** [rm\s+-rf\s+\$] *)
Definition rm_rf_var_re : regex :=
  rseq [rlit "rm"; rplus SPACE; rlit "-rf"; rplus SPACE; RChar 36].

(** [eval\s+\$] *)
Definition eval_re : regex := rseq [rlit "eval"; rplus SPACE; RChar 36].

Definition valid_tools : list pystr :=
  strs ["Read"; "Write"; "Edit"; "Grep"; "Glob"; "Bash";
        "WebFetch"; "WebSearch"; "NotebookEdit"; "Task";
        "TodoWrite"; "BashOutput"; "KillShell"].

Definition short_aliases : list pystr := strs ["haiku"; "sonnet"; "opus"; "inherit"].

(** The three lists a validation fills. *)
Record report : Type := {
  critical_errors : list pystr;
  warnings : list pystr;
  recommendations : list pystr
}.

Definition no_findings : report :=
  {| critical_errors := []; warnings := []; recommendations := [] |}.

Definition add_critical (r : report) (m : pystr) : report :=
  {| critical_errors := critical_errors r ++ [m];
     warnings := warnings r;
     recommendations := recommendations r |}.

Definition add_warning (r : report) (m : pystr) : report :=
  {| critical_errors := critical_errors r;
     warnings := warnings r ++ [m];
     recommendations := recommendations r |}.

Definition add_recommendation (r : report) (m : pystr) : report :=
  {| critical_errors := critical_errors r;
     warnings := warnings r;
     recommendations := recommendations r ++ [m] |}.

(** [if c: add] on a report. *)
Definition when (c : bool) (add : report -> report) (r : report) : report :=
  if c then add r else r.

(** Status from the lists: the last lines of both [audit-*] validators. *)
Definition status_of (r : report) : pystr :=
  match critical_errors r, warnings r with
  | _ :: _, _ => "errors"
  | [], _ :: _ => "warnings"
  | [], [] => "valid"
  end.

(** The arrow of the change messages, U+2192. *)
Definition ARROW : pystr := [8594%N].

(** ** Paths

    [pathlib] on the text of a path, as [str(path)] gives it: the components
    joined by [/], without a trailing [/]. *)

(** [s.rfind(c)] for a character [c]: the index of its last occurrence. *)
Fixpoint rfind (c : N) (s : pystr) : option nat :=
  match s with
  | [] => None
  | x :: s' =>
      match rfind c s' with
      | Some i => Some (S i)
      | None => if (x =? c)%N then Some 0%nat else None
      end
  end.

(** [path.name]: the last component; the path [.] and a root have none. *)
Definition path_name (p : pystr) : pystr :=
  if str_eqb p "." then []
  else match rfind 47 p with
       | Some i => skipn (S i) p
       | None => p
       end.

(** [path.suffix], from the name: what starts at the last dot of the name,
    when that dot is neither its first nor its last character. *)
Definition name_suffix (name : pystr) : pystr :=
  match rfind 46 name with
  | Some i => if ((0 <? i) && (i <? length name - 1))%nat then skipn i name else []
  | None => []
  end.

(** [path.with_suffix(suffix)]: the suffix of the name replaced, or
    [suffix] added to a name without one. *)
Definition with_suffix (p suffix : pystr) : result pystr :=
  if str_in "/" suffix then Raise ValueError else
  if (match suffix with [] => false | _ => negb (startswith suffix ".") end)
     || str_eqb suffix "."
  then Raise ValueError else
  let name := path_name p in
  match name with
  | [] => Raise ValueError
  | _ =>
      let old_suffix := name_suffix name in
      match old_suffix with
      | [] => Ok (p ++ suffix)
      | _ => Ok (firstn (length p - length old_suffix) p ++ suffix)
      end
  end.

(** ** migrate-command.py *)

Module MigrateCommand.
Section Defs.

Context {rt : PyRuntime}.

Definition alias_map : list (pystr * pystr) :=
  [ ("haiku" : pystr, "claude-haiku-4-5" : pystr);
    ("sonnet" : pystr, "claude-sonnet-4-5" : pystr);
    ("opus" : pystr, "claude-opus-4-5" : pystr) ].

(** Lines 59-90. *)
Definition migrate_short_alias_to_version_alias (frontmatter : pyval)
  : result (pyval * list pystr) :=
  let changes : list pystr := [] in
  has <- contains frontmatter "model" ;;
  if negb has then Ok (frontmatter, changes) else
  model <- getitem frontmatter "model" ;;
  hit <- lookup_alias model alias_map ;;
  match hit with
  | Some new_value =>
      let old_value := model in
      frontmatter <- setitem frontmatter "model" (PStr new_value) ;;
      Ok (frontmatter,
          changes ++ ["Migrated model: '" ++ py_str old_value ++ "' " ++ ARROW
                        ++ " '" ++ new_value ++ "'"])
  | None =>
      if eq_str model "inherit" then
        frontmatter <- delitem frontmatter "model" ;;
        Ok (frontmatter,
            changes ++ ["Removed model: 'inherit' (use field omission instead)" : pystr])
      else Ok (frontmatter, changes)
  end.

(** Lines 92-117. *)
Definition migrate_argument_hint_format (frontmatter : pyval)
  : result (pyval * list pystr) :=
  let changes : list pystr := [] in
  has <- contains frontmatter "argument-hint" ;;
  if negb has then Ok (frontmatter, changes) else
  hint <- getitem frontmatter "argument-hint" ;;
  '(frontmatter, changes, hint) <-
    match hint with
    | PList l =>
        let hint_str := join " " (map py_str l) in
        frontmatter <- setitem frontmatter "argument-hint" (PStr hint_str) ;;
        Ok (frontmatter,
            changes ++ ["Converted argument-hint from list to string: " ++ hint_str],
            PStr hint_str)
    | _ => Ok (frontmatter, changes, hint)
    end ;;
  if negb (startswith (py_str hint) "[") then
    let old_value := hint in
    let new_value := "[" ++ py_str hint ++ "]" in
    frontmatter <- setitem frontmatter "argument-hint" (PStr new_value) ;;
    Ok (frontmatter,
        changes ++ ["Added brackets to argument-hint: '" ++ py_str old_value ++ "' "
                      ++ ARROW ++ " '" ++ new_value ++ "'"])
  else Ok (frontmatter, changes).

(** Lines 119-130. *)
Definition migrate_tools_field_name (frontmatter : pyval)
  : result (pyval * list pystr) :=
  let changes : list pystr := [] in
  has_tools <- contains frontmatter "tools" ;;
  cond <- (if has_tools
           then has_allowed <- contains frontmatter "allowed-tools" ;; Ok (negb has_allowed)
           else Ok false) ;;
  if cond then
    tools <- getitem frontmatter "tools" ;;
    frontmatter <- setitem frontmatter "allowed-tools" tools ;;
    frontmatter <- delitem frontmatter "tools" ;;
    Ok (frontmatter, changes ++ ["Renamed field: 'tools' " ++ ARROW ++ " 'allowed-tools'"])
  else Ok (frontmatter, changes).

(** Lines 132-148. *)
Definition apply_all_migrations (frontmatter : pyval) : result (pyval * list pystr) :=
  let all_changes : list pystr := [] in
  '(frontmatter, changes) <- migrate_short_alias_to_version_alias frontmatter ;;
  let all_changes := all_changes ++ changes in
  '(frontmatter, changes) <- migrate_argument_hint_format frontmatter ;;
  let all_changes := all_changes ++ changes in
  '(frontmatter, changes) <- migrate_tools_field_name frontmatter ;;
  let all_changes := all_changes ++ changes in
  Ok (frontmatter, all_changes).

(** Lines 150-153. *)
Definition reconstruct_command (frontmatter : pyval) (body : pystr) : pystr :=
  "---" ++ NL ++ yaml_dump frontmatter ++ "---" ++ NL ++ body.

(** Lines 186-238: whether the file needs migration, the changes, and what
    is done to the file system; [answer] is what the user types at the
    prompt. *)
Definition migrate_single_command (f : file) (dry_run : bool) (answer : pystr)
  : result (bool * list pystr * list fs_op) :=
  let failed : result (bool * list pystr * list fs_op) := Ok (false, [], []) in
  match file_read f with
  | inr _ => failed
  | inl original_content =>
      match re_match DOTALL frontmatter_body_re original_content with
      | None => failed
      | Some m =>
          let frontmatter_text := nth 0 (groups m) [] in
          let body := nth 1 (groups m) [] in
          match yaml_safe_load frontmatter_text with
          | Raise _ => failed
          | Ok frontmatter =>
              '(new_frontmatter, changes) <- apply_all_migrations frontmatter ;;
              match changes with
              | [] => Ok (false, [], [])
              | _ =>
                  let new_content := reconstruct_command new_frontmatter body in
                  if negb dry_run then
                    let confirm := lower (strip answer) in
                    if str_eqb confirm "y" then
                      backup_path <- with_suffix (file_path f) ".md.bak" ;;
                      Ok (true, changes,
                          [Rename (file_path f) backup_path;
                           WriteText (file_path f) new_content])
                    else Ok (false, [], [])
                  else Ok (true, changes, [])
              end
          end
      end
  end.

End Defs.
End MigrateCommand.

(** ** migrate-skill.py *)

Module MigrateSkill.
Section Defs.

Context {rt : PyRuntime}.

(** Lines 58-71. *)
Definition migrate_remove_model_field (frontmatter : pyval)
  : result (pyval * list pystr) :=
  let changes : list pystr := [] in
  has <- contains frontmatter "model" ;;
  if has then
    old_value <- getitem frontmatter "model" ;;
    frontmatter <- delitem frontmatter "model" ;;
    Ok (frontmatter,
        changes ++ ["CRITICAL: Removed 'model' field with value '" ++ py_str old_value
                      ++ "' (skills don't support model specification)"])
  else Ok (frontmatter, changes).

Definition gerund_words : list pystr :=
  strs ["-ing-"; "analyzing"; "building"; "creating"].

(** Lines 73-85; [skill_name] is [skill_path.name]. *)
Definition migrate_gerund_form_recommendation (frontmatter : pyval) (skill_name : pystr)
  : result (pyval * list pystr) :=
  let changes : list pystr := [] in
  name <- get_default frontmatter "name" (PStr skill_name) ;;
  name <- as_str name ;;
  if negb (endswith name "ing") && negb (existsb (fun word => str_in word name) gerund_words)
  then Ok (frontmatter,
           changes ++ ["RECOMMENDATION: Consider gerund form for skill name '" ++ name
                         ++ "' (e.g., 'building-" ++ name ++ "', '" ++ name ++ "ing')"])
  else Ok (frontmatter, changes).

Definition trigger_keywords : list pystr :=
  strs ["use when"; "when"; "auto-invokes when"; "whenever"].

(** Lines 87-100. *)
Definition migrate_description_triggers (frontmatter : pyval)
  : result (pyval * list pystr) :=
  let changes : list pystr := [] in
  description <- get_default frontmatter "description" (PStr "") ;;
  cond <- (if truthy description
           then d <- as_str description ;;
                Ok (negb (existsb (fun keyword => str_in keyword (lower d)) trigger_keywords))
           else Ok false) ;;
  if cond
  then Ok (frontmatter,
           changes ++ ["RECOMMENDATION: Description should state WHEN Claude should auto-invoke (add 'Auto-invokes when...' or 'Use when...')" : pystr])
  else Ok (frontmatter, changes).

(** Lines 102-118. *)
Definition apply_all_migrations (frontmatter : pyval) (skill_name : pystr)
  : result (pyval * list pystr) :=
  let all_changes : list pystr := [] in
  '(frontmatter, changes) <- migrate_remove_model_field frontmatter ;;
  let all_changes := all_changes ++ changes in
  '(frontmatter, changes) <- migrate_gerund_form_recommendation frontmatter skill_name ;;
  let all_changes := all_changes ++ changes in
  '(frontmatter, changes) <- migrate_description_triggers frontmatter ;;
  let all_changes := all_changes ++ changes in
  Ok (frontmatter, all_changes).

(** Lines 177-179 of [migrate_single_skill]: a change is applied
    automatically when it is critical, and only shown when it is a
    recommendation. *)
Definition critical_changes (changes : list pystr) : list pystr :=
  filter (fun c => startswith c "CRITICAL") changes.

Definition recommendations (changes : list pystr) : list pystr :=
  filter (fun c => startswith c "RECOMMENDATION") changes.

(** Lines 120-123. *)
Definition reconstruct_skill (frontmatter : pyval) (body : pystr) : pystr :=
  "---" ++ NL ++ yaml_dump frontmatter ++ "---" ++ NL ++ body.

(** Lines 156-227, in the same way as [migrate_single_command]. *)
Definition migrate_single_skill (d : skill_dir) (dry_run : bool) (answer : pystr)
  : result (bool * list pystr * list fs_op) :=
  let failed : result (bool * list pystr * list fs_op) := Ok (false, [], []) in
  let skill_md := skill_path d ++ "/SKILL.md" in
  match skill_md_read d with
  | inr _ => failed
  | inl original_content =>
      match re_match DOTALL frontmatter_body_re original_content with
      | None => failed
      | Some m =>
          let frontmatter_text := nth 0 (groups m) [] in
          let body := nth 1 (groups m) [] in
          match yaml_safe_load frontmatter_text with
          | Raise _ => failed
          | Ok frontmatter =>
              '(new_frontmatter, changes) <- apply_all_migrations frontmatter (skill_name d) ;;
              match changes with
              | [] => Ok (false, [], [])
              | _ =>
                  match critical_changes changes with
                  | [] => Ok (false, changes, [])
                  | _ =>
                      if negb dry_run then
                        let new_content := reconstruct_skill new_frontmatter body in
                        let confirm := lower (strip answer) in
                        if str_eqb confirm "y" then
                          let backup_path := skill_md ++ ".bak" in
                          Ok (true, changes,
                              [Rename skill_md backup_path; WriteText skill_md new_content])
                        else Ok (false, [], [])
                      else Ok (true, changes, [])
                  end
              end
          end
      end
  end.

End Defs.
End MigrateSkill.

(** ** migrate-hook.py *)

Module MigrateHook.
Section Defs.

Context {rt : PyRuntime}.

Definition VALID_EVENTS : list pystr :=
  strs ["PreToolUse"; "PostToolUse"; "UserPromptSubmit";
        "Stop"; "SessionStart"; "Notification"; "SubagentStop"; "PreCompact"].

Definition TOOL_EVENTS : list pystr := strs ["PreToolUse"; "PostToolUse"].

Definition LIFECYCLE_EVENTS : list pystr :=
  strs ["UserPromptSubmit"; "Stop"; "SessionStart"; "Notification";
        "SubagentStop"; "PreCompact"].

(** [for i, x in enumerate(l)] whose body may mutate [x] and append to the
    change list: the elements after the loop and the messages, in order. *)
Fixpoint for_enumerate (f : nat -> pyval -> result (pyval * list pystr))
    (i : nat) (l : list pyval) : result (list pyval * list pystr) :=
  match l with
  | [] => Ok ([], [])
  | x :: l' =>
      '(x', c) <- f i x ;;
      '(l'', cs) <- for_enumerate f (S i) l' ;;
      Ok (x' :: l'', c ++ cs)
  end.

(** [for k, v in d.items()] in the same way. *)
Fixpoint for_items (f : pystr -> pyval -> result (pyval * list pystr))
    (d : pydict) : result (pydict * list pystr) :=
  match d with
  | [] => Ok ([], [])
  | (k, v) :: d' =>
      '(v', c) <- f k v ;;
      '(d'', cs) <- for_items f d' ;;
      Ok ((k, v') :: d'', c ++ cs)
  end.

(** The object a loop ran through, after the loop: only the elements of a
    list are objects the body can mutate (the keys of a dict and the
    characters of a string are immutable strings). *)
Definition rebuild (orig : pyval) (elems : list pyval) : pyval :=
  match orig with
  | PList _ => PList elems
  | _ => orig
  end.

(** [hook #{i+1}] *)
Definition hook_no (i : nat) : pystr := "hook #" ++ str_of_nat (i + 1).
Definition item_no (j : nat) : pystr := "item #" ++ str_of_nat (j + 1).

(** Lines 44-50, one hook group of a lifecycle event. *)
Definition remove_empty_matcher (event_name : pystr) (i : nat) (hook_config : pyval)
  : result (pyval * list pystr) :=
  has <- contains hook_config "matcher" ;;
  if has then
    matcher <- getitem hook_config "matcher" ;;
    empty <- (if negb (truthy matcher) then Ok true
              else s <- as_str matcher ;; Ok (str_eqb (strip s) "")) ;;
    if empty then
      hook_config <- delitem hook_config "matcher" ;;
      Ok (hook_config, ["Removed empty matcher from " ++ event_name ++ " " ++ hook_no i])
    else
      Ok (hook_config,
          ["WARNING: " ++ event_name ++ " " ++ hook_no i ++ " has matcher '"
             ++ py_str matcher ++ "' (lifecycle events shouldn't have matchers)"])
  else Ok (hook_config, []).

(** Lines 33-52. *)
Definition migrate_remove_empty_matchers (hooks_config : pyval)
  : result (pyval * list pystr) :=
  has <- contains hooks_config "hooks" ;;
  if negb has then Ok (hooks_config, []) else
  hooks <- getitem hooks_config "hooks" ;;
  events <- items hooks ;;
  '(events, changes) <-
    for_items
      (fun event_name event_hooks =>
         if str_mem event_name LIFECYCLE_EVENTS then
           hook_configs <- iterate event_hooks ;;
           '(hook_configs, changes) <-
             for_enumerate (remove_empty_matcher event_name) 0 hook_configs ;;
           Ok (rebuild event_hooks hook_configs, changes)
         else Ok (event_hooks, []))
      events ;;
  hooks_config <- setitem hooks_config "hooks" (PDict events) ;;
  Ok (hooks_config, changes).

(** Lines 66-70, one hook group of a tool event. *)
Definition add_missing_matcher (event_name : pystr) (i : nat) (hook_config : pyval)
  : result (pyval * list pystr) :=
  has <- contains hook_config "matcher" ;;
  missing <- (if negb has then Ok true
              else matcher <- getitem hook_config "matcher" ;; Ok (negb (truthy matcher))) ;;
  if missing then
    hook_config <- setitem hook_config "matcher" (PStr "*") ;;
    Ok (hook_config, ["Added default matcher '*' to " ++ event_name ++ " " ++ hook_no i])
  else Ok (hook_config, []).

(** Lines 55-72. *)
Definition migrate_add_missing_matchers (hooks_config : pyval)
  : result (pyval * list pystr) :=
  has <- contains hooks_config "hooks" ;;
  if negb has then Ok (hooks_config, []) else
  hooks <- getitem hooks_config "hooks" ;;
  events <- items hooks ;;
  '(events, changes) <-
    for_items
      (fun event_name event_hooks =>
         if str_mem event_name TOOL_EVENTS then
           hook_configs <- iterate event_hooks ;;
           '(hook_configs, changes) <-
             for_enumerate (add_missing_matcher event_name) 0 hook_configs ;;
           Ok (rebuild event_hooks hook_configs, changes)
         else Ok (event_hooks, []))
      events ;;
  hooks_config <- setitem hooks_config "hooks" (PDict events) ;;
  Ok (hooks_config, changes).

(** The name [CLAUDE_PLUGIN_ROOT] that the f-string of line 103 evaluates:
    the module binds no such global and there is no such builtin. *)
Definition CLAUDE_PLUGIN_ROOT : result pyval := Raise NameError.

(** Lines 89-104, one hook item. *)
Definition normalize_script_path (event_name : pystr) (i j : nat) (hook_item : pyval)
  : result (list pystr) :=
  type <- get_default hook_item "type" PNone ;;
  if eq_str type "command" then
    command <- get_default hook_item "command" (PStr "") ;;
    command <- as_str command ;;
    if startswith command "bash " || startswith command "sh " then
      let parts := split_ws command in
      if (1 <? length parts)%nat then
        let script_path := nth 1 parts [] in
        if negb (startswith script_path "/") && negb (startswith script_path "${") then
          root <- CLAUDE_PLUGIN_ROOT ;;
          Ok ["RECOMMEND: " ++ event_name ++ " " ++ hook_no i ++ ", " ++ item_no j ++ ": "
                ++ "Use $" ++ py_str root ++ " for '" ++ script_path ++ "'"]
        else Ok []
      else Ok []
    else Ok []
  else Ok [].

(** Lines 84-104, one hook group. *)
Definition normalize_script_paths_group (event_name : pystr) (i : nat) (hook_config : pyval)
  : result (list pystr) :=
  has <- contains hook_config "hooks" ;;
  if negb has then Ok [] else
  hooks <- getitem hook_config "hooks" ;;
  hook_items <- iterate hooks ;;
  rs <- mapM (fun p => normalize_script_path event_name i (fst p) (snd p))
             (enumerate hook_items) ;;
  Ok (concat rs).

(** Lines 75-106. *)
Definition migrate_normalize_script_paths (hooks_config : pyval)
  : result (pyval * list pystr) :=
  has <- contains hooks_config "hooks" ;;
  if negb has then Ok (hooks_config, []) else
  hooks <- getitem hooks_config "hooks" ;;
  events <- items hooks ;;
  rs <- mapM (fun ev =>
                let '(event_name, event_hooks) := ev in
                hook_configs <- iterate event_hooks ;;
                rs <- mapM (fun p => normalize_script_paths_group event_name (fst p) (snd p))
                           (enumerate hook_configs) ;;
                Ok (concat rs))
             events ;;
  Ok (hooks_config, concat rs).

(** Lines 123-143, one hook item. *)
Definition validate_hook_type (event_name : pystr) (i j : nat) (hook_item : pyval)
  : result (pyval * list pystr) :=
  let changes : list pystr := [] in
  let where_ := event_name ++ " " ++ hook_no i ++ ", " ++ item_no j in
  hook_type <- get_default hook_item "type" (PStr "") ;;
  '(hook_item, changes) <-
    (if negb (in_strs hook_type (strs ["command"; "prompt"])) then
       has_command <- contains hook_item "command" ;;
       if has_command then
         hook_item <- setitem hook_item "type" (PStr "command") ;;
         Ok (hook_item, changes ++ ["Fixed type to 'command' for " ++ where_])
       else
         has_prompt <- contains hook_item "prompt" ;;
         if has_prompt then
           hook_item <- setitem hook_item "type" (PStr "prompt") ;;
           Ok (hook_item, changes ++ ["Fixed type to 'prompt' for " ++ where_])
         else
           Ok (hook_item,
               changes ++ ["ERROR: " ++ where_ ++ ": Invalid type '" ++ py_str hook_type
                             ++ "' with no command or prompt"])
     else Ok (hook_item, changes)) ;;
  changes <-
    (if eq_str hook_type "command" then
       has_command <- contains hook_item "command" ;;
       Ok (if negb has_command
           then changes ++ ["ERROR: " ++ where_ ++ ": Missing 'command' field"]
           else changes)
     else Ok changes) ;;
  changes <-
    (if eq_str hook_type "prompt" then
       has_prompt <- contains hook_item "prompt" ;;
       Ok (if negb has_prompt
           then changes ++ ["ERROR: " ++ where_ ++ ": Missing 'prompt' field"]
           else changes)
     else Ok changes) ;;
  Ok (hook_item, changes).

(** Lines 118-143, one hook group. *)
Definition validate_hook_types_group (event_name : pystr) (i : nat) (hook_config : pyval)
  : result (pyval * list pystr) :=
  has <- contains hook_config "hooks" ;;
  if negb has then Ok (hook_config, []) else
  hooks <- getitem hook_config "hooks" ;;
  hook_items <- iterate hooks ;;
  '(hook_items, changes) <- for_enumerate (validate_hook_type event_name i) 0 hook_items ;;
  hook_config <- setitem hook_config "hooks" (rebuild hooks hook_items) ;;
  Ok (hook_config, changes).

(** Lines 109-145. *)
Definition migrate_validate_hook_types (hooks_config : pyval)
  : result (pyval * list pystr) :=
  has <- contains hooks_config "hooks" ;;
  if negb has then Ok (hooks_config, []) else
  hooks <- getitem hooks_config "hooks" ;;
  events <- items hooks ;;
  '(events, changes) <-
    for_items
      (fun event_name event_hooks =>
         hook_configs <- iterate event_hooks ;;
         '(hook_configs, changes) <-
           for_enumerate (validate_hook_types_group event_name) 0 hook_configs ;;
         Ok (rebuild event_hooks hook_configs, changes))
      events ;;
  hooks_config <- setitem hooks_config "hooks" (PDict events) ;;
  Ok (hooks_config, changes).

(** Lines 148-166. *)
Definition migrate_remove_invalid_events (hooks_config : pyval)
  : result (pyval * list pystr) :=
  has <- contains hooks_config "hooks" ;;
  if negb has then Ok (hooks_config, []) else
  hooks <- getitem hooks_config "hooks" ;;
  events <- items hooks ;;
  let invalid_events :=
    filter (fun event_name => negb (str_mem event_name VALID_EVENTS)) (map fst events) in
  let kept := filter (fun ev => str_mem (fst ev) VALID_EVENTS) events in
  hooks_config <- setitem hooks_config "hooks" (PDict kept) ;;
  Ok (hooks_config,
      map (fun event_name => "REMOVED: Invalid event '" ++ event_name ++ "'") invalid_events).

(** Lines 226-266 of [main]: the five migrations in order on the working
    copy. *)
Definition run_migrations (hooks_config : pyval) : result (pyval * list pystr) :=
  let all_changes : list pystr := [] in
  '(hooks_config, changes) <- migrate_remove_invalid_events hooks_config ;;
  let all_changes := all_changes ++ changes in
  '(hooks_config, changes) <- migrate_remove_empty_matchers hooks_config ;;
  let all_changes := all_changes ++ changes in
  '(hooks_config, changes) <- migrate_add_missing_matchers hooks_config ;;
  let all_changes := all_changes ++ changes in
  '(hooks_config, changes) <- migrate_validate_hook_types hooks_config ;;
  let all_changes := all_changes ++ changes in
  '(hooks_config, recommendations) <- migrate_normalize_script_paths hooks_config ;;
  let all_changes := all_changes ++ recommendations in
  Ok (hooks_config, all_changes).

End Defs.
End MigrateHook.

(** ** audit-commands.py *)

Module AuditCommands.
Section Defs.

Context {rt : PyRuntime}.

Inductive parsed : Type :=
| Parsed (frontmatter : pyval) (body : pystr)
| ParseError (error : pystr).

(** Lines 42-65.  Every error text is a non-empty string, so the test
    [if parse_error:] of the caller is the test for [ParseError]. *)
Definition parse_command (f : file) : result parsed :=
  match file_read f with
  | inr e => Ok (ParseError ("Failed to read file: " ++ e))
  | inl content =>
      match re_match DOTALL frontmatter_body_re content with
      | None => Ok (ParseError "Missing YAML frontmatter")
      | Some m =>
          let frontmatter_text := nth 0 (groups m) [] in
          let body := nth 1 (groups m) [] in
          match yaml_safe_load frontmatter_text with
          | Raise (YAMLError e) => Ok (ParseError ("Invalid YAML: " ++ e))
          | Raise e => Raise e
          | Ok frontmatter => Ok (Parsed frontmatter body)
          end
      end
  end.

Definition common_verbs : list pystr :=
  strs ["add"; "build"; "check"; "clean"; "commit"; "create"; "delete"; "deploy";
        "generate"; "get"; "install"; "list"; "make"; "new"; "push"; "remove";
        "review"; "run"; "search"; "show"; "test"; "update"; "validate"].

(** Lines 85-104. *)
Definition check_filename (command_name : pystr) (r : report) : report :=
  let r := when (negb (matched (re_match NOFLAGS name_re command_name)))
             (fun r => add_critical r "Invalid filename: must be lowercase-hyphens only") r in
  let r := when (str_in "_" command_name)
             (fun r => add_critical r "Underscores not allowed in filename") r in
  let r := when (64 <? length command_name)%nat
             (fun r => add_critical r "Filename exceeds 64 characters") r in
  when (negb (existsb (fun verb => startswith command_name verb) common_verbs))
    (fun r => add_recommendation r "Consider verb-first naming (e.g., 'create-', 'run-')") r.

(** Lines 106-114. *)
Definition check_description (frontmatter : pyval) (r : report) : result report :=
  has <- contains frontmatter "description" ;;
  if negb has then Ok (add_critical r "Missing required 'description' field")
  else
    desc <- getitem frontmatter "description" ;;
    n <- py_len desc ;;
    if (n <? 10)%nat then Ok (add_warning r "Description too short (< 10 chars)")
    else if (200 <? n)%nat then Ok (add_warning r "Description too long (> 200 chars)")
    else Ok r.

(** Lines 116-127. *)
Definition check_model (frontmatter : pyval) (r : report) : result report :=
  has <- contains frontmatter "model" ;;
  if has then
    model <- getitem frontmatter "model" ;;
    if in_strs model short_aliases then
      Ok (add_critical r
            ("CRITICAL: Commands cannot use short alias '" ++ py_str model ++ "'. "
               ++ "Use version alias like 'claude-haiku-4-5' or full ID"))
    else
      s <- as_str model ;;
      if negb (startswith s "claude-") then
        Ok (add_warning r
              ("Model '" ++ py_str model ++ "' doesn't start with 'claude-', may cause errors"))
      else Ok r
  else Ok r.

(** Lines 129-147. *)
Definition check_tools (frontmatter : pyval) (body : pystr) (r : report) : result report :=
  has <- contains frontmatter "allowed-tools" ;;
  if has then
    tools <- getitem frontmatter "allowed-tools" ;;
    match tools with
    | PStr tools =>
        let tool_list := map strip (split_on 44 tools) in
        let r := fold_left
                   (fun r tool =>
                      when (negb (str_mem tool valid_tools))
                        (fun r => add_warning r ("Unknown tool: '" ++ tool ++ "'")) r)
                   tool_list r in
        Ok (when (str_in "Bash" tools
                  && (match body with [] => false | _ => true end
                      && negb (str_in "validation" (lower body))
                      && negb (str_in "sanitize" (lower body))))
              (fun r => add_critical r "Has Bash access without input validation documentation")
              r)
    | _ => Ok r
    end
  else Ok r.

(** [\$\w+\s*] followed by one of [&&], [|], [;] and a backquote. *)
Definition injection_re : regex :=
  rseq [RChar 36; rplus (RClass CWord); RStar true SPACE;
        RAlt (rlit "&&") (RAlt (RChar 124) (RAlt (RChar 59) (RChar 96)))].

Definition dangerous_patterns : list (regex * pystr) :=
  [ (injection_re, "Potential command injection risk" : pystr);
    (rm_rf_var_re, "Dangerous rm -rf with variable" : pystr);
    (eval_re, "Using eval with arguments is dangerous" : pystr) ].

(** Lines 149-171. *)
Definition check_body (frontmatter : pyval) (body : pystr) (r : report) : result report :=
  match body with
  | [] => Ok r
  | _ =>
      let uses_positional := re_search NOFLAGS positional_re body in
      let uses_all_args := str_in "$ARGUMENTS" body in
      r <- (if uses_positional || uses_all_args then
              has_hint <- contains frontmatter "argument-hint" ;;
              let r := when (negb has_hint)
                         (fun r => add_warning r "Uses arguments but missing 'argument-hint' field")
                         r in
              Ok (when (negb (str_in "## Arguments" body) && negb (str_in "## Parameters" body))
                    (fun r => add_recommendation r
                                "Add '## Arguments' section to document parameters")
                    r)
            else Ok r) ;;
      allowed <- get_default frontmatter "allowed-tools" (PStr "") ;;
      has_bash <- contains allowed "Bash" ;;
      if has_bash then
        Ok (fold_left
              (fun r pm =>
                 when (re_search NOFLAGS (fst pm) body)
                   (fun r => add_critical r ("SECURITY: " ++ snd pm)) r)
              dangerous_patterns r)
      else Ok r
  end.

(** Lines 67-181: status, critical errors, warnings, recommendations. *)
Definition validate_command (f : file) : result (pystr * report) :=
  p <- parse_command f ;;
  match p with
  | ParseError parse_error =>
      Ok ("parse_error" : pystr,
          {| critical_errors := [parse_error]; warnings := []; recommendations := [] |})
  | Parsed frontmatter body =>
      let command_name := file_stem f in
      let r := check_filename command_name no_findings in
      r <- check_description frontmatter r ;;
      r <- check_model frontmatter r ;;
      r <- check_tools frontmatter body r ;;
      r <- check_body frontmatter body r ;;
      Ok (status_of r, r)
  end.

(** Lines 299-303 of [main]: one entry per file, in order. *)
Definition audit (command_files : list file) : result (list (file * (pystr * report))) :=
  mapM (fun command_file =>
          res <- validate_command command_file ;;
          Ok (command_file, res))
       command_files.

(** Lines 309-310 of [main]. *)
Definition exit_code (results : list (file * (pystr * report))) : nat :=
  if existsb (fun e => str_mem (fst (snd e)) (strs ["errors"; "parse_error"])) results
  then 1 else 0.

End Defs.
End AuditCommands.

(** ** validate-command.py *)

Module ValidateCommand.
Section Defs.

Context {rt : PyRuntime}.

Definition common_verbs : list pystr :=
  strs ["add"; "build"; "check"; "clean"; "commit"; "create"; "delete"; "deploy";
        "generate"; "get"; "install"; "list"; "make"; "push"; "remove"; "review";
        "run"; "search"; "show"; "test"; "update"; "validate"].

Definition add (errors : list pystr) (c : bool) (m : pystr) : list pystr :=
  if c then errors ++ [m] else errors.

(** Lines 33-47. *)
Definition check_filename (command_name : pystr) (errors : list pystr) : list pystr :=
  let errors :=
    add errors (negb (matched (re_match NOFLAGS name_re command_name)))
      ("Invalid filename '" ++ command_name
         ++ ".md': must be lowercase letters, numbers, and hyphens only") in
  let errors :=
    add errors (str_in "_" command_name)
      ("Invalid filename '" ++ command_name
         ++ ".md': underscores not allowed, use hyphens instead") in
  add errors (negb (existsb (fun verb => startswith command_name verb) common_verbs))
    ("Recommendation: Command names are typically action-oriented (start with a verb): '"
       ++ command_name ++ "' " ++ ARROW ++ " consider 'run-" ++ command_name
       ++ "', 'create-" ++ command_name ++ "', etc.").

(** Lines 72-78. *)
Definition check_description (frontmatter : pyval) (errors : list pystr)
  : result (list pystr) :=
  has <- contains frontmatter "description" ;;
  if negb has then
    Ok (errors ++ ["Recommendation: Add 'description' field to help users understand what the command does" : pystr])
  else
    description <- getitem frontmatter "description" ;;
    n <- py_len description ;;
    Ok (add errors (n <? 10)%nat
          ("Warning: Description is very short (" ++ str_of_nat n ++ " chars)")).

(** Lines 80-93. *)
Definition check_tools (frontmatter : pyval) (errors : list pystr) : result (list pystr) :=
  has <- contains frontmatter "allowed-tools" ;;
  if has then
    tools <- getitem frontmatter "allowed-tools" ;;
    match tools with
    | PStr tools =>
        let tool_list := map strip (split_on 44 tools) in
        Ok (fold_left
              (fun errors tool =>
                 add errors (negb (str_mem tool valid_tools))
                   ("Warning: Unknown tool '" ++ tool ++ "'. Valid tools: "
                      ++ join ", " valid_tools))
              tool_list errors)
    | _ => Ok errors
    end
  else Ok errors.

Definition version_alias_map : list (pystr * pystr) :=
  [ ("haiku" : pystr, "claude-haiku-4-5" : pystr);
    ("sonnet" : pystr, "claude-sonnet-4-5" : pystr);
    ("opus" : pystr, "claude-opus-4-5" : pystr) ].

(** The finding of lines 109-120. *)
Definition short_alias_error (file_path model_value suggested_version : pystr) : pystr :=
  "CRITICAL ERROR: Commands cannot use short aliases. "
  ++ "Found: 'model: " ++ model_value ++ "'" ++ NL ++ NL
  ++ "   " ++ [128221%N] ++ " Quick Fix Options:" ++ NL ++ NL
  ++ "   Option 1 (Recommended): Remove the model field entirely" ++ NL
  ++ "     sed -i '/^model:/d' " ++ file_path ++ NL ++ NL
  ++ "   Option 2: Use version alias instead" ++ NL
  ++ "     sed -i 's/model: " ++ model_value ++ "/model: " ++ suggested_version ++ "/' "
  ++ file_path ++ NL ++ NL
  ++ "   " ++ [8505%N; 65039%N]
  ++ "  Why? Commands execute in conversation context and must use explicit" ++ NL
  ++ "      version aliases. Only agents can use short aliases like '" ++ model_value
  ++ "'." ++ NL ++ NL
  ++ "   " ++ [128218%N]
  ++ " See: claude-component-builder/skills/building-commands/templates/ for examples".

(** Lines 95-126. *)
Definition check_model (file_path : pystr) (frontmatter : pyval) (errors : list pystr)
  : result (list pystr) :=
  has <- contains frontmatter "model" ;;
  if has then
    model_value <- getitem frontmatter "model" ;;
    if in_strs model_value short_aliases then
      hit <- lookup_alias model_value version_alias_map ;;
      let suggested_version :=
        match hit with Some v => v | None => "claude-sonnet-4-5" : pystr end in
      Ok (errors ++ [short_alias_error file_path (py_str model_value) suggested_version])
    else
      s <- as_str model_value ;;
      Ok (add errors (negb (startswith s "claude-"))
            ("Warning: Model '" ++ py_str model_value
               ++ "' doesn't match expected format 'claude-*'. "
               ++ "Ensure this is a valid Anthropic model ID (e.g., 'claude-haiku-4-5' or 'claude-haiku-4-5-20251001')."))
  else Ok errors.

(** Lines 128-138. *)
Definition check_argument_hint (frontmatter : pyval) (errors : list pystr)
  : result (list pystr) :=
  has <- contains frontmatter "argument-hint" ;;
  if has then
    arg_hint <- getitem frontmatter "argument-hint" ;;
    let arg_hint : pystr :=
      match arg_hint with
      | PList l => join " " (map py_str l)
      | PStr s => s
      | _ => py_str arg_hint
      end in
    Ok (add errors (negb (startswith arg_hint "["))
          ("Warning: argument-hint typically uses brackets: '" ++ arg_hint ++ "' "
             ++ ARROW ++ " '[" ++ arg_hint ++ "]'"))
  else Ok errors.

(** Lines 143-161. *)
Definition check_documentation (frontmatter : pyval) (body : pystr) (errors : list pystr)
  : result (list pystr) :=
  let uses_positional := re_search NOFLAGS positional_re body in
  let uses_all_args := str_in "$ARGUMENTS" body in
  errors <-
    (if uses_positional || uses_all_args then
       has_hint <- contains frontmatter "argument-hint" ;;
       let errors :=
         add errors (negb has_hint)
           "Recommendation: Add 'argument-hint' field since the command uses arguments ($1, $2, or $ARGUMENTS)" in
       Ok (add errors (uses_positional && negb (str_in "## Arguments" body))
             "Recommendation: Add an '## Arguments' section to document what each positional argument does")
     else Ok errors) ;;
  let errors :=
    add errors (negb (str_in "## Workflow" body) && negb (str_in "## Steps" body))
      "Recommendation: Add a workflow section to document the command's execution steps" in
  Ok (add errors (negb (str_in "## Example" body) && negb (str_in "## Usage" body))
        "Recommendation: Add usage examples showing how to invoke the command").

(** Three backquotes, [(?:bash|sh)], a newline, a lazy group of any text,
    three backquotes. *)
Definition bash_block_re : regex :=
  rseq [rlit [96; 96; 96]%N; RAlt (rlit "bash") (rlit "sh"); RChar 10;
        RGroup (RStar false RAny); rlit [96; 96; 96]%N].

(** [rm\s+-rf\s+/\s*$] *)
Definition rm_rf_root_re : regex :=
  rseq [rlit "rm"; rplus SPACE; rlit "-rf"; rplus SPACE; RChar 47; RStar true SPACE; REol].

(** [\|\s*bash\b] *)
Definition pipe_bash_re : regex :=
  rseq [RChar 124; RStar true SPACE; rlit "bash"; RWordB].

(** [curl.*\|\s*sh] and [wget.*\|\s*sh] *)
Definition pipe_sh_re (tool : pystr) : regex :=
  rseq [rlit tool; RStar true RAny; RChar 124; RStar true SPACE; rlit "sh"].

Definition critical_patterns : list (regex * pystr) :=
  [ (eval_re,
     "SECURITY ERROR: Using eval with arguments enables arbitrary code execution" : pystr);
    (rm_rf_root_re,
     "SECURITY ERROR: rm -rf / detected - this will delete entire filesystem" : pystr);
    (pipe_bash_re,
     "SECURITY ERROR: Piping to bash enables arbitrary code execution" : pystr);
    (pipe_sh_re "curl",
     "SECURITY ERROR: Piping curl to sh enables remote code execution" : pystr);
    (pipe_sh_re "wget",
     "SECURITY ERROR: Piping wget to sh enables remote code execution" : pystr) ].

(** [\$\w+\s*(?:&&|\||;)] *)
Definition injection_re : regex :=
  rseq [RChar 36; rplus (RClass CWord); RStar true SPACE;
        RAlt (rlit "&&") (RAlt (RChar 124) (RChar 59))].

Definition warning_patterns : list (regex * pystr) :=
  [ (rm_rf_var_re,
     "Dangerous rm -rf with variable - ensure input validation before use" : pystr);
    (injection_re,
     "Potential command injection - ensure variables are validated/quoted" : pystr) ].

(** [\$[1-9]] *)
Definition positional_arg_re : regex :=
  rseq [RChar 36; RClass (CRanges [(49, 57)]%N)].

(** [(validate|check|if\s+\[|test\s+)] *)
Definition validation_re : regex :=
  RGroup (RAlt (rlit "validate")
         (RAlt (rlit "check")
         (RAlt (rseq [rlit "if"; rplus SPACE; RChar 91])
               (rseq [rlit "test"; rplus SPACE])))).

(** Lines 163-201. *)
Definition check_security (frontmatter : pyval) (body : pystr) (errors : list pystr)
  : result (list pystr) :=
  allowed <- get_default frontmatter "allowed-tools" (PStr "") ;;
  has_bash <- contains allowed "Bash" ;;
  if has_bash then
    let bash_blocks := re_findall DOTALL bash_block_re body in
    let bash_content := join NL bash_blocks in
    let errors :=
      fold_left
        (fun errors pm => add errors (re_search IGNORECASE (fst pm) bash_content) (snd pm))
        critical_patterns errors in
    let errors :=
      fold_left
        (fun errors pm =>
           add errors (re_search NOFLAGS (fst pm) bash_content) ("Warning: " ++ snd pm))
        warning_patterns errors in
    Ok (fold_left
          (fun errors block =>
             add errors
               ((re_search NOFLAGS positional_arg_re block || str_in "$ARGUMENTS" block)
                && negb (re_search IGNORECASE validation_re block))
               ("Warning: Bash code block uses $1, $2, or $ARGUMENTS without visible validation. "
                  ++ "Consider adding input validation: if [[ -z " ++ [34%N] ++ "$1"
                  ++ [34%N] ++ " ]]; then echo 'Error'; exit 1; fi"))
          bash_blocks errors)
  else Ok errors.

(** The filter of line 203, which is also how [main] (lines 224-232) sorts the
    findings: one that starts with neither [Warning:] nor [Recommendation:]
    is a critical error. *)
Definition is_critical (e : pystr) : bool :=
  negb (startswith e "Warning:" || startswith e "Recommendation:").

(** Lines 17-203: validity and the findings. *)
Definition validate_command (f : file) : result (bool * list pystr) :=
  let errors : list pystr := [] in
  if negb (file_exists f) then Ok (false, ["File does not exist: " ++ file_path f]) else
  let command_name := file_stem f in
  let errors := check_filename command_name errors in
  match file_read f with
  | inr e => Ok (false, ["Failed to read file: " ++ e])
  | inl content =>
      match re_match DOTALL frontmatter_re content with
      | None =>
          Ok (false,
              errors ++ ["Missing YAML frontmatter (must start with --- and end with ---)" : pystr])
      | Some m =>
          let frontmatter_text := nth 0 (groups m) [] in
          match yaml_safe_load frontmatter_text with
          | Raise (YAMLError e) => Ok (false, errors ++ ["Invalid YAML syntax: " ++ e])
          | Raise e => Raise e
          | Ok frontmatter =>
              errors <- check_description frontmatter errors ;;
              errors <- check_tools frontmatter errors ;;
              errors <- check_model (file_path f) frontmatter errors ;;
              errors <- check_argument_hint frontmatter errors ;;
              let body := rest m in
              errors <- check_documentation frontmatter body errors ;;
              errors <- check_security frontmatter body errors ;;
              Ok (match filter is_critical errors with [] => true | _ => false end, errors)
          end
      end
  end.

End Defs.
End ValidateCommand.

(** ** audit-skills.py *)

Module AuditSkills.
Section Defs.

Context {rt : PyRuntime}.

Inductive parsed : Type :=
| Parsed (frontmatter : pyval) (body : pystr)
| ParseError (error : pystr).

(** Lines 42-70. *)
Definition parse_skill (d : skill_dir) : result parsed :=
  if negb (skill_md_exists d) then Ok (ParseError "SKILL.md not found") else
  match skill_md_read d with
  | inr e => Ok (ParseError ("Failed to read SKILL.md: " ++ e))
  | inl content =>
      match re_match DOTALL frontmatter_body_re content with
      | None => Ok (ParseError "Missing YAML frontmatter")
      | Some m =>
          let frontmatter_text := nth 0 (groups m) [] in
          let body := nth 1 (groups m) [] in
          match yaml_safe_load frontmatter_text with
          | Raise (YAMLError e) => Ok (ParseError ("Invalid YAML: " ++ e))
          | Raise e => Raise e
          | Ok frontmatter => Ok (Parsed frontmatter body)
          end
      end
  end.

Definition gerund_words : list pystr :=
  strs ["-ing-"; "analyzing"; "building"; "creating"].

(** Lines 92-104. *)
Definition check_directory_name (skill_name : pystr) (r : report) : report :=
  let r := when (negb (matched (re_match NOFLAGS name_re skill_name)))
             (fun r => add_critical r "Invalid directory name: must be lowercase-hyphens only")
             r in
  let r := when (str_in "_" skill_name)
             (fun r => add_critical r "Underscores not allowed in directory name") r in
  let r := when (64 <? length skill_name)%nat
             (fun r => add_critical r "Directory name exceeds 64 characters") r in
  when (negb (endswith skill_name "ing")
        && negb (existsb (fun word => str_in word skill_name) gerund_words))
    (fun r => add_recommendation r
                "Consider gerund form for skill names (e.g., 'building-x', 'analyzing-y')")
    r.

(** Lines 106-111. *)
Definition check_name (skill_name : pystr) (frontmatter : pyval) (r : report)
  : result report :=
  has <- contains frontmatter "name" ;;
  if negb has then Ok (add_critical r "Missing required 'name' field")
  else
    name <- getitem frontmatter "name" ;;
    Ok (when (negb (eq_str name skill_name))
          (fun r => add_warning r
                      ("Name '" ++ py_str name ++ "' doesn't match directory '"
                         ++ skill_name ++ "'"))
          r).

Definition trigger_keywords : list pystr :=
  strs ["use when"; "when"; "auto-invokes when"; "whenever"; "automatically activated"].

(** Lines 113-125. *)
Definition check_description (frontmatter : pyval) (r : report) : result report :=
  has <- contains frontmatter "description" ;;
  if negb has then Ok (add_critical r "Missing required 'description' field")
  else
    desc <- getitem frontmatter "description" ;;
    n <- py_len desc ;;
    let r :=
      if (n <? 30)%nat then add_warning r "Description too short for skills (< 30 chars)"
      else if (1024 <? n)%nat then add_critical r "Description exceeds 1024 character limit"
      else r in
    d <- as_str desc ;;
    Ok (when (negb (existsb (fun keyword => str_in keyword (lower d)) trigger_keywords))
          (fun r => add_warning r
                      "Description should clearly state WHEN Claude should auto-invoke")
          r).

(** The finding of lines 129-133. *)
Definition model_error (skill_name : pystr) : pystr :=
  "CRITICAL: Skills cannot have 'model' field. "
  ++ "Only agents support model specification. "
  ++ "Run: /agent-builder:skills:migrate " ++ skill_name ++ " --apply".

(** Lines 127-133. *)
Definition check_model (skill_name : pystr) (frontmatter : pyval) (r : report)
  : result report :=
  has <- contains frontmatter "model" ;;
  Ok (when has (fun r => add_critical r (model_error skill_name)) r).

(** [^\d+\.\d+\.\d+] *)
Definition semver_re : regex :=
  rseq [RBol; rplus (RClass CDigit); RChar 46; rplus (RClass CDigit); RChar 46;
        rplus (RClass CDigit)].

(** Lines 135-138. *)
Definition check_version (frontmatter : pyval) (r : report) : result report :=
  has <- contains frontmatter "version" ;;
  if has then
    version <- getitem frontmatter "version" ;;
    Ok (when (negb (matched (re_match NOFLAGS semver_re (py_str version))))
          (fun r => add_warning r "Use semantic versioning (e.g., 1.0.0)") r)
  else Ok r.

(** Lines 140-158. *)
Definition check_tools (frontmatter : pyval) (body : pystr) (r : report) : result report :=
  has <- contains frontmatter "allowed-tools" ;;
  if has then
    tools <- getitem frontmatter "allowed-tools" ;;
    match tools with
    | PStr tools =>
        let tool_list := map strip (split_on 44 tools) in
        let r := fold_left
                   (fun r tool =>
                      when (negb (str_mem tool valid_tools))
                        (fun r => add_warning r ("Unknown tool: '" ++ tool ++ "'")) r)
                   tool_list r in
        Ok (when (str_in "Bash" tools
                  && (match body with [] => false | _ => true end
                      && negb (str_in "validation" (lower body))
                      && negb (str_in "sanitize" (lower body))))
              (fun r => add_warning r "Has Bash access - ensure input validation is documented")
              r)
    | _ => Ok r
    end
  else Ok r.

Definition not_executable (r : report) (scripts : list (pystr * bool)) : report :=
  fold_left
    (fun r script =>
       when (negb (snd script))
         (fun r => add_warning r
                     ("Script not executable: " ++ fst script ++ " (run chmod +x)")) r)
    scripts r.

(** Lines 160-178. *)
Definition check_resources (d : skill_dir) (body : pystr) (r : report) : report :=
  let has_assets := has_assets d || has_templates d in
  let r := when (match body with [] => false | _ => true end
                 && (has_scripts d || has_references d || has_assets)
                 && negb (str_in "{baseDir}" body))
             (fun r => add_warning r
                         "Has resource directories but doesn't use {baseDir} variable") r in
  if has_scripts d
  then not_executable (not_executable r (py_scripts d)) (sh_scripts d)
  else r.

Definition recommended_sections : list pystr :=
  strs ["When to Use"; "Capabilities"; "Examples"; "How to Use"].

(** Lines 180-193. *)
Definition check_structure (body : pystr) (r : report) : report :=
  match body with
  | [] => r
  | _ =>
      let r := when (negb (str_in "## " body))
                 (fun r => add_recommendation r
                             "Add section headings (##) to structure the skill content") r in
      let missing_sections :=
        filter (fun section => negb (str_in section body)) recommended_sections in
      when (match missing_sections with [] => false | _ => true end)
        (fun r => add_recommendation r
                    ("Consider adding sections: " ++ join ", " missing_sections)) r
  end.

(** Lines 72-203. *)
Definition validate_skill (d : skill_dir) : result (pystr * report) :=
  let skill_name := skill_name d in
  p <- parse_skill d ;;
  match p with
  | ParseError parse_error =>
      Ok ("parse_error" : pystr,
          {| critical_errors := [parse_error]; warnings := []; recommendations := [] |})
  | Parsed frontmatter body =>
      let r := check_directory_name skill_name no_findings in
      r <- check_name skill_name frontmatter r ;;
      r <- check_description frontmatter r ;;
      r <- check_model skill_name frontmatter r ;;
      r <- check_version frontmatter r ;;
      r <- check_tools frontmatter body r ;;
      let r := check_resources d body r in
      let r := check_structure body r in
      Ok (status_of r, r)
  end.

End Defs.
End AuditSkills.

(** ** A runtime to compute with

    A concrete [PyRuntime] for running the definitions: the Unicode
    predicates are those of the Latin-1 supplement restricted to what is
    unambiguous (nothing beyond ASCII is a digit or a letter, every code
    point from 161 on is printable), and the YAML loader reads flat
    [key: value] lines with string values, a key without value and an empty
    document as [None]. *)

Definition py_repr_ascii (v : pyval) : pystr :=
  match v with
  | PStr s => s
  | PNone => "null"
  | PBool true => "true"
  | PBool false => "false"
  | PInt z => str_of_Z z
  | _ => "..."
  end.

Fixpoint yaml_pairs (lines : list pystr) : option pydict :=
  match lines with
  | [] => Some []
  | l :: lines' =>
      match split_on 58 l with
      | k :: v :: more =>
          let text := strip (join ":" (v :: more)) in
          match yaml_pairs lines' with
          | Some d => Some ((k, match text with [] => PNone | _ => PStr text end) :: d)
          | None => None
          end
      | _ => None
      end
  end.

Definition flat_yaml (s : pystr) : result pyval :=
  match s with
  | [] => Ok PNone
  | _ =>
      match yaml_pairs (split_on 10 s) with
      | Some d => Ok (PDict d)
      | None => Raise (YAMLError "could not find expected ':'")
      end
  end.

Definition flat_yaml_dump (v : pyval) : pystr :=
  match v with
  | PDict d => flat_map (fun p => fst p ++ ": " ++ py_repr_ascii (snd p) ++ NL) d
  | _ => py_repr_ascii v ++ NL
  end.

Definition demo_runtime : PyRuntime := {|
  unicode_isprintable := fun c => (160 <? c)%N;
  unicode_isalnum := fun _ => false;
  unicode_isdecimal := fun _ => false;
  unicode_tolower := fun c => c;
  unicode_lower := fun c => [c];
  yaml_safe_load := flat_yaml;
  yaml_dump := flat_yaml_dump
|}.

(** ** Predicates of the statements *)

(** A rule is settled on a frontmatter when it leaves it alone and reports
    nothing. *)
Definition settled (rule : pyval -> result (pyval * list pystr)) (d : pydict) : Prop :=
  rule (PDict d) = Ok (PDict d, []).

(** The loop the matcher and type migrations of migrate-hook.py share: every
    hook group of the selected events. *)
Definition over_groups (select : pystr -> bool)
    (f : pystr -> nat -> pyval -> result (pyval * list pystr)) (hooks_config : pyval)
  : result (pyval * list pystr) :=
  has <- contains hooks_config "hooks" ;;
  if negb has then Ok (hooks_config, []) else
  hooks <- getitem hooks_config "hooks" ;;
  events <- items hooks ;;
  '(events, changes) <-
    MigrateHook.for_items
      (fun event_name event_hooks =>
         if select event_name then
           hook_configs <- iterate event_hooks ;;
           '(hook_configs, changes) <-
             MigrateHook.for_enumerate (f event_name) 0 hook_configs ;;
           Ok (MigrateHook.rebuild event_hooks hook_configs, changes)
         else Ok (event_hooks, []))
      events ;;
  hooks_config <- setitem hooks_config "hooks" (PDict events) ;;
  Ok (hooks_config, changes).

(** The hook group [i] of event [ev]. *)
Definition hook_group (hooks_config : pyval) (ev : pystr) (i : nat) : option pyval :=
  match hooks_config with
  | PDict c =>
      match dict_get c "hooks" with
      | Some (PDict events) =>
          match dict_get events ev with
          | Some (PList hook_configs) => nth_error hook_configs i
          | _ => None
          end
      | _ => None
      end
  | _ => None
  end.

(** The hook item [j] of the hook group [i] of event [ev]. *)
Definition hook_item (hooks_config : pyval) (ev : pystr) (i j : nat) : option pyval :=
  match hook_group hooks_config ev i with
  | Some (PDict g) =>
      match dict_get g "hooks" with
      | Some (PList hook_items) => nth_error hook_items j
      | _ => None
      end
  | _ => None
  end.

(** A hook item of the hooks file format: an object whose [command], when
    there is one, is a string. *)
Definition item_ok (hook_item : pyval) : bool :=
  match hook_item with
  | PDict h =>
      match dict_get h "command" with
      | Some c => isinstance_str c
      | None => true
      end
  | _ => false
  end.

(** A hook group: an object whose [matcher], when there is one, is falsy or
    a string, and whose [hooks], when there are some, is a list of items. *)
Definition group_ok (hook_config : pyval) : bool :=
  match hook_config with
  | PDict g =>
      match dict_get g "matcher" with
      | Some m => negb (truthy m) || isinstance_str m
      | None => true
      end
      && match dict_get g "hooks" with
         | Some (PList hook_items) => forallb item_ok hook_items
         | Some _ => false
         | None => true
         end
  | _ => false
  end.

Definition event_ok (ev : pystr * pyval) : bool :=
  match snd ev with
  | PList hook_configs => forallb group_ok hook_configs
  | _ => false
  end.

(** The hooks file format: an object whose [hooks] maps event names to lists
    of hook groups. *)
Definition well_shaped (hooks_config : pyval) : bool :=
  match hooks_config with
  | PDict c =>
      match dict_get c "hooks" with
      | Some (PDict events) => forallb event_ok events
      | _ => false
      end
  | _ => false
  end.

Definition is_warning (m : pystr) : bool := startswith m "WARNING:".

(** The [type] of a hook item as line 123 reads it. *)
Definition type_of (h : pydict) : pyval :=
  match dict_get h "type" with Some t => t | None => PStr "" end.

(** [{event_name} hook #{i+1}, item #{j+1}] *)
Definition where_ (ev : pystr) (i j : nat) : pystr :=
  ev ++ " " ++ MigrateHook.hook_no i ++ ", " ++ MigrateHook.item_no j.

(** A hook item on which line 103 is reached: a command that starts with
    [bash ] or [sh ] and whose second word starts with neither [/] nor
    [${]. *)
Definition relative_script (h : pydict) : Prop :=
  exists command script_path,
    dict_get h "type" = Some (PStr "command")
    /\ dict_get h "command" = Some (PStr command)
    /\ (startswith command "bash " || startswith command "sh ") = true
    /\ nth_error (split_ws command) 1 = Some script_path
    /\ startswith script_path "/" = false
    /\ startswith script_path "${" = false.

(** Values that have a length and support [in]. *)
Definition is_sized (v : pyval) : bool :=
  match v with
  | PStr _ | PList _ | PDict _ => true
  | _ => false
  end.

(** The field [k] of a frontmatter is absent or satisfies [ok]. *)
Definition field (d : pydict) (k : pystr) (ok : pyval -> bool) : bool :=
  match dict_get d k with
  | Some v => ok v
  | None => true
  end.

(** A command frontmatter whose fields have the types the validators
    apply [len], [startswith] and [in] to. *)
Definition typed_command (d : pydict) : bool :=
  field d "description" is_sized
  && field d "model" isinstance_str
  && field d "allowed-tools" is_sized.

(** A skill frontmatter whose description is text. *)
Definition typed_skill (d : pydict) : bool :=
  field d "description" isinstance_str.

(** The character class of [name_re]. *)
Definition name_class : cclass := CRanges [(97, 122); (48, 57); (45, 45)]%N.

(** A code point that the naming pattern refuses: an ASCII capital, a space,
    an underscore, or anything beyond ASCII. *)
Definition offending (c : N) : bool :=
  (ascii_isupper c || (c =? 32) || (c =? 95) || (128 <=? c))%N.

Definition EVAL_ARGUMENTS : pystr := "eval $ARGUMENTS".

Definition FENCE : pystr := [96; 96; 96]%N.

Definition no_backquote (s : pystr) : bool := forallb (fun c => negb (c =? 96)%N) s.

(** The state of the matcher after an opening fence and its newline. *)
Definition block_start (x : pystr) : mstate :=
  {| prev := Some 10%N; rest := x; groups := [] |}.

(** [body] has the fenced shell block [code], before which there is no
    backquote and in which there is none. *)
Definition fenced (body code : pystr) : Prop :=
  exists pre (lang : pystr) post,
    body = pre ++ FENCE ++ lang ++ NL ++ code ++ FENCE ++ post
    /\ (lang = "bash" \/ lang = "sh")
    /\ no_backquote pre = true /\ no_backquote code = true.

Section Statements.

Context {rt : PyRuntime}.

(** The finding of lines 122-125 of audit-commands.py. *)
Definition short_alias_finding (alias : pystr) : pystr :=
  "CRITICAL: Commands cannot use short alias '" ++ alias ++ "'. "
  ++ "Use version alias like 'claude-haiku-4-5' or full ID".

(** The finding of line 35 of validate-command.py. *)
Definition invalid_filename (name : pystr) : pystr :=
  "Invalid filename '" ++ name ++ ".md': must be lowercase letters, numbers, and hyphens only".

(** The version alias the finding of validate-command.py suggests. *)
Definition suggested_version (alias : pystr) : pystr :=
  match find (fun p => str_eqb (fst p) alias) ValidateCommand.version_alias_map with
  | Some p => snd p
  | None => "claude-sonnet-4-5"
  end.

(** The first of the critical patterns of validate-command.py. *)
Definition eval_finding : pystr :=
  "SECURITY ERROR: Using eval with arguments enables arbitrary code execution".

(** The change of line 69 of migrate-skill.py. *)
Definition removed_model (old_value : pyval) : pystr :=
  "CRITICAL: Removed 'model' field with value '" ++ py_str old_value
  ++ "' (skills don't support model specification)".

(** The [allowed-tools] of the frontmatter name [Bash], as line 162 of
    audit-commands.py and line 164 of validate-command.py test it. *)
Definition declares_bash (d : pydict) : Prop :=
  contains (match dict_get d "allowed-tools" with Some v => v | None => PStr "" end) "Bash"
  = Ok true.

(** A file that validate-command.py reads and decodes to the mapping [d],
    with [body] after the frontmatter. *)
Definition decodes (f : file) (d : pydict) (body : pystr) : Prop :=
  file_exists f = true
  /\ exists content m,
       file_read f = inl content
       /\ re_match DOTALL frontmatter_re content = Some m
       /\ yaml_safe_load (nth 0 (groups m) []) = Ok (PDict d)
       /\ rest m = body.

(** The value of [model] that the migration leaves for a short alias. *)
Definition migrated_model (alias : pystr) : option pyval :=
  if str_eqb alias "inherit" then None
  else Some (PStr ("claude-" ++ alias ++ "-4-5")).

(** A file the audit can analyze, and one whose metadata block it cannot
    read. *)
Definition analyzable (f : file) : Prop :=
  exists d body,
    AuditCommands.parse_command f = Ok (AuditCommands.Parsed (PDict d) body)
    /\ typed_command d = true.

Definition malformed (f : file) : Prop :=
  exists e, AuditCommands.parse_command f = Ok (AuditCommands.ParseError e).

End Statements.

(** * Concrete artifacts *)

Definition command_md (path stem : pystr) (lines : list pystr) : file :=
  {| file_path := path; file_stem := stem; file_exists := true;
     file_read := inl (flat_map (fun l => l ++ NL) lines) |}.

(** A command with [model: haiku]. *)
Definition command_haiku : file :=
  command_md "commands/fix-bug.md" "fix-bug"
    [ "---" : pystr; "description: fix bug" : pystr; "model: haiku" : pystr; "---" : pystr;
      "Fix the bug." : pystr ].

Definition command_haiku_frontmatter : pydict :=
  [kv "description" (PStr "fix bug"); kv "model" (PStr "haiku")].

(** A command that evaluates its arguments in a shell block, with and
    without [Bash] among its allowed tools. *)
Definition eval_body : list pystr :=
  [ "Run it." : pystr; FENCE ++ "bash"; "eval $ARGUMENTS" : pystr; FENCE ].

Definition command_eval_bash : file :=
  command_md "commands/run-it.md" "run-it"
    ([ "---" : pystr; "description: run the given command" : pystr;
       "allowed-tools: Read, Bash" : pystr; "---" : pystr ] ++ eval_body).

Definition command_eval_bash_frontmatter : pydict :=
  [kv "description" (PStr "run the given command"); kv "allowed-tools" (PStr "Read, Bash")].

Definition command_eval_no_bash : file :=
  command_md "commands/run-it.md" "run-it"
    ([ "---" : pystr; "description: run the given command" : pystr; "---" : pystr ]
       ++ eval_body).

(** A command whose file name has a capital and an underscore. *)
Definition command_bad_name : file :=
  command_md "commands/Fix_Bug.md" "Fix_Bug"
    [ "---" : pystr; "description: fix the reported bug" : pystr; "---" : pystr;
      "Fix the bug." : pystr ].

(** A skill with a [model] field. *)
Definition skill_with_model : skill_dir :=
  {| skill_path := "skills/building-reports";
     skill_name := "building-reports";
     skill_md_exists := true;
     skill_md_read :=
       inl (flat_map (fun l => l ++ NL)
              [ "---" : pystr; "name: building-reports" : pystr;
                "description: Use when the user asks for a weekly report" : pystr;
                "model: sonnet" : pystr; "---" : pystr; "## When to Use" : pystr ]);
     has_scripts := false; has_references := false; has_assets := false;
     has_templates := false; py_scripts := []; sh_scripts := [] |}.

Definition skill_with_model_frontmatter : pydict :=
  [kv "name" (PStr "building-reports");
   kv "description" (PStr "Use when the user asks for a weekly report");
   kv "model" (PStr "sonnet")].

(** A hooks configuration: a [PreToolUse] group without matcher, a [Stop]
    group with an empty matcher and an item that has both payload fields and
    no valid type, and a [Stop] group that keeps a matcher. *)
Definition hooks_example : pyval :=
  PDict [kv "hooks" (PDict
    [kv "PreToolUse" (PList
       [PDict [kv "hooks" (PList
          [PDict [kv "type" (PStr "command"); kv "command" (PStr "bash scripts/lint.sh")]])]]);
     kv "Stop" (PList
       [PDict [kv "matcher" (PStr "");
               kv "hooks" (PList
                 [PDict [kv "type" (PStr "shell"); kv "command" (PStr "echo done");
                         kv "prompt" (PStr "Say done")]])];
        PDict [kv "matcher" (PStr "Bash")]])])].

(** A command file with an empty metadata block, and one with none. *)
Definition empty_frontmatter_file : file :=
  {| file_path := "commands/notes.md";
     file_stem := "notes";
     file_exists := true;
     file_read := inl ("---" ++ NL ++ NL ++ "---" ++ NL ++ "Take notes." ++ NL) |}.

Definition no_frontmatter_file : file :=
  {| file_path := "commands/list-notes.md";
     file_stem := "list-notes";
     file_exists := true;
     file_read := inl ("List the notes." ++ NL) |}.

(** * More of the scripts *)

(** The event names of a hooks configuration, in order. *)
Definition event_names (hooks_config : pyval) : list pystr :=
  match hooks_config with
  | PDict c =>
      match dict_get c "hooks" with
      | Some (PDict events) => map fst events
      | _ => []
      end
  | _ => []
  end.

(** The message of line 163 of migrate-hook.py. *)
Definition removed_event (event_name : pystr) : pystr :=
  "REMOVED: Invalid event '" ++ event_name ++ "'".

(** A change that line 136, 140 or 143 of migrate-hook.py records, as
    [show_migration_diff] and [main] recognise it. *)
Definition is_error (m : pystr) : bool := startswith m "ERROR:".

(** ** validate-command.py: [main] *)

Module ValidateCommandMain.
Section Defs.

Context {rt : PyRuntime}.

(** Lines 220-232: the findings sorted into critical errors, warnings and
    recommendations, each in the order of the findings. *)
Fixpoint classify (errors : list pystr) : list pystr * list pystr * list pystr :=
  match errors with
  | [] => ([], [], [])
  | error :: errors' =>
      let '(critical_errors, warnings, recommendations) := classify errors' in
      if startswith error "Security Warning:"
      then (error :: critical_errors, warnings, recommendations)
      else if startswith error "Warning:"
      then (critical_errors, error :: warnings, recommendations)
      else if startswith error "Recommendation:"
      then (critical_errors, warnings, error :: recommendations)
      else (error :: critical_errors, warnings, recommendations)
  end.

(** Lines 211-252: the exit status of the script run on one file. *)
Definition main (command_file : file) : result nat :=
  '(is_valid, errors) <- ValidateCommand.validate_command command_file ;;
  if is_valid && match errors with [] => true | _ => false end then Ok 0
  else
    let '(critical_errors, warnings, recommendations) := classify errors in
    Ok (match critical_errors with [] => 0 | _ => 1 end).

End Defs.
End ValidateCommandMain.

(** ** audit-skills.py: [main] *)

Module AuditSkillsMain.
Section Defs.

Context {rt : PyRuntime}.

(** Lines 323-326: one entry per skill directory, in order; line 40 returns
    the directories sorted and without repeats. *)
Definition audit (skill_dirs : list skill_dir)
  : result (list (skill_dir * (pystr * report))) :=
  mapM (fun skill_dir =>
          res <- AuditSkills.validate_skill skill_dir ;;
          Ok (skill_dir, res))
       skill_dirs.

(** Lines 332-333. *)
Definition exit_code (results : list (skill_dir * (pystr * report))) : nat :=
  if existsb (fun e => str_mem (fst (snd e)) (strs ["errors"; "parse_error"])) results
  then 1 else 0.

End Defs.
End AuditSkillsMain.

(** ** Predicates of the further statements *)

Section MoreStatements.

Context {rt : PyRuntime}.

(** One or more characters that [\d] matches. *)
Definition digits (s : pystr) : Prop :=
  s <> [] /\ forallb (class_match CDigit) s = true.

(** A text that starts like a semantic version: digits, a dot, digits, a
    dot, digits. *)
Definition semver_like (s : pystr) : Prop :=
  exists major minor patch more,
    digits major /\ digits minor /\ digits patch
    /\ s = major ++ "." ++ minor ++ "." ++ patch ++ more.

End MoreStatements.

(** A command or skill file: the opening delimiter, the metadata [y], the
    closing delimiter with what follows it up to and including the last
    newline of its white space ([w1] and the newline), and the rest
    ([w2 ++ tail]). *)
Definition document (y w1 w2 tail : pystr) : pystr :=
  "---" ++ NL ++ y ++ NL ++ "---" ++ w1 ++ NL ++ w2 ++ tail.

(** The text starts with a character that is not white space. *)
Definition starts_dark (s : pystr) : bool :=
  match s with
  | c :: _ => negb (isspace c)
  | [] => false
  end.

(** The text is empty or starts with a character that is not white space. *)
Definition no_blank_start (s : pystr) : bool :=
  match s with
  | c :: _ => negb (isspace c)
  | [] => true
  end.

(** White space without a newline. *)
Definition inline_blanks (w : pystr) : bool :=
  forallb (fun c => isspace c && negb (c =? 10)%N) w.

(** No newline of [y] is followed by three dashes, also when [y] is
    followed by the closing delimiter. *)
Definition no_delimiter_inside (y : pystr) : bool :=
  negb (str_in (NL ++ "---") (y ++ NL ++ "--")).

(** ** More artifacts *)

(** A command frontmatter with a list as argument hint and the old [tools]
    field. *)
Definition command_old_frontmatter : pydict :=
  [kv "description" (PStr "fix bug"); kv "model" (PStr "haiku");
   kv "argument-hint" (PList [PStr "file"; PStr "mode"]);
   kv "tools" (PStr "Read")].

(** The command of [command_haiku] with a blank line after the closing
    delimiter. *)
Definition command_blank_line : file :=
  command_md "commands/fix-bug.md" "fix-bug"
    [ "---" : pystr; "description: fix bug" : pystr; "model: haiku" : pystr; "---" : pystr;
      [] ; "Fix the bug." : pystr ].

(** The command of [command_haiku] as the migration writes it. *)
Definition command_migrated_frontmatter : pydict :=
  [kv "description" (PStr "fix bug"); kv "model" (PStr "claude-haiku-4-5")].

Definition command_migrated : file :=
  command_md "commands/fix-bug.md" "fix-bug"
    [ "---" : pystr; "description: fix bug" : pystr; "model: claude-haiku-4-5" : pystr;
      "---" : pystr; "Fix the bug." : pystr ].

(** A skill without a [model] field, whose name is no gerund. *)
Definition skill_plain : skill_dir :=
  {| skill_path := "skills/report";
     skill_name := "report";
     skill_md_exists := true;
     skill_md_read :=
       inl (flat_map (fun l => l ++ NL)
              [ "---" : pystr; "name: report" : pystr;
                "description: Writes the weekly report" : pystr;
                "version: 1.2.0-beta" : pystr;
                "---" : pystr; "## Capabilities" : pystr ]);
     has_scripts := false; has_references := false; has_assets := false;
     has_templates := false; py_scripts := []; sh_scripts := [] |}.

Definition skill_plain_frontmatter : pydict :=
  [kv "name" (PStr "report");
   kv "description" (PStr "Writes the weekly report");
   kv "version" (PStr "1.2.0-beta")].

(** A hooks configuration on which the run of the migrations returns: an
    event with an invalid name, a [PreToolUse] group without matcher whose
    item has a type but not the field the type names, and a [Stop] group
    with a matcher of white space. *)
Definition hooks_returning : pyval :=
  PDict [kv "hooks" (PDict
    [kv "OnSave" (PList [PDict [kv "matcher" (PStr "*")]]);
     kv "PreToolUse" (PList
       [PDict [kv "hooks" (PList
          [PDict [kv "type" (PStr "command"); kv "prompt" (PStr "Check the call")]])]]);
     kv "Stop" (PList
       [PDict [kv "matcher" (PStr "  ");
               kv "hooks" (PList
                 [PDict [kv "type" (PStr "shell"); kv "command" (PStr "echo done")]])]])])].

(** ** Further predicates of the statements *)

(** A critical finding of a security scan: audit-commands.py writes
    [SECURITY: ...] (line 171), validate-command.py [SECURITY ERROR: ...]
    (lines 172-176). *)
Definition security_finding (m : pystr) : bool := startswith m "SECURITY".

(** All the findings of a report. *)
Definition findings (r : report) : list pystr :=
  critical_errors r ++ warnings r ++ recommendations r.

(** None of the findings is a critical finding of a security scan. *)
Definition no_security_finding (l : list pystr) : Prop :=
  forall m, In m l -> security_finding m = false.

(** A path whose last component is [x.md] for some non-empty [x], as the
    [*.md] files of a commands directory are, but for the file [.md]. *)
Definition md_path (p : pystr) : Prop :=
  exists dir x : pystr,
    p = dir ++ x ++ ".md"
    /\ x <> []
    /\ str_in "/" x = false
    /\ (dir = [] \/ exists dir' : pystr, dir = dir' ++ "/").

Section FurtherStatements.

Context {rt : PyRuntime}.

(** [code] is one of the blocks that line 167 of validate-command.py
    extracts from [body]. *)
Definition in_shell_block (body code : pystr) : Prop :=
  In code (re_findall DOTALL ValidateCommand.bash_block_re body).

(** The test of line 162 of audit-commands.py and line 164 of
    validate-command.py is evaluated and fails: [allowed-tools] is absent,
    or it is a text, list or mapping without [Bash]. *)
Definition lacks_bash (d : pydict) : Prop :=
  contains (match dict_get d "allowed-tools" with Some v => v | None => PStr "" end) "Bash"
  = Ok false.

End FurtherStatements.

(** ** Further artifacts *)

(** The command of [command_haiku] with a [description] key without value,
    which YAML decodes to [None]. *)
Definition command_null_description : file :=
  command_md "commands/fix-bug.md" "fix-bug"
    [ "---" : pystr; "description:" : pystr; "model: haiku" : pystr; "---" : pystr;
      "Fix the bug." : pystr ].

Definition command_null_description_frontmatter : pydict :=
  [kv "description" PNone; kv "model" (PStr "haiku")].


(** The skill of [skill_with_model] with a [description] key without
    value. *)
Definition skill_null_description : skill_dir :=
  {| skill_path := "skills/building-reports";
     skill_name := "building-reports";
     skill_md_exists := true;
     skill_md_read :=
       inl (flat_map (fun l => l ++ NL)
              [ "---" : pystr; "name: building-reports" : pystr;
                "description:" : pystr;
                "model: sonnet" : pystr; "---" : pystr; "## When to Use" : pystr ]);
     has_scripts := false; has_references := false; has_assets := false;
     has_templates := false; py_scripts := []; sh_scripts := [] |}.

Definition skill_null_description_frontmatter : pydict :=
  [kv "name" (PStr "building-reports"); kv "description" PNone;
   kv "model" (PStr "sonnet")].


(** A hooks configuration whose only event has an invalid name; its hook
    item runs a script by a relative path. *)
Definition hooks_invalid_event : pyval :=
  PDict [kv "hooks" (PDict
    [kv "OnSave" (PList
       [PDict [kv "hooks" (PList
          [PDict [kv "type" (PStr "command");
                  kv "command" (PStr "bash scripts/lint.sh")]])]])])].

(** The command of [command_haiku] in the file [.md]. *)
Definition command_dot_md : file :=
  command_md "commands/.md" ".md"
    [ "---" : pystr; "description: fix bug" : pystr; "model: haiku" : pystr; "---" : pystr;
      "Fix the bug." : pystr ].

(** A command that declares [Bash] and whose first fence opens a block that
    the next fence, the opening one of the block with the [eval], closes. *)
Definition command_eval_second_block : file :=
  command_md "commands/run-it.md" "run-it"
    [ "---" : pystr; "description: run the given command" : pystr;
      "allowed-tools: Bash" : pystr; "---" : pystr;
      FENCE ++ "sh"; "then close it." : pystr; FENCE ++ "bash";
      "eval $ARGUMENTS" : pystr; FENCE ].

(** * Proofs *)

(** ** Strings and dicts *)

Lemma str_eqb_eq (a b : pystr) : str_eqb a b = true <-> a = b.
Proof.
  revert b; induction a as [|x a IH]; intros [|y b]; simpl; split; intro H;
    try reflexivity; try discriminate.
  - apply andb_true_iff in H as [H1 H2]. apply N.eqb_eq in H1. apply IH in H2. congruence.
  - injection H as -> ->. rewrite N.eqb_refl. simpl. now apply IH.
Qed.

#[global] Arguments pystr_of_string : simpl never.
#[global] Arguments str_eqb : simpl never.
#[global] Arguments startswith : simpl never.
#[global] Arguments endswith : simpl never.
#[global] Arguments str_in : simpl never.
#[global] Arguments str_mem : simpl never.
#[global] Arguments strip : simpl never.
#[global] Arguments split_ws : simpl never.
#[global] Arguments split_on : simpl never.
#[global] Arguments str_of_nat : simpl never.
#[global] Arguments re_match : simpl never.
#[global] Arguments re_search : simpl never.
#[global] Arguments re_findall : simpl never.
#[global] Arguments in_strs : simpl never.
#[global] Arguments lookup_alias : simpl never.
#[global] Arguments eq_str : simpl never.

Lemma str_eqb_refl (a : pystr) : str_eqb a a = true.
Proof. now apply str_eqb_eq. Qed.

Lemma str_eqb_neq (a b : pystr) : str_eqb a b = false <-> a <> b.
Proof.
  split; intro H.
  - intro E. apply str_eqb_eq in E. congruence.
  - destruct (str_eqb a b) eqn:E; [|reflexivity]. apply str_eqb_eq in E. contradiction.
Qed.

Lemma str_eqb_sym (a b : pystr) : str_eqb a b = str_eqb b a.
Proof.
  destruct (str_eqb a b) eqn:E.
  - apply str_eqb_eq in E. subst. symmetry. apply str_eqb_refl.
  - symmetry. apply str_eqb_neq. apply str_eqb_neq in E. congruence.
Qed.

Lemma dict_get_set_eq (d : pydict) k v : dict_get (dict_set d k v) k = Some v.
Proof.
  induction d as [|[k' v'] d IH]; simpl.
  - now rewrite str_eqb_refl.
  - destruct (str_eqb k' k) eqn:E; simpl; rewrite E; auto.
Qed.

Lemma dict_get_set_neq (d : pydict) k k' v :
  k' <> k -> dict_get (dict_set d k v) k' = dict_get d k'.
Proof.
  intro N. induction d as [|[k0 v0] d IH]; simpl.
  - assert (str_eqb k k' = false) as -> by (apply str_eqb_neq; congruence). reflexivity.
  - destruct (str_eqb k0 k) eqn:E; simpl.
    + apply str_eqb_eq in E. subst k0.
      assert (str_eqb k k' = false) as -> by (apply str_eqb_neq; congruence). reflexivity.
    + now rewrite IH.
Qed.

Lemma dict_get_del_eq (d : pydict) k : dict_get (dict_del d k) k = None.
Proof.
  induction d as [|[k0 v0] d IH]; simpl; auto.
  destruct (str_eqb k0 k) eqn:E; simpl; auto. now rewrite E.
Qed.

Lemma dict_get_del_neq (d : pydict) k k' :
  k' <> k -> dict_get (dict_del d k) k' = dict_get d k'.
Proof.
  intro N. induction d as [|[k0 v0] d IH]; simpl; auto.
  destruct (str_eqb k0 k) eqn:E; simpl.
  - apply str_eqb_eq in E. subst k0.
    assert (str_eqb k k' = false) as -> by (apply str_eqb_neq; congruence). exact IH.
  - now rewrite IH.
Qed.

Lemma dict_del_absent (d : pydict) k : dict_get d k = None -> dict_del d k = d.
Proof.
  induction d as [|[k0 v0] d IH]; simpl; auto.
  destruct (str_eqb k0 k) eqn:E; [discriminate|]. intro H. now rewrite IH.
Qed.

Lemma dict_has_true (d : pydict) k : dict_has d k = true <-> exists v, dict_get d k = Some v.
Proof.
  unfold dict_has. destruct (dict_get d k); split; intro H; eauto; try discriminate.
  destruct H. discriminate.
Qed.

Lemma dict_has_false (d : pydict) k : dict_has d k = false <-> dict_get d k = None.
Proof.
  unfold dict_has. destruct (dict_get d k); split; intro H; auto; discriminate.
Qed.

(** One step of evaluation of the monadic code: the primitives on a value
    whose constructor is known, and nothing else. *)
Ltac py_step :=
  cbv beta iota delta [bind contains getitem setitem delitem get_default items
                       iterate py_len as_str isinstance_str isinstance_list dict_has
                       negb fst snd].

Ltac py_step_in H :=
  cbv beta iota delta [bind contains getitem setitem delitem get_default items
                       iterate py_len as_str isinstance_str isinstance_list dict_has
                       negb fst snd] in H.

Ltac str_neq := let H := fresh in intro H; vm_compute in H; discriminate H.

Lemma bind_ok {A B} (m : result A) (k : A -> result B) b :
  bind m k = Ok b -> exists a, m = Ok a /\ k a = Ok b.
Proof. destruct m; simpl; intro H; [eauto | discriminate]. Qed.

(** ** migrate-command.py: each rule settles its own keys *)

Section MigrateCommandFacts.

Context {rt : PyRuntime}.

Import MigrateCommand.


Lemma short_alias_settled_ext d d' :
  dict_get d "model" = dict_get d' "model" ->
  settled migrate_short_alias_to_version_alias d ->
  settled migrate_short_alias_to_version_alias d'.
Proof.
  unfold settled, migrate_short_alias_to_version_alias, dict_has. py_step.
  intros E. rewrite <- E. unfold dict_has.
  destruct (dict_get d "model") as [model|]; py_step; [|intros _; reflexivity].
  destruct (lookup_alias model alias_map) as [[new|]|e]; py_step; try discriminate.
  destruct (eq_str model "inherit"); py_step; [|intros _; reflexivity].
  unfold dict_has. destruct (dict_get d "model"); py_step; discriminate.
Qed.

Lemma lookup_alias_settles model new :
  lookup_alias model alias_map = Ok (Some new) ->
  lookup_alias (PStr new) alias_map = Ok None /\ eq_str (PStr new) "inherit" = false.
Proof.
  unfold lookup_alias at 1.
  destruct model as [| | |s| |]; try discriminate.
  unfold alias_map, find, fst, snd.
  destruct (str_eqb "haiku" s); [intro H; injection H as <-; split; reflexivity|].
  destruct (str_eqb "sonnet" s); [intro H; injection H as <-; split; reflexivity|].
  destruct (str_eqb "opus" s); [intro H; injection H as <-; split; reflexivity|].
  discriminate.
Qed.

Lemma short_alias_out d f' ch :
  migrate_short_alias_to_version_alias (PDict d) = Ok (f', ch) ->
  exists d1, f' = PDict d1
    /\ settled migrate_short_alias_to_version_alias d1
    /\ (forall k : pystr, k <> "model" -> dict_get d1 k = dict_get d k).
Proof.
  intro H. unfold migrate_short_alias_to_version_alias in H. py_step_in H.
  destruct (dict_get d "model") as [model|] eqn:G; py_step_in H.
  - destruct (lookup_alias model alias_map) as [[new|]|e] eqn:L; py_step_in H;
      try discriminate.
    + injection H as <- <-. eexists. split; [reflexivity|]. split.
      * unfold settled, migrate_short_alias_to_version_alias. py_step.
        rewrite dict_get_set_eq. py_step.
        destruct (lookup_alias_settles _ L) as [-> ->]. reflexivity.
      * intros k N. now apply dict_get_set_neq.
    + destruct (eq_str model "inherit") eqn:I; py_step_in H.
      * injection H as <- <-.
        eexists. split; [reflexivity|]. split.
        -- unfold settled, migrate_short_alias_to_version_alias. py_step.
           now rewrite dict_get_del_eq.
        -- intros k N. now apply dict_get_del_neq.
      * injection H as <- <-. eexists. split; [reflexivity|]. split.
        -- unfold settled, migrate_short_alias_to_version_alias. py_step.
           rewrite G. py_step. rewrite L. py_step. now rewrite I.
        -- reflexivity.
  - injection H as <- <-. eexists. split; [reflexivity|]. split.
    + unfold settled, migrate_short_alias_to_version_alias. py_step.
      now rewrite G.
    + reflexivity.
Qed.

Lemma argument_hint_settled_ext d d' :
  dict_get d "argument-hint" = dict_get d' "argument-hint" ->
  settled migrate_argument_hint_format d ->
  settled migrate_argument_hint_format d'.
Proof.
  unfold settled, migrate_argument_hint_format. py_step.
  intros E. rewrite <- E.
  destruct (dict_get d "argument-hint") as [hint|]; py_step; [|intros _; reflexivity].
  destruct hint; py_step;
    match goal with
    | |- context [startswith ?s ?p] => destruct (startswith s p); py_step
    end; try discriminate; intros _; reflexivity.
Qed.

Lemma argument_hint_out d f' ch :
  migrate_argument_hint_format (PDict d) = Ok (f', ch) ->
  exists d1, f' = PDict d1
    /\ settled migrate_argument_hint_format d1
    /\ (forall k : pystr, k <> "argument-hint" -> dict_get d1 k = dict_get d k).
Proof.
  assert (S : forall d0 (s : pystr), startswith s "[" = true ->
              dict_get d0 "argument-hint" = Some (PStr s) ->
              settled migrate_argument_hint_format d0).
  { intros d0 s Hs G. unfold settled, migrate_argument_hint_format. py_step.
    rewrite G. py_step. unfold py_str. now rewrite Hs. }
  intro H. unfold migrate_argument_hint_format in H. py_step_in H.
  destruct (dict_get d "argument-hint") as [hint|] eqn:G; py_step_in H.
  - destruct hint; py_step_in H;
      match type of H with
      | context [startswith ?s ?p] => destruct (startswith s p) eqn:P; py_step_in H
      end; injection H as <- <-; eexists; (split; [reflexivity|]); split;
      try (intros k N; rewrite ?dict_get_set_neq by exact N; reflexivity);
      try (eapply S; [|apply dict_get_set_eq]; first [exact P | reflexivity]).
    all: try (unfold settled, migrate_argument_hint_format; py_step;
              rewrite G; py_step; rewrite ?P; reflexivity).
  - injection H as <- <-. eexists. split; [reflexivity|]. split.
    + unfold settled, migrate_argument_hint_format. py_step. now rewrite G.
    + reflexivity.
Qed.

Lemma tools_settled_ext d d' :
  dict_has d "tools" = dict_has d' "tools" ->
  dict_has d "allowed-tools" = dict_has d' "allowed-tools" ->
  settled migrate_tools_field_name d ->
  settled migrate_tools_field_name d'.
Proof.
  unfold settled, migrate_tools_field_name. intros E1 E2. unfold contains.
  rewrite <- E1, <- E2.
  destruct (dict_has d "tools"), (dict_has d "allowed-tools"); py_step;
    try (intros _; reflexivity).
  destruct (dict_get d "tools"); py_step; [|discriminate].
  destruct (dict_get (dict_set d "allowed-tools" p) "tools"); discriminate.
Qed.

Lemma tools_out d f' ch :
  migrate_tools_field_name (PDict d) = Ok (f', ch) ->
  exists d1, f' = PDict d1
    /\ settled migrate_tools_field_name d1
    /\ (forall k : pystr, k <> "tools" -> k <> "allowed-tools" ->
        dict_get d1 k = dict_get d k).
Proof.
  intro H. unfold migrate_tools_field_name in H. py_step_in H.
  destruct (dict_get d "tools") as [tools|] eqn:T; py_step_in H.
  - destruct (dict_get d "allowed-tools") as [allowed|] eqn:A; py_step_in H.
    + injection H as <- <-. eexists. split; [reflexivity|]. split; [|reflexivity].
      unfold settled, migrate_tools_field_name. py_step. rewrite T, A. reflexivity.
    + rewrite dict_get_set_neq in H by str_neq. rewrite T in H.
      injection H as <- <-. eexists. split; [reflexivity|]. split.
      * unfold settled, migrate_tools_field_name. py_step.
        rewrite dict_get_del_eq. reflexivity.
      * intros k N1 N2. rewrite dict_get_del_neq by exact N1.
        now apply dict_get_set_neq.
  - injection H as <- <-. eexists. split; [reflexivity|]. split; [|reflexivity].
    unfold settled, migrate_tools_field_name. py_step. rewrite T. reflexivity.
Qed.

(** A rule that returns on a frontmatter that is not a mapping found none of
    its keys there and left it alone. *)
Lemma short_alias_not_dict f f' ch :
  (forall d, f <> PDict d) ->
  migrate_short_alias_to_version_alias f = Ok (f', ch) -> f' = f /\ ch = [].
Proof.
  intros ND H. unfold migrate_short_alias_to_version_alias in H.
  destruct f; py_step_in H; try discriminate; try (now elim (ND d));
    match type of H with
    | context [if ?c then _ else _] => destruct c; py_step_in H
    end; try discriminate; injection H as <- <-; auto.
Qed.

Lemma argument_hint_not_dict f f' ch :
  (forall d, f <> PDict d) ->
  migrate_argument_hint_format f = Ok (f', ch) -> f' = f /\ ch = [].
Proof.
  intros ND H. unfold migrate_argument_hint_format in H.
  destruct f; py_step_in H; try discriminate; try (now elim (ND d));
    match type of H with
    | context [if ?c then _ else _] => destruct c; py_step_in H
    end; try discriminate; injection H as <- <-; auto.
Qed.

Lemma tools_not_dict f f' ch :
  (forall d, f <> PDict d) ->
  migrate_tools_field_name f = Ok (f', ch) -> f' = f /\ ch = [].
Proof.
  intros ND H. unfold migrate_tools_field_name in H.
  destruct f; py_step_in H; try discriminate; try (now elim (ND d));
    repeat match type of H with
    | context [if ?c then _ else _] => destruct c; py_step_in H
    end; try discriminate; injection H as <- <-; auto.
Qed.

Lemma apply_all_settled d :
  settled migrate_short_alias_to_version_alias d ->
  settled migrate_argument_hint_format d ->
  settled migrate_tools_field_name d ->
  apply_all_migrations (PDict d) = Ok (PDict d, []).
Proof.
  unfold settled, apply_all_migrations. intros S1 S2 S3.
  rewrite S1. py_step. rewrite S2. py_step. rewrite S3. reflexivity.
Qed.

Lemma apply_all_idempotent f f' changes :
  apply_all_migrations f = Ok (f', changes) ->
  apply_all_migrations f' = Ok (f', []).
Proof.
  intro H. unfold apply_all_migrations in H.
  apply bind_ok in H as ([f1 c1] & H1 & H).
  apply bind_ok in H as ([f2 c2] & H2 & H).
  apply bind_ok in H as ([f3 c3] & H3 & H).
  injection H as <- <-.
  assert (D : (exists d, f = PDict d) \/ (forall d, f <> PDict d)).
  { destruct f; try (right; intros ? ?; discriminate). left. eauto. }
  destruct D as [[d ->] | ND].
  - apply short_alias_out in H1 as (d1 & -> & S1 & F1).
    apply argument_hint_out in H2 as (d2 & -> & S2 & F2).
    apply tools_out in H3 as (d3 & -> & S3 & F3).
    apply apply_all_settled; [| |exact S3].
    + apply (short_alias_settled_ext (d := d1)); [|exact S1].
      rewrite F3, F2 by str_neq. reflexivity.
    + apply (argument_hint_settled_ext (d := d2)); [|exact S2].
      rewrite F3 by str_neq. reflexivity.
  - destruct (short_alias_not_dict ND H1) as [-> ->].
    destruct (argument_hint_not_dict ND H2) as [-> ->].
    destruct (tools_not_dict ND H3) as [-> ->].
    unfold apply_all_migrations. rewrite H1. py_step. rewrite H2. py_step.
    rewrite H3. reflexivity.
Qed.

End MigrateCommandFacts.

(** ** migrate-hook.py: loops *)

Section HookLoops.

Import MigrateHook.

Lemma dict_set_set (d : pydict) k v w : dict_set (dict_set d k v) k w = dict_set d k w.
Proof.
  induction d as [|[k0 v0] d IH]; simpl.
  - now rewrite str_eqb_refl.
  - destruct (str_eqb k0 k) eqn:E; simpl; rewrite E; [reflexivity|]. now rewrite IH.
Qed.

Lemma dict_set_same (d : pydict) k v : dict_get d k = Some v -> dict_set d k v = d.
Proof.
  induction d as [|[k0 v0] d IH]; simpl; [discriminate|].
  destruct (str_eqb k0 k) eqn:E.
  - intro H. injection H as ->. reflexivity.
  - intro H. now rewrite IH.
Qed.

Variable g : list pystr -> list pystr.
Hypothesis g_nil : g [] = [].
Hypothesis g_app : forall a b, g (a ++ b) = g a ++ g b.

Lemma for_enumerate_again f :
  (forall i x x' c, f i x = Ok (x', c) -> f i x' = Ok (x', g c)) ->
  forall l i l' cs,
    for_enumerate f i l = Ok (l', cs) -> for_enumerate f i l' = Ok (l', g cs).
Proof.
  intros Hf. induction l as [|x l IH]; intros i l' cs H; simpl in H.
  - injection H as <- <-. simpl. now rewrite g_nil.
  - apply bind_ok in H as ([x' c] & Hx & H).
    apply bind_ok in H as ([l1 cs1] & Hl & H). injection H as <- <-.
    simpl. rewrite (Hf _ _ _ _ Hx). py_step. rewrite (IH _ _ _ Hl). py_step.
    now rewrite g_app.
Qed.

Lemma for_enumerate_same f :
  forall l i l' cs,
    (forall i x x' c, In x l -> f i x = Ok (x', c) -> x' = x /\ c = []) ->
    for_enumerate f i l = Ok (l', cs) -> l' = l /\ cs = [].
Proof.
  induction l as [|x l IH]; intros i l' cs Hf H; simpl in H.
  - injection H as <- <-. auto.
  - apply bind_ok in H as ([x' c] & Hx & H).
    apply bind_ok in H as ([l1 cs1] & Hl & H). injection H as <- <-.
    destruct (Hf _ _ _ _ (or_introl eq_refl) Hx) as [-> ->].
    destruct (IH _ _ _ (fun i x x' c I => Hf i x x' c (or_intror I)) Hl) as [-> ->].
    auto.
Qed.

Lemma for_items_again f :
  (forall k v v' c, f k v = Ok (v', c) -> f k v' = Ok (v', g c)) ->
  forall d d' cs,
    for_items f d = Ok (d', cs) -> for_items f d' = Ok (d', g cs).
Proof.
  intros Hf. induction d as [|[k v] d IH]; intros d' cs H; simpl in H.
  - injection H as <- <-. simpl. now rewrite g_nil.
  - apply bind_ok in H as ([v' c] & Hv & H).
    apply bind_ok in H as ([d1 cs1] & Hd & H). injection H as <- <-.
    simpl. rewrite (Hf _ _ _ _ Hv). py_step. rewrite (IH _ _ Hd). py_step.
    now rewrite g_app.
Qed.

End HookLoops.

Lemma for_enumerate_nth f l :
  forall i l' cs,
    MigrateHook.for_enumerate f i l = Ok (l', cs) ->
    forall n x, nth_error l n = Some x ->
      exists x' c, f (i + n) x = Ok (x', c) /\ nth_error l' n = Some x' /\ incl c cs.
Proof.
  induction l as [|y l IH]; intros i l' cs H n x Hn; simpl in H.
  - destruct n; discriminate.
  - apply bind_ok in H as ([y' c] & Hy & H).
    apply bind_ok in H as ([l1 cs1] & Hl & H). injection H as <- <-.
    destruct n as [|n]; simpl in Hn.
    + injection Hn as <-. exists y', c. rewrite Nat.add_0_r. repeat split; auto.
      now apply incl_appl.
    + destruct (IH _ _ _ Hl _ _ Hn) as (x' & c' & Hx & Hn' & Hc).
      exists x', c'. replace (i + S n) with (S i + n) by lia. repeat split; auto.
      now apply incl_appr.
Qed.

Lemma for_items_get f d :
  forall d' cs,
    MigrateHook.for_items f d = Ok (d', cs) ->
    forall k v, dict_get d k = Some v ->
      exists v' c, f k v = Ok (v', c) /\ dict_get d' k = Some v' /\ incl c cs.
Proof.
  induction d as [|[k0 v0] d IH]; intros d' cs H k v Hk; simpl in H, Hk.
  - discriminate.
  - apply bind_ok in H as ([v0' c] & Hv & H).
    apply bind_ok in H as ([d1 cs1] & Hd & H). injection H as <- <-.
    simpl. destruct (str_eqb k0 k) eqn:E.
    + apply str_eqb_eq in E. subst k0. injection Hk as <-.
      exists v0', c. repeat split; auto. now apply incl_appl.
    + destruct (IH _ _ Hd _ _ Hk) as (v' & c' & Hf & Hg & Hc).
      exists v', c'. repeat split; auto. now apply incl_appr.
Qed.



Section OverGroups.

Import MigrateHook.

Variable select : pystr -> bool.
Variable f : pystr -> nat -> pyval -> result (pyval * list pystr).

Lemma over_groups_out cfg cfg' ch :
  over_groups select f cfg = Ok (cfg', ch) ->
  (cfg' = cfg /\ ch = [] /\ contains cfg "hooks" = Ok false)
  \/ exists c events events',
       cfg = PDict c /\ dict_get c "hooks" = Some (PDict events)
       /\ cfg' = PDict (dict_set c "hooks" (PDict events'))
       /\ for_items
            (fun event_name event_hooks =>
               if select event_name then
                 hook_configs <- iterate event_hooks ;;
                 '(hook_configs, changes) <- for_enumerate (f event_name) 0 hook_configs ;;
                 Ok (rebuild event_hooks hook_configs, changes)
               else Ok (event_hooks, []))
            events = Ok (events', ch).
Proof.
  intro H. unfold over_groups in H.
  apply bind_ok in H as (has & Hc & H). destruct has; simpl in H.
  - right. apply bind_ok in H as (hooks & Hh & H).
    apply bind_ok in H as (events & He & H).
    apply bind_ok in H as ([events' ch'] & Hf & H).
    apply bind_ok in H as (cfg2 & Hs & H). injection H as <- <-.
    destruct cfg as [| | | | |c]; try discriminate.
    py_step_in Hh. destruct (dict_get c "hooks") as [h|] eqn:G; [|discriminate].
    injection Hh as ->. destruct hooks; try discriminate. injection He as ->.
    injection Hs as <-. exists c, events, events'. auto.
  - left. injection H as <- <-. auto.
Qed.

Variable g : list pystr -> list pystr.
Hypothesis g_nil : g [] = [].
Hypothesis g_app : forall a b, g (a ++ b) = g a ++ g b.
Hypothesis f_again : forall ev i x x' c, f ev i x = Ok (x', c) -> f ev i x' = Ok (x', g c).
Hypothesis f_str : forall ev i s x' c, f ev i (PStr s) = Ok (x', c) -> x' = PStr s /\ c = [].

Lemma over_groups_again cfg cfg' ch :
  over_groups select f cfg = Ok (cfg', ch) ->
  over_groups select f cfg' = Ok (cfg', g ch).
Proof.
  intro H. apply over_groups_out in H.
  destruct H as [(-> & -> & Hc) | (c & events & events' & -> & G & -> & Hf)].
  - unfold over_groups. rewrite Hc. simpl. now rewrite g_nil.
  - unfold over_groups. py_step. rewrite dict_get_set_eq. py_step.
    erewrite for_items_again; [ | exact g_nil | exact g_app | | exact Hf].
    + py_step. now rewrite dict_set_set.
    + clear - g_nil g_app f_again f_str. intros k v v' c H.
      destruct (select k); [|injection H as <- <-; now rewrite g_nil].
      apply bind_ok in H as (l & Hi & H).
      apply bind_ok in H as ([l' cs] & Hl & H). injection H as <- <-.
      destruct v; try discriminate; py_step_in Hi; injection Hi as <-.
      * (* a string: its characters are strings *)
        destruct (@for_enumerate_same (f k) (map (fun c => PStr [c]) s) 0 l' cs)
          as [-> ->]; auto.
        { intros i x x' c I Hx. apply in_map_iff in I as (ch0 & <- & _).
          now apply f_str in Hx. }
        simpl. py_step. rewrite Hl. py_step. now rewrite g_nil.
      * (* a list *)
        simpl. py_step.
        erewrite for_enumerate_again; [ | exact g_nil | exact g_app | | exact Hl].
        -- reflexivity.
        -- intros. eapply f_again. eassumption.
      * (* a dict: its keys are strings *)
        destruct (@for_enumerate_same (f k) (map (fun p => PStr (fst p)) d) 0 l' cs)
          as [-> ->]; auto.
        { intros i x x' c I Hx. apply in_map_iff in I as (p0 & <- & _).
          now apply f_str in Hx. }
        simpl. py_step. rewrite Hl. py_step. now rewrite g_nil.
Qed.

Lemma over_groups_group cfg cfg' ch ev i x :
  over_groups select f cfg = Ok (cfg', ch) ->
  select ev = true ->
  hook_group cfg ev i = Some x ->
  exists x' c, f ev i x = Ok (x', c) /\ hook_group cfg' ev i = Some x' /\ incl c ch.
Proof.
  intros H Hs Hg. apply over_groups_out in H.
  destruct H as [(-> & -> & Hc) | (c & events & events' & -> & G & -> & Hf)].
  - destruct cfg as [| | | | |c]; try discriminate. simpl in Hg. py_step_in Hc.
    destruct (dict_get c "hooks"); discriminate.
  - simpl in Hg. rewrite G in Hg.
    destruct (dict_get events ev) as [v|] eqn:E; [|discriminate].
    destruct v as [| | | |l|]; try discriminate.
    destruct (for_items_get _ _ Hf _ E) as (v' & c' & Hv & Hg' & Hi).
    rewrite Hs in Hv. py_step_in Hv.
    apply bind_ok in Hv as ([l' cs] & Hl & Hv). injection Hv as <- <-.
    destruct (for_enumerate_nth _ _ _ Hl _ Hg) as (x' & c0 & Hx & Hn & Hc0).
    exists x', c0. split; [exact Hx|]. split.
    + simpl. rewrite dict_get_set_eq, Hg'. exact Hn.
    + intros m Hm. apply Hi, Hc0, Hm.
Qed.

End OverGroups.

(** ** migrate-hook.py: the matcher migrations *)


Section MatcherFacts.

Context {rt : PyRuntime}.

Import MigrateHook.

Lemma remove_empty_matchers_over cfg :
  migrate_remove_empty_matchers cfg
  = over_groups (fun e => str_mem e LIFECYCLE_EVENTS) remove_empty_matcher cfg.
Proof. reflexivity. Qed.

Lemma add_missing_matchers_over cfg :
  migrate_add_missing_matchers cfg
  = over_groups (fun e => str_mem e TOOL_EVENTS) add_missing_matcher cfg.
Proof. reflexivity. Qed.

(** What [remove_empty_matcher] does to a hook group that is a dict. *)
Lemma remove_empty_matcher_dict ev i d :
  remove_empty_matcher ev i (PDict d) =
  match dict_get d "matcher" with
  | None => Ok (PDict d, [])
  | Some m =>
      if truthy m then
        match m with
        | PStr s =>
            if str_eqb (strip s) ""
            then Ok (PDict (dict_del d "matcher"),
                     ["Removed empty matcher from " ++ ev ++ " " ++ hook_no i])
            else Ok (PDict d,
                     ["WARNING: " ++ ev ++ " " ++ hook_no i ++ " has matcher '"
                        ++ s ++ "' (lifecycle events shouldn't have matchers)"])
        | _ => Raise AttributeError
        end
      else
        Ok (PDict (dict_del d "matcher"),
            ["Removed empty matcher from " ++ ev ++ " " ++ hook_no i])
  end.
Proof.
  unfold remove_empty_matcher. py_step.
  destruct (dict_get d "matcher") as [m|] eqn:G; py_step; [|reflexivity].
  destruct (truthy m) eqn:T; py_step.
  - destruct m; py_step; reflexivity.
  - reflexivity.
Qed.

Lemma remove_empty_matcher_not_dict ev i x x' c :
  (forall d, x <> PDict d) ->
  remove_empty_matcher ev i x = Ok (x', c) -> x' = x /\ c = [].
Proof.
  intros ND H. unfold remove_empty_matcher in H.
  destruct x; py_step_in H; try discriminate; try (now elim (ND d));
    match type of H with
    | context [if ?c then _ else _] => destruct c; py_step_in H
    end; try discriminate; injection H as <- <-; auto.
Qed.

Lemma remove_empty_matcher_again ev i x x' c :
  remove_empty_matcher ev i x = Ok (x', c) ->
  remove_empty_matcher ev i x' = Ok (x', filter is_warning c).
Proof.
  intro H.
  assert (D : (exists d, x = PDict d) \/ (forall d, x <> PDict d)).
  { destruct x; try (right; intros ? ?; discriminate). left. eauto. }
  destruct D as [[d ->] | ND].
  - rewrite remove_empty_matcher_dict in H.
    destruct (dict_get d "matcher") as [m|] eqn:G.
    + destruct (truthy m) eqn:T.
      * destruct m; try discriminate.
        destruct (str_eqb (strip s) "") eqn:B; injection H as <- <-.
        -- rewrite remove_empty_matcher_dict, dict_get_del_eq. reflexivity.
        -- rewrite remove_empty_matcher_dict, G, T, B. reflexivity.
      * injection H as <- <-. rewrite remove_empty_matcher_dict, dict_get_del_eq.
        reflexivity.
    + injection H as <- <-. rewrite remove_empty_matcher_dict, G. reflexivity.
  - destruct (@remove_empty_matcher_not_dict ev i x x' c ND H) as [-> ->]. exact H.
Qed.

(** What [add_missing_matcher] does to a hook group that is a dict. *)
Lemma add_missing_matcher_dict ev i d :
  add_missing_matcher ev i (PDict d) =
  if match dict_get d "matcher" with Some m => truthy m | None => false end
  then Ok (PDict d, [])
  else Ok (PDict (dict_set d "matcher" (PStr "*")),
           ["Added default matcher '*' to " ++ ev ++ " " ++ hook_no i]).
Proof.
  unfold add_missing_matcher. py_step.
  destruct (dict_get d "matcher") as [m|] eqn:G; py_step; [|reflexivity].
  destruct (truthy m); reflexivity.
Qed.

Lemma add_missing_matcher_not_dict ev i x :
  (forall d, x <> PDict d) -> exists e, add_missing_matcher ev i x = Raise e.
Proof.
  intros ND. unfold add_missing_matcher.
  destruct x; py_step; eauto; try (now elim (ND d));
    match goal with
    | |- context [if ?c then _ else _] => destruct c; py_step; eauto
    end.
Qed.

Lemma add_missing_matcher_again ev i x x' c :
  add_missing_matcher ev i x = Ok (x', c) ->
  add_missing_matcher ev i x' = Ok (x', []).
Proof.
  intro H.
  assert (D : (exists d, x = PDict d) \/ (forall d, x <> PDict d)).
  { destruct x; try (right; intros ? ?; discriminate). left. eauto. }
  destruct D as [[d ->] | ND].
  - rewrite add_missing_matcher_dict in H.
    destruct (dict_get d "matcher") as [m|] eqn:G.
    + destruct (truthy m) eqn:T; injection H as <- <-.
      * rewrite add_missing_matcher_dict, G, T. reflexivity.
      * rewrite add_missing_matcher_dict, dict_get_set_eq. reflexivity.
    + injection H as <- <-. rewrite add_missing_matcher_dict, dict_get_set_eq. reflexivity.
  - destruct (@add_missing_matcher_not_dict ev i x ND) as [e E]. congruence.
Qed.

Lemma remove_empty_matchers_again cfg cfg' changes :
  migrate_remove_empty_matchers cfg = Ok (cfg', changes) ->
  migrate_remove_empty_matchers cfg' = Ok (cfg', filter is_warning changes).
Proof.
  rewrite !remove_empty_matchers_over. apply over_groups_again.
  - reflexivity.
  - intros a b. apply filter_app.
  - intros. eapply remove_empty_matcher_again. eassumption.
  - intros ev i s x' c H. eapply remove_empty_matcher_not_dict; [|exact H]. discriminate.
Qed.

Lemma add_missing_matchers_again cfg cfg' changes :
  migrate_add_missing_matchers cfg = Ok (cfg', changes) ->
  migrate_add_missing_matchers cfg' = Ok (cfg', []).
Proof.
  rewrite !add_missing_matchers_over.
  apply over_groups_again with (g := fun _ => []).
  - reflexivity.
  - reflexivity.
  - intros. eapply add_missing_matcher_again. eassumption.
  - intros ev i s x' c H.
    destruct (@add_missing_matcher_not_dict ev i (PStr s)) as [e E]; [discriminate|].
    congruence.
Qed.

End MatcherFacts.

(** ** Well-shaped hooks configurations *)






Lemma for_enumerate_returns f l :
  forall i, (forall x j, In x l -> returns (f j x)) ->
       returns (MigrateHook.for_enumerate f i l).
Proof.
  induction l as [|x l IH]; intros i Hf; simpl.
  - eexists. reflexivity.
  - destruct (Hf x i (or_introl eq_refl)) as [[x' c] ->]. py_step.
    destruct (IH (S i) (fun y j I => Hf y j (or_intror I))) as [[l' cs] ->]. py_step.
    eexists. reflexivity.
Qed.

Lemma for_items_returns f d :
  (forall k v, In (k, v) d -> returns (f k v)) -> returns (MigrateHook.for_items f d).
Proof.
  induction d as [|[k v] d IH]; intros Hf; simpl.
  - eexists. reflexivity.
  - destruct (Hf k v (or_introl eq_refl)) as [[v' c] ->]. py_step.
    destruct (IH (fun k' v' I => Hf k' v' (or_intror I))) as [[d' cs] ->]. py_step.
    eexists. reflexivity.
Qed.

Lemma well_shaped_inv cfg :
  well_shaped cfg = true ->
  exists c events, cfg = PDict c /\ dict_get c "hooks" = Some (PDict events)
    /\ forall ev v, In (ev, v) events ->
         exists l, v = PList l /\ forall x, In x l -> group_ok x = true.
Proof.
  destruct cfg as [| | | | |c]; try discriminate. simpl.
  destruct (dict_get c "hooks") as [[| | | | |events]|] eqn:G; try discriminate.
  intro H. exists c, events. repeat split; auto.
  intros ev v I. rewrite forallb_forall in H. specialize (H _ I). unfold event_ok in H.
  simpl in H. destruct v; try discriminate. eexists. split; [reflexivity|].
  now apply forallb_forall.
Qed.

Lemma over_groups_returns select f cfg :
  well_shaped cfg = true ->
  (forall ev i x, group_ok x = true -> returns (f ev i x)) ->
  returns (over_groups select f cfg).
Proof.
  intros W Hf. destruct (well_shaped_inv _ W) as (c & events & -> & G & Hev).
  unfold over_groups. py_step. rewrite G. py_step.
  match goal with
  | |- context [MigrateHook.for_items ?h events] =>
      destruct (@for_items_returns h events) as [[events' ch] ->]
  end.
  - intros k v I. destruct (Hev _ _ I) as (l & -> & Hl).
    destruct (select k); [|eexists; reflexivity]. py_step.
    destruct (@for_enumerate_returns (f k) l 0) as [[l' cs] ->].
    + intros x j Ix. apply Hf. now apply Hl.
    + eexists. reflexivity.
  - py_step. eexists. reflexivity.
Qed.

Lemma lstrip_all_space s : forallb isspace s = true -> lstrip s = [].
Proof.
  induction s as [|c s IH]; simpl; [reflexivity|].
  intro H. apply andb_true_iff in H as [-> H]. now apply IH.
Qed.

Lemma strip_all_space s : forallb isspace s = true -> strip s = [].
Proof. intro H. unfold strip. now rewrite (lstrip_all_space _ H). Qed.

Section HookGroupFacts.

Context {rt : PyRuntime}.

Import MigrateHook.

Lemma add_missing_matcher_returns ev i x :
  group_ok x = true -> returns (add_missing_matcher ev i x).
Proof.
  destruct x; try discriminate. intros _. rewrite add_missing_matcher_dict.
  destruct (match dict_get d "matcher" with Some m => truthy m | None => false end);
    eexists; reflexivity.
Qed.

Lemma remove_empty_matcher_returns ev i x :
  group_ok x = true -> returns (remove_empty_matcher ev i x).
Proof.
  destruct x; try discriminate. simpl. intro H. apply andb_true_iff in H as [H _].
  rewrite remove_empty_matcher_dict.
  destruct (dict_get d "matcher") as [m|]; [|eexists; reflexivity].
  destruct (truthy m); simpl in H; [|eexists; reflexivity].
  destruct m; try discriminate.
  destruct (str_eqb (strip s) ""); eexists; reflexivity.
Qed.

Lemma add_missing_matchers_group cfg ev i g :
  well_shaped cfg = true ->
  str_mem ev TOOL_EVENTS = true ->
  hook_group cfg ev i = Some (PDict g) ->
  match dict_get g "matcher" with Some m => truthy m = false | None => True end ->
  exists cfg' changes,
    migrate_add_missing_matchers cfg = Ok (cfg', changes)
    /\ hook_group cfg' ev i = Some (PDict (dict_set g "matcher" (PStr "*")))
    /\ In ("Added default matcher '*' to " ++ ev ++ " hook #" ++ str_of_nat (i + 1)) changes.
Proof.
  intros W E G M.
  destruct (@over_groups_returns (fun e => str_mem e TOOL_EVENTS) add_missing_matcher cfg W)
    as [[cfg' ch] R].
  { intros. now apply add_missing_matcher_returns. }
  exists cfg', ch. rewrite add_missing_matchers_over. split; [exact R|].
  edestruct over_groups_group as (x' & c & Hx & Hg & Hc); [exact R | exact E | exact G |].
  rewrite add_missing_matcher_dict in Hx.
  destruct (dict_get g "matcher") as [m|].
  - rewrite M in Hx. injection Hx as <- <-. split; [exact Hg|]. apply Hc. now left.
  - injection Hx as <- <-. split; [exact Hg|]. apply Hc. now left.
Qed.

Lemma remove_empty_matchers_group cfg ev i g s :
  well_shaped cfg = true ->
  str_mem ev LIFECYCLE_EVENTS = true ->
  hook_group cfg ev i = Some (PDict g) ->
  dict_get g "matcher" = Some (PStr s) ->
  forallb isspace s = true ->
  exists cfg' changes,
    migrate_remove_empty_matchers cfg = Ok (cfg', changes)
    /\ hook_group cfg' ev i = Some (PDict (dict_del g "matcher"))
    /\ In ("Removed empty matcher from " ++ ev ++ " hook #" ++ str_of_nat (i + 1)) changes.
Proof.
  intros W E G M B.
  destruct (@over_groups_returns (fun e => str_mem e LIFECYCLE_EVENTS)
              remove_empty_matcher cfg W) as [[cfg' ch] R].
  { intros. now apply remove_empty_matcher_returns. }
  exists cfg', ch. rewrite remove_empty_matchers_over. split; [exact R|].
  edestruct over_groups_group as (x' & c & Hx & Hg & Hc); [exact R | exact E | exact G |].
  rewrite remove_empty_matcher_dict, M in Hx. rewrite (strip_all_space _ B) in Hx.
  destruct (truthy (PStr s)); simpl in Hx; injection Hx as <- <-;
    (split; [exact Hg|]); apply Hc; now left.
Qed.

End HookGroupFacts.

(** ** migrate-hook.py: hook types and script paths *)

Lemma in_strs_command_prompt v :
  in_strs v (strs ["command"; "prompt"]) = false ->
  eq_str v "command" = false /\ eq_str v "prompt" = false.
Proof.
  unfold in_strs, strs. simpl. intro H.
  apply orb_false_iff in H as [H1 H2]. apply orb_false_iff in H2 as [H2 _]. auto.
Qed.

Lemma mapM_raises {A B} (f : A -> result B) e l :
  (forall x, In x l -> returns (f x) \/ f x = Raise e) ->
  (exists x, In x l /\ f x = Raise e) ->
  mapM f l = Raise e.
Proof.
  induction l as [|x l IH]; intros Hall [y [Iy Hy]]; simpl.
  - destruct Iy.
  - destruct (Hall x (or_introl eq_refl)) as [[b Hb] | Hb]; rewrite Hb; [|reflexivity].
    py_step. destruct Iy as [E | Iy].
    + subst y. congruence.
    + rewrite IH; [reflexivity | | eauto]. intros. apply Hall. now right.
Qed.

Lemma mapM_raise_cases {A B} (f : A -> result B) e0 l e :
  (forall x, In x l -> returns (f x) \/ f x = Raise e0) ->
  mapM f l = Raise e -> e = e0.
Proof.
  induction l as [|x l IH]; intros Hall M; simpl in M; [discriminate|].
  destruct (Hall x (or_introl eq_refl)) as [[b Hb] | Hb]; rewrite Hb in M; py_step_in M.
  - destruct (mapM f l) eqn:M'; py_step_in M; [discriminate|].
    injection M as <-. apply IH; [|reflexivity]. intros. apply Hall. now right.
  - congruence.
Qed.

Lemma mapM_returns {A B} (f : A -> result B) l :
  (forall x, In x l -> returns (f x)) -> returns (mapM f l).
Proof.
  induction l as [|x l IH]; intros Hall; simpl.
  - eexists. reflexivity.
  - destruct (Hall x (or_introl eq_refl)) as [b ->]. py_step.
    destruct IH as [bs ->]; [intros; apply Hall; now right|]. py_step.
    eexists. reflexivity.
Qed.

Lemma enumerate_from_In {A} (l : list A) :
  forall i n x, nth_error l n = Some x -> In (i + n, x) (enumerate_from i l).
Proof.
  induction l as [|y l IH]; intros i n x H; destruct n; simpl in *; try discriminate.
  - injection H as ->. left. f_equal. lia.
  - right. replace (i + S n) with (S i + n) by lia. now apply IH.
Qed.

Lemma enumerate_In {A} (l : list A) n x :
  nth_error l n = Some x -> In (n, x) (enumerate l).
Proof. intro H. apply (enumerate_from_In l 0 n H). Qed.

Lemma enumerate_from_snd {A} (l : list A) :
  forall i p, In p (enumerate_from i l) -> In (snd p) l.
Proof.
  induction l as [|y l IH]; intros i p H; simpl in *; [destruct H|].
  destruct H as [<- | H]; [now left|]. right. eapply IH. exact H.
Qed.

Lemma dict_get_In (d : pydict) k v : dict_get d k = Some v -> In (k, v) d.
Proof.
  induction d as [|[k0 v0] d IH]; simpl; [discriminate|].
  destruct (str_eqb k0 k) eqn:E.
  - apply str_eqb_eq in E. subst. intro H. injection H as ->. now left.
  - intro H. right. now apply IH.
Qed.

Section HookItemFacts.

Context {rt : PyRuntime}.

Import MigrateHook.

Lemma validate_hook_types_over cfg :
  migrate_validate_hook_types cfg
  = over_groups (fun _ => true) validate_hook_types_group cfg.
Proof. reflexivity. Qed.



Lemma validate_hook_type_invalid ev i j h :
  in_strs (type_of h) (strs ["command"; "prompt"]) = false ->
  validate_hook_type ev i j (PDict h) =
  if dict_has h "command" then
    Ok (PDict (dict_set h "type" (PStr "command")),
        ["Fixed type to 'command' for " ++ where_ ev i j])
  else if dict_has h "prompt" then
    Ok (PDict (dict_set h "type" (PStr "prompt")),
        ["Fixed type to 'prompt' for " ++ where_ ev i j])
  else
    Ok (PDict h,
        ["ERROR: " ++ where_ ev i j ++ ": Invalid type '" ++ py_str (type_of h)
           ++ "' with no command or prompt"]).
Proof.
  intro T. destruct (in_strs_command_prompt _ T) as [T1 T2].
  unfold validate_hook_type. py_step. fold (type_of h). rewrite T, T1, T2. py_step.
  unfold dict_has.
  destruct (dict_get h "command"); py_step; [reflexivity|].
  destruct (dict_get h "prompt"); py_step; reflexivity.
Qed.

Lemma validate_hook_type_returns ev i j x :
  item_ok x = true -> returns (validate_hook_type ev i j x).
Proof.
  destruct x as [| | | | |h]; try discriminate. intros _.
  unfold validate_hook_type. py_step. fold (type_of h).
  destruct (in_strs (type_of h) (strs ["command"; "prompt"])); py_step;
    [|destruct (dict_get h "command"); py_step; [|destruct (dict_get h "prompt"); py_step]];
    destruct (eq_str (type_of h) "command"); py_step;
    destruct (eq_str (type_of h) "prompt"); py_step;
    rewrite ?dict_get_set_neq by str_neq;
    repeat match goal with
           | |- context [dict_get h ?k] => destruct (dict_get h k); py_step
           end;
    eexists; reflexivity.
Qed.

Lemma validate_hook_types_group_returns ev i x :
  group_ok x = true -> returns (validate_hook_types_group ev i x).
Proof.
  destruct x as [| | | | |g]; try discriminate. simpl. intro H.
  apply andb_true_iff in H as [_ H].
  unfold validate_hook_types_group. py_step.
  destruct (dict_get g "hooks") as [hooks|]; py_step; [|eexists; reflexivity].
  destruct hooks as [| | | |l|]; try discriminate. py_step.
  destruct (@for_enumerate_returns (validate_hook_type ev i) l 0) as [[l' cs] ->].
  - intros x j I. apply validate_hook_type_returns.
    rewrite forallb_forall in H. now apply H.
  - py_step. eexists. reflexivity.
Qed.

Lemma validate_hook_types_item cfg ev i j x :
  well_shaped cfg = true ->
  hook_item cfg ev i j = Some x ->
  exists cfg' changes x' c,
    migrate_validate_hook_types cfg = Ok (cfg', changes)
    /\ validate_hook_type ev i j x = Ok (x', c)
    /\ hook_item cfg' ev i j = Some x'
    /\ incl c changes.
Proof.
  intros W I.
  destruct (@over_groups_returns (fun _ => true) validate_hook_types_group cfg W)
    as [[cfg' ch] R].
  { intros. now apply validate_hook_types_group_returns. }
  unfold hook_item in I.
  destruct (hook_group cfg ev i) as [[| | | | |g]|] eqn:G; try discriminate.
  destruct (dict_get g "hooks") as [[| | | |l|]|] eqn:Gh; try discriminate.
  edestruct over_groups_group as (g' & c & Hg & Hg' & Hc); [exact R | reflexivity | exact G |].
  unfold validate_hook_types_group in Hg. py_step_in Hg. rewrite Gh in Hg. py_step_in Hg.
  apply bind_ok in Hg as ([l' cs] & Hl & Hg). injection Hg as <- <-.
  destruct (for_enumerate_nth _ _ _ Hl _ I) as (x' & c' & Hx & Hn & Hc').
  exists cfg', ch, x', c'. rewrite validate_hook_types_over. repeat split; auto.
  - unfold hook_item. rewrite Hg', dict_get_set_eq. exact Hn.
  - intros m Hm. apply Hc, Hc', Hm.
Qed.


Lemma nth_error_nth_1 (l : list pystr) x :
  nth_error l 1 = Some x -> (1 <? length l)%nat = true /\ nth 1 l [] = x.
Proof. destruct l as [|a [|b l]]; simpl; try discriminate. intro H. injection H as ->. auto. Qed.

Lemma normalize_script_path_raises ev i j h :
  relative_script h -> normalize_script_path ev i j (PDict h) = Raise NameError.
Proof.
  intros (command & script_path & T & C & B & N & S1 & S2).
  destruct (nth_error_nth_1 _ N) as [L E].
  unfold normalize_script_path. py_step. rewrite T, C. py_step.
  change (eq_str (PStr "command") "command") with true. py_step.
  rewrite B, L, E, S1, S2. reflexivity.
Qed.

Lemma normalize_script_path_cases ev i j x :
  item_ok x = true ->
  returns (normalize_script_path ev i j x) \/ normalize_script_path ev i j x = Raise NameError.
Proof.
  destruct x as [| | | | |h]; try discriminate. simpl. intro H.
  unfold normalize_script_path. py_step.
  destruct (eq_str match dict_get h "type" with Some x => x | None => PNone end "command");
    [|left; eexists; reflexivity].
  destruct (dict_get h "command") as [c|]; py_step.
  - destruct c; try discriminate. py_step.
    destruct (startswith s "bash " || startswith s "sh "); [|left; eexists; reflexivity].
    destruct (1 <? length (split_ws s))%nat; [|left; eexists; reflexivity].
    destruct (negb (startswith (nth 1 (split_ws s) []) "/")
              && negb (startswith (nth 1 (split_ws s) []) "${")) eqn:E.
    + right. unfold negb in E. rewrite E. reflexivity.
    + left. unfold negb in E. rewrite E. eexists. reflexivity.
  - left. eexists. reflexivity.
Qed.

Lemma normalize_group_cases ev i x :
  group_ok x = true ->
  returns (normalize_script_paths_group ev i x)
  \/ normalize_script_paths_group ev i x = Raise NameError.
Proof.
  destruct x as [| | | | |g]; try discriminate. simpl. intro H.
  apply andb_true_iff in H as [_ H].
  unfold normalize_script_paths_group. py_step.
  destruct (dict_get g "hooks") as [hooks|]; py_step; [|left; eexists; reflexivity].
  destruct hooks as [| | | |l|]; try discriminate. py_step.
  rewrite forallb_forall in H.
  match goal with
  | |- context [mapM ?f ?l] => destruct (mapM f l) as [rs|e] eqn:M
  end.
  - left. eexists. reflexivity.
  - right. py_step. f_equal. eapply mapM_raise_cases; [|exact M].
    intros p Ip. apply normalize_script_path_cases. apply H.
    eapply enumerate_from_snd. exact Ip.
Qed.

Lemma normalize_group_raises ev i g l j h :
  group_ok (PDict g) = true ->
  dict_get g "hooks" = Some (PList l) ->
  nth_error l j = Some (PDict h) ->
  relative_script h ->
  normalize_script_paths_group ev i (PDict g) = Raise NameError.
Proof.
  intros W G N R. simpl in W. rewrite G in W. apply andb_true_iff in W as [_ W].
  rewrite forallb_forall in W.
  unfold normalize_script_paths_group. py_step. rewrite G. py_step.
  rewrite (@mapM_raises _ _ _ NameError); [reflexivity| |].
  - intros p Ip. apply normalize_script_path_cases. apply W.
    eapply enumerate_from_snd. exact Ip.
  - exists (j, PDict h). split; [now apply enumerate_In|].
    now apply normalize_script_path_raises.
Qed.

Lemma normalize_script_paths_raises cfg ev i j h :
  well_shaped cfg = true ->
  hook_item cfg ev i j = Some (PDict h) ->
  relative_script h ->
  migrate_normalize_script_paths cfg = Raise NameError.
Proof.
  intros W I R. destruct (well_shaped_inv _ W) as (c & events & -> & G & Hev).
  unfold hook_item, hook_group in I. rewrite G in I.
  destruct (dict_get events ev) as [[| | | |groups|]|] eqn:E; try discriminate.
  destruct (nth_error groups i) as [[| | | | |g]|] eqn:Ng; try discriminate.
  destruct (dict_get g "hooks") as [[| | | |l|]|] eqn:Gh; try discriminate.
  unfold migrate_normalize_script_paths. py_step. rewrite G. py_step.
  rewrite (@mapM_raises _ _ _ NameError); [reflexivity| |].
  - intros [k v] Ik. destruct (Hev _ _ Ik) as (l0 & -> & Hl0). py_step.
    match goal with
    | |- context [mapM ?f ?l] =>
        destruct (mapM f l) as [rs|e] eqn:M
    end.
    + left. eexists. reflexivity.
    + right. py_step. f_equal. eapply mapM_raise_cases; [|exact M].
      intros p Ip. apply normalize_group_cases. apply Hl0.
      eapply enumerate_from_snd. exact Ip.
  - exists (ev, PList groups). split; [now apply dict_get_In|]. py_step.
    rewrite (@mapM_raises _ _ _ NameError); [reflexivity| |].
    + intros p Ip. apply normalize_group_cases.
      destruct (Hev _ _ (dict_get_In _ _ E)) as (l0 & Hl0 & Hok). injection Hl0 as <-.
      apply Hok. eapply enumerate_from_snd. exact Ip.
    + exists (i, PDict g). split; [now apply enumerate_In|].
      eapply normalize_group_raises; eauto.
      destruct (Hev _ _ (dict_get_In _ _ E)) as (l0 & Hl0 & Hok). injection Hl0 as <-.
      apply Hok. eapply nth_error_In. exact Ng.
Qed.

End HookItemFacts.

(** ** The hooks file format through the migrations *)

Lemma for_enumerate_In_inv f l :
  forall i l' cs,
    MigrateHook.for_enumerate f i l = Ok (l', cs) ->
    forall x', In x' l' -> exists x j c, In x l /\ f j x = Ok (x', c).
Proof.
  induction l as [|y l IH]; intros i l' cs H x' I; simpl in H.
  - injection H as <- <-. destruct I.
  - apply bind_ok in H as ([y' c] & Hy & H).
    apply bind_ok in H as ([l1 cs1] & Hl & H). injection H as <- <-.
    destruct I as [<- | I].
    + exists y, i, c. split; [now left | exact Hy].
    + destruct (IH _ _ _ Hl _ I) as (x & j & c' & Ix & Hx).
      exists x, j, c'. split; [now right | exact Hx].
Qed.

Lemma for_items_In_inv f d :
  forall d' cs,
    MigrateHook.for_items f d = Ok (d', cs) ->
    forall k v', In (k, v') d' -> exists v c, In (k, v) d /\ f k v = Ok (v', c).
Proof.
  induction d as [|[k0 v0] d IH]; intros d' cs H k v' I; simpl in H.
  - injection H as <- <-. destruct I.
  - apply bind_ok in H as ([v0' c] & Hv & H).
    apply bind_ok in H as ([d1 cs1] & Hd & H). injection H as <- <-.
    destruct I as [E | I].
    + injection E as <- <-. exists v0, c. split; [now left | exact Hv].
    + destruct (IH _ _ Hd _ _ I) as (v & c' & Iv & Hf).
      exists v, c'. split; [now right | exact Hf].
Qed.

Lemma well_shaped_intro c events :
  dict_get c "hooks" = Some (PDict events) ->
  (forall ev v, In (ev, v) events ->
     exists l, v = PList l /\ forall x, In x l -> group_ok x = true) ->
  well_shaped (PDict c) = true.
Proof.
  intros G H. simpl. rewrite G. apply forallb_forall. intros [ev v] I.
  destruct (H _ _ I) as (l & -> & Hl). unfold event_ok. simpl.
  now apply forallb_forall.
Qed.

Section OverGroupsShape.

Variable select : pystr -> bool.
Variable f : pystr -> nat -> pyval -> result (pyval * list pystr).

Hypothesis f_ok :
  forall ev i x x' c, group_ok x = true -> f ev i x = Ok (x', c) -> group_ok x' = true.

Lemma over_groups_shape cfg cfg' ch :
  well_shaped cfg = true ->
  over_groups select f cfg = Ok (cfg', ch) ->
  well_shaped cfg' = true.
Proof.
  intros W H. destruct (well_shaped_inv _ W) as (c & events & -> & G & Hev).
  apply over_groups_out in H.
  destruct H as [(-> & _) | (c0 & events0 & events' & E & G0 & -> & Hf)]; [exact W|].
  injection E as <-. rewrite G in G0. injection G0 as <-.
  apply well_shaped_intro with (events := events'); [apply dict_get_set_eq|].
  intros ev v' I. destruct (for_items_In_inv _ _ Hf _ _ I) as (v & c1 & Iv & Hv).
  destruct (Hev _ _ Iv) as (l & -> & Hl).
  destruct (select ev).
  - py_step_in Hv. apply bind_ok in Hv as ([l' cs] & Hl' & Hv). injection Hv as <- _.
    exists l'. split; [reflexivity|]. intros x' Ix'.
    destruct (for_enumerate_In_inv _ _ _ Hl' _ Ix') as (x & j & c2 & Ix & Hx).
    eapply f_ok; [apply Hl, Ix | exact Hx].
  - injection Hv as <- _. exists l. auto.
Qed.

Lemma over_groups_skip cfg cfg' ch ev i :
  over_groups select f cfg = Ok (cfg', ch) ->
  select ev = false ->
  hook_group cfg' ev i = hook_group cfg ev i.
Proof.
  intros H Hs. apply over_groups_out in H.
  destruct H as [(-> & _) | (c & events & events' & -> & G & -> & Hf)]; [reflexivity|].
  simpl. rewrite dict_get_set_eq, G.
  destruct (dict_get events ev) as [v|] eqn:E.
  - destruct (for_items_get _ _ Hf _ E) as (v' & c' & Hv & Hg' & _).
    rewrite Hs in Hv. injection Hv as <- _. now rewrite Hg'.
  - assert (N : dict_get events' ev = None).
    { destruct (dict_get events' ev) as [v'|] eqn:E'; [|reflexivity].
      apply dict_get_In in E'.
      destruct (for_items_In_inv _ _ Hf _ _ E') as (v & c1 & Iv & _).
      exfalso. revert E Iv. clear. induction events as [|[k0 v0] d IH]; simpl; [tauto|].
      intros E [I | I].
      - injection I as -> ->. now rewrite str_eqb_refl in E.
      - destruct (str_eqb k0 ev); [discriminate|]. now apply IH. }
    now rewrite N.
Qed.

End OverGroupsShape.

Section ShapeKept.

Context {rt : PyRuntime}.

Import MigrateHook.

Lemma group_ok_same_hooks g g' :
  group_ok (PDict g) = true ->
  dict_get g' "hooks" = dict_get g "hooks" ->
  match dict_get g' "matcher" with
  | Some m => negb (truthy m) || isinstance_str m
  | None => true
  end = true ->
  group_ok (PDict g') = true.
Proof.
  simpl. intros H E M. apply andb_true_iff in H as [_ H]. now rewrite E, M, H.
Qed.

Lemma remove_empty_matcher_keeps ev i g x' c :
  remove_empty_matcher ev i (PDict g) = Ok (x', c) ->
  exists g', x' = PDict g' /\ dict_get g' "hooks" = dict_get g "hooks"
    /\ (g' = g \/ dict_get g' "matcher" = None).
Proof.
  rewrite remove_empty_matcher_dict. intro H.
  assert (D : dict_get (dict_del g "matcher") "hooks" = dict_get g "hooks")
    by (apply dict_get_del_neq; str_neq).
  pose proof (dict_get_del_eq g "matcher") as N.
  destruct (dict_get g "matcher") as [m|]; [|injection H as <- <-; eauto].
  destruct (truthy m); [|injection H as <- <-; eauto].
  destruct m; try discriminate.
  destruct (str_eqb (strip s) ""); injection H as <- <-; eauto.
Qed.

Lemma add_missing_matcher_keeps ev i g x' c :
  add_missing_matcher ev i (PDict g) = Ok (x', c) ->
  exists g', x' = PDict g' /\ dict_get g' "hooks" = dict_get g "hooks"
    /\ (g' = g \/ dict_get g' "matcher" = Some (PStr "*")).
Proof.
  rewrite add_missing_matcher_dict. intro H.
  assert (D : dict_get (dict_set g "matcher" (PStr "*")) "hooks" = dict_get g "hooks")
    by (apply dict_get_set_neq; str_neq).
  pose proof (dict_get_set_eq g "matcher" (PStr "*")) as N.
  destruct (match dict_get g "matcher" with Some m => truthy m | None => false end);
    injection H as <- <-; eauto.
Qed.

Lemma remove_empty_matcher_ok ev i x x' c :
  group_ok x = true -> remove_empty_matcher ev i x = Ok (x', c) -> group_ok x' = true.
Proof.
  destruct x as [| | | | |g]; try discriminate. intros G H.
  destruct (remove_empty_matcher_keeps _ _ _ H) as (g' & -> & E & [-> | N]); [exact G|].
  apply group_ok_same_hooks with (g := g); auto. now rewrite N.
Qed.

Lemma add_missing_matcher_ok ev i x x' c :
  group_ok x = true -> add_missing_matcher ev i x = Ok (x', c) -> group_ok x' = true.
Proof.
  destruct x as [| | | | |g]; try discriminate. intros G H.
  destruct (add_missing_matcher_keeps _ _ _ H) as (g' & -> & E & [-> | N]); [exact G|].
  apply group_ok_same_hooks with (g := g); auto. now rewrite N.
Qed.

Lemma validate_hook_type_ok ev i j x x' c :
  item_ok x = true -> validate_hook_type ev i j x = Ok (x', c) -> item_ok x' = true.
Proof.
  destruct x as [| | | | |h]; try discriminate. intros I H.
  assert (K : forall t, item_ok (PDict (dict_set h "type" t)) = true).
  { intro t. simpl. rewrite dict_get_set_neq by str_neq. exact I. }
  unfold validate_hook_type in H. py_step_in H. fold (type_of h) in H.
  destruct (in_strs (type_of h) (strs ["command"; "prompt"])); py_step_in H;
    [|destruct (dict_get h "command") eqn:Gc; py_step_in H;
      [|destruct (dict_get h "prompt") eqn:Gp; py_step_in H]];
    destruct (eq_str (type_of h) "command"); py_step_in H;
    destruct (eq_str (type_of h) "prompt"); py_step_in H;
    rewrite ?dict_get_set_neq in H by str_neq;
    repeat match type of H with
           | context [dict_get h ?k] => destruct (dict_get h k); py_step_in H
           end;
    injection H as <- _; auto.
Qed.

Lemma validate_hook_types_group_ok ev i x x' c :
  group_ok x = true -> validate_hook_types_group ev i x = Ok (x', c) -> group_ok x' = true.
Proof.
  destruct x as [| | | | |g]; try discriminate. intros G H.
  pose proof G as G0. simpl in G0. apply andb_true_iff in G0 as [M I].
  unfold validate_hook_types_group in H. py_step_in H.
  destruct (dict_get g "hooks") as [hooks|] eqn:E; py_step_in H;
    [|injection H as <- _; exact G].
  destruct hooks as [| | | |l|]; try discriminate. py_step_in H.
  apply bind_ok in H as ([l' cs] & Hl & H). py_step_in H. injection H as <- _.
  simpl. rewrite dict_get_set_neq by str_neq. rewrite M, dict_get_set_eq. simpl.
  apply forallb_forall. intros y' Iy'.
  destruct (for_enumerate_In_inv _ _ _ Hl _ Iy') as (y & j & c2 & Iy & Hy).
  eapply validate_hook_type_ok; [|exact Hy].
  rewrite forallb_forall in I. now apply I.
Qed.

Lemma validate_hook_type_command ev i j h x' c :
  dict_get h "type" = Some (PStr "command") ->
  validate_hook_type ev i j (PDict h) = Ok (x', c) -> x' = PDict h.
Proof.
  intros T H. unfold validate_hook_type in H. py_step_in H. rewrite T in H.
  change (in_strs (PStr "command") (strs ["command"; "prompt"])) with true in H.
  py_step_in H.
  change (eq_str (PStr "command") "command") with true in H.
  change (eq_str (PStr "command") "prompt") with false in H.
  py_step_in H. destruct (dict_get h "command"); py_step_in H; now injection H as <- _.
Qed.

Lemma hook_item_group cfg ev i j y :
  hook_item cfg ev i j = Some y ->
  exists g l, hook_group cfg ev i = Some (PDict g)
    /\ dict_get g "hooks" = Some (PList l) /\ nth_error l j = Some y.
Proof.
  unfold hook_item. destruct (hook_group cfg ev i) as [[| | | | |g]|]; try discriminate.
  destruct (dict_get g "hooks") as [[| | | |l|]|] eqn:E; try discriminate. eauto.
Qed.

Lemma over_groups_item select f cfg cfg' ch ev i j y :
  over_groups select f cfg = Ok (cfg', ch) ->
  (forall g x' c, f ev i (PDict g) = Ok (x', c) ->
     exists g', x' = PDict g' /\ dict_get g' "hooks" = dict_get g "hooks") ->
  hook_item cfg ev i j = Some y ->
  hook_item cfg' ev i j = Some y.
Proof.
  intros H K I. destruct (hook_item_group _ _ _ _ I) as (g & l & G & E & N).
  unfold hook_item. destruct (select ev) eqn:S.
  - destruct (over_groups_group _ _ _ _ _ H S G) as (x' & c & Hx & G' & _).
    destruct (K _ _ _ Hx) as (g' & -> & E'). now rewrite G', E', E.
  - rewrite (over_groups_skip _ _ _ _ i H S), G, E. exact N.
Qed.

Lemma remove_empty_matchers_item cfg cfg' ch ev i j y :
  migrate_remove_empty_matchers cfg = Ok (cfg', ch) ->
  hook_item cfg ev i j = Some y -> hook_item cfg' ev i j = Some y.
Proof.
  rewrite remove_empty_matchers_over. intro H. apply (over_groups_item _ _ _ _ _ _ H).
  intros g x' c Hx. destruct (remove_empty_matcher_keeps _ _ _ Hx) as (g' & -> & E & _).
  eauto.
Qed.

Lemma add_missing_matchers_item cfg cfg' ch ev i j y :
  migrate_add_missing_matchers cfg = Ok (cfg', ch) ->
  hook_item cfg ev i j = Some y -> hook_item cfg' ev i j = Some y.
Proof.
  rewrite add_missing_matchers_over. intro H. apply (over_groups_item _ _ _ _ _ _ H).
  intros g x' c Hx. destruct (add_missing_matcher_keeps _ _ _ Hx) as (g' & -> & E & _).
  eauto.
Qed.

Lemma validate_hook_types_command_item cfg cfg' ch ev i j h :
  well_shaped cfg = true ->
  migrate_validate_hook_types cfg = Ok (cfg', ch) ->
  hook_item cfg ev i j = Some (PDict h) ->
  dict_get h "type" = Some (PStr "command") ->
  hook_item cfg' ev i j = Some (PDict h).
Proof.
  intros W H I T.
  destruct (validate_hook_types_item _ _ _ _ W I) as (cfg1 & ch1 & x' & c & H1 & V & I' & _).
  rewrite H in H1. injection H1 as <- <-.
  now rewrite (validate_hook_type_command _ _ _ _ T V) in I'.
Qed.

Lemma dict_get_filter_keys (p : pystr -> bool) (d : pydict) k :
  p k = true -> dict_get (filter (fun ev => p (fst ev)) d) k = dict_get d k.
Proof.
  intro P. induction d as [|[k0 v0] d IH]; simpl; [reflexivity|].
  destruct (p k0) eqn:P0; simpl.
  - now rewrite IH.
  - destruct (str_eqb k0 k) eqn:E; [|exact IH].
    apply str_eqb_eq in E. congruence.
Qed.

Lemma remove_invalid_events_kept cfg :
  well_shaped cfg = true ->
  exists cfg' ch,
    migrate_remove_invalid_events cfg = Ok (cfg', ch)
    /\ well_shaped cfg' = true
    /\ forall ev i, str_mem ev VALID_EVENTS = true ->
         hook_group cfg' ev i = hook_group cfg ev i.
Proof.
  intro W. destruct (well_shaped_inv _ W) as (c & events & -> & G & Hev).
  unfold migrate_remove_invalid_events. py_step. rewrite G. py_step.
  eexists _, _. split; [reflexivity|]. split.
  - eapply well_shaped_intro; [apply dict_get_set_eq|].
    intros ev v I. apply filter_In in I as [I _]. eauto.
  - intros ev i V. simpl. rewrite dict_get_set_eq, G.
    rewrite <- (dict_get_filter_keys (fun e => str_mem e VALID_EVENTS) events ev V).
    reflexivity.
Qed.

Lemma run_migrations_raises cfg ev i j h :
  well_shaped cfg = true ->
  str_mem ev VALID_EVENTS = true ->
  hook_item cfg ev i j = Some (PDict h) ->
  relative_script h ->
  run_migrations cfg = Raise NameError.
Proof.
  intros W V I R.
  destruct (remove_invalid_events_kept _ W) as (cfg1 & ch1 & H1 & W1 & K1).
  assert (I1 : hook_item cfg1 ev i j = Some (PDict h))
    by (unfold hook_item; rewrite (K1 _ i V); exact I).
  destruct (@over_groups_returns (fun e => str_mem e LIFECYCLE_EVENTS) remove_empty_matcher
              cfg1 W1) as [[cfg2 ch2] H2].
  { intros. now apply remove_empty_matcher_returns. }
  pose proof (@over_groups_shape _ _ remove_empty_matcher_ok _ _ _ W1 H2) as W2.
  rewrite <- remove_empty_matchers_over in H2.
  pose proof (remove_empty_matchers_item _ _ _ _ H2 I1) as I2.
  destruct (@over_groups_returns (fun e => str_mem e TOOL_EVENTS) add_missing_matcher
              cfg2 W2) as [[cfg3 ch3] H3].
  { intros. now apply add_missing_matcher_returns. }
  pose proof (@over_groups_shape _ _ add_missing_matcher_ok _ _ _ W2 H3) as W3.
  rewrite <- add_missing_matchers_over in H3.
  pose proof (add_missing_matchers_item _ _ _ _ H3 I2) as I3.
  destruct (@over_groups_returns (fun _ => true) validate_hook_types_group cfg3 W3)
    as [[cfg4 ch4] H4].
  { intros. now apply validate_hook_types_group_returns. }
  pose proof (@over_groups_shape _ _ validate_hook_types_group_ok _ _ _ W3 H4) as W4.
  rewrite <- validate_hook_types_over in H4.
  assert (T : dict_get h "type" = Some (PStr "command"))
    by (destruct R as (? & ? & T & _); exact T).
  pose proof (validate_hook_types_command_item _ _ _ _ W3 H4 I3 T) as I4.
  unfold run_migrations. rewrite H1. cbn [bind]. rewrite H2. cbn [bind].
  rewrite H3. cbn [bind]. rewrite H4. cbn [bind].
  now rewrite (normalize_script_paths_raises _ _ _ _ W4 I4 R).
Qed.

End ShapeKept.

(** ** Regular expressions *)

#[global] Arguments star_loop : simpl never.
#[global] Arguments class_match : simpl never.
#[global] Arguments char_match : simpl never.

Section RegexFacts.

Context {rt : PyRuntime}.

Lemma star_loop_unfold step greedy n st :
  star_loop step greedy (S n) st =
  let more :=
    flat_map
      (fun st' =>
         if (length (rest st') <? length (rest st))%nat
         then star_loop step greedy n st'
         else [])
      (step st) in
  if greedy then more ++ [st] else st :: more.
Proof. reflexivity. Qed.

(** A repetition of one character class ends after a run of characters of
    the class. *)
Lemma star_class_sound fl k greedy n :
  forall st st',
    In st' (star_loop (run fl (RClass k)) greedy n st) ->
    exists p, rest st = p ++ rest st' /\ forallb (class_match k) p = true.
Proof.
  induction n as [|n IH]; intros st st' H.
  - destruct H as [<- | []]. exists []. auto.
  - rewrite star_loop_unfold in H. cbv zeta in H.
    assert (M : In st' (flat_map
               (fun st1 => if (length (rest st1) <? length (rest st))%nat
                           then star_loop (run fl (RClass k)) greedy n st1 else [])
               (run fl (RClass k) st)) \/ st' = st).
    { destruct greedy.
      - apply in_app_or in H as [H | [<- | []]]; auto.
      - destruct H as [<- | H]; auto. }
    destruct M as [M | ->]; [|exists []; auto].
    apply in_flat_map in M as (st1 & I1 & M). simpl in I1.
    destruct (rest st) as [|c s] eqn:R; [destruct I1|].
    destruct (class_match k c) eqn:C; [|destruct I1].
    destruct I1 as [<- | []]. simpl in M.
    destruct (length s <? S (length s))%nat; [|destruct M].
    destruct (IH _ _ M) as (p & Hp & Hall). simpl in Hp.
    exists (c :: p). simpl. rewrite C, Hall, Hp. auto.
Qed.


Lemma name_re_sound name m :
  re_match NOFLAGS name_re name = Some m ->
  exists p, (name = p \/ name = p ++ [10%N]) /\ forallb (class_match name_class) p = true.
Proof.
  unfold re_match, name_re, rseq, rplus. fold name_class. intro H.
  destruct (run NOFLAGS _ _) as [|m0 ms] eqn:R; [discriminate|]. clear H.
  assert (I : In m0 (m0 :: ms)) by now left. rewrite <- R in I. clear R.
  simpl in I. rewrite app_nil_r in I.
  apply in_flat_map in I as (st1 & I1 & I).
  apply in_flat_map in I1 as (st0 & I0 & I1).
  destruct name as [|c s]; [destruct I0|]. simpl in I0.
  destruct (class_match name_class c) eqn:C; [|destruct I0].
  destruct I0 as [<- | []].
  apply (@star_class_sound NOFLAGS name_class) in I1 as (p & Hp & Hall). simpl in Hp.
  exists (c :: p). simpl. rewrite C, Hall. split; [|reflexivity].
  destruct (rest st1) as [|x [|y r]].
  - left. rewrite Hp. now rewrite app_nil_r.
  - simpl in I. destruct (x =? 10)%N eqn:X; [|destruct I]. apply N.eqb_eq in X. subst x.
    right. now rewrite Hp.
  - destruct I.
Qed.


Lemma offending_not_name c :
  offending c = true -> class_match name_class c = false /\ c <> 10%N.
Proof.
  unfold offending, ascii_isupper, name_class, class_match. simpl. intro H.
  split.
  - repeat (apply orb_true_iff in H as [H | H]);
      rewrite ?andb_true_iff, ?N.leb_le, ?N.eqb_eq in H;
      repeat (apply orb_false_iff; split); try reflexivity;
      apply andb_false_iff; rewrite !N.leb_gt; lia.
  - intros ->. discriminate.
Qed.

Lemma name_re_rejects name c :
  In c name -> offending c = true -> re_match NOFLAGS name_re name = None.
Proof.
  intros I O. destruct (offending_not_name c O) as [C N10].
  destruct (re_match NOFLAGS name_re name) as [m|] eqn:M; [|reflexivity].
  exfalso. apply name_re_sound in M as (p & [-> | ->] & Hall).
  - rewrite forallb_forall in Hall. rewrite (Hall _ I) in C. discriminate.
  - apply in_app_or in I as [I | [<- | []]]; [|congruence].
    rewrite forallb_forall in Hall. rewrite (Hall _ I) in C. discriminate.
Qed.

Lemma search_from_found fl r s :
  (forall p, run fl r (start_state p s) <> []) ->
  forall a p, search_from fl r p (a ++ s) <> None.
Proof.
  intros Hs. induction a as [|c a IH]; intros p.
  - simpl. specialize (Hs p). destruct s; simpl;
      destruct (run fl r _); try discriminate; congruence.
  - simpl. destruct (run fl r _); [apply IH | discriminate].
Qed.

Lemma re_search_found fl r a s :
  (forall p, run fl r (start_state p s) <> []) -> re_search fl r (a ++ s) = true.
Proof.
  intro Hs. unfold re_search.
  pose proof (search_from_found fl r s Hs a None) as H.
  destruct (search_from fl r None (a ++ s)); congruence.
Qed.


Lemma eval_re_at fl p b :
  fl = NOFLAGS \/ fl = IGNORECASE ->
  run fl eval_re (start_state p (EVAL_ARGUMENTS ++ b)) <> [].
Proof. intros [-> | ->]; vm_compute; discriminate. Qed.

(** The pattern [eval\s+\$] finds the text [eval $ARGUMENTS] wherever it is. *)
Lemma eval_re_found fl a b :
  fl = NOFLAGS \/ fl = IGNORECASE ->
  re_search fl eval_re (a ++ EVAL_ARGUMENTS ++ b) = true.
Proof. intro F. apply re_search_found. intro p. now apply eval_re_at. Qed.



Lemma run_fence_at st post :
  rest st = FENCE ++ post ->
  run DOTALL (rlit FENCE) st = [{| prev := Some 96%N; rest := post; groups := groups st |}].
Proof. intro R. simpl. rewrite R. reflexivity. Qed.

Lemma run_fence_not st c s :
  rest st = c :: s -> (c =? 96)%N = false -> run DOTALL (rlit FENCE) st = [].
Proof. intros R C. simpl. rewrite R. unfold char_match. simpl. rewrite C. reflexivity. Qed.

Lemma run_any_dotall st c s :
  rest st = c :: s -> run DOTALL RAny st = [advance st c s].
Proof. intro R. simpl. rewrite R. reflexivity. Qed.

(** The lazy group of [bash_block_re] ends at the first fence when the text
    before it has no backquote. *)
Lemma lazy_until_fence (F : mstate -> mstate) post :
  (forall s, rest (F s) = rest s) ->
  forall todo st n,
    rest st = todo ++ FENCE ++ post ->
    no_backquote todo = true ->
    length (rest st) <= n ->
    exists st' more,
      flat_map (run DOTALL (rlit FENCE)) (map F (star_loop (run DOTALL RAny) false n st))
      = {| prev := Some 96%N; rest := post; groups := groups (F st') |} :: more
      /\ rest st' = FENCE ++ post /\ groups st' = groups st.
Proof.
  intros HF. induction todo as [|c todo IH]; intros st n R B L.
  - destruct n as [|n]; [rewrite R in L; simpl in L; lia|].
    rewrite star_loop_unfold. cbv zeta. cbn [map flat_map].
    rewrite (@run_fence_at (F st) post) by (rewrite HF; exact R).
    eexists st, _. split; [reflexivity|]. auto.
  - simpl in B. apply andb_true_iff in B as [C B]. apply negb_true_iff in C.
    change (rest st = c :: (todo ++ FENCE ++ post)) in R.
    destruct n as [|n]; [rewrite R in L; simpl in L; lia|].
    rewrite star_loop_unfold. cbv zeta. cbn [map flat_map].
    rewrite (@run_fence_not (F st) c (todo ++ FENCE ++ post)) by (rewrite ?HF; auto).
    rewrite (@run_any_dotall st c (todo ++ FENCE ++ post)) by exact R.
    cbn [app flat_map advance rest]. rewrite R. cbn [length].
    assert (P : (length (todo ++ FENCE ++ post) <? S (length (todo ++ FENCE ++ post)))%nat
                = true) by (apply Nat.ltb_lt; lia).
    rewrite P, app_nil_r.
    destruct (IH (advance st c (todo ++ FENCE ++ post)) n) as (st' & more & E & R' & G');
      auto.
    { rewrite R in L. simpl in *. lia. }
    exists st', more. auto.
Qed.


Lemma bash_block_prefix p (lang : pystr) x :
  lang = "bash" \/ lang = "sh" ->
  run DOTALL ValidateCommand.bash_block_re (start_state p (FENCE ++ lang ++ NL ++ x))
  = flat_map (run DOTALL (rlit FENCE))
      (run DOTALL (RGroup (RStar false RAny)) (block_start x)).
Proof.
  intro L.
  transitivity (((flat_map (run DOTALL (rlit FENCE))
                    (run DOTALL (RGroup (RStar false RAny)) (block_start x))
                  ++ []) ++ []) ++ []).
  - destruct L as [-> | ->]; reflexivity.
  - now rewrite !app_nil_r.
Qed.

Lemma firstn_app_exact {A} (a b : list A) : firstn (length (a ++ b) - length b) (a ++ b) = a.
Proof.
  rewrite length_app. replace (length a + length b - length b) with (length a) by lia.
  rewrite firstn_app, Nat.sub_diag, firstn_all. simpl. now rewrite app_nil_r.
Qed.

(** At an opening fence whose block has no backquote, the preferred match of
    [bash_block_re] captures the block and ends after the closing fence. *)
Lemma bash_block_at p (lang : pystr) code post :
  lang = "bash" \/ lang = "sh" ->
  no_backquote code = true ->
  exists st more,
    run DOTALL ValidateCommand.bash_block_re
      (start_state p (FENCE ++ lang ++ NL ++ code ++ FENCE ++ post)) = st :: more
    /\ last (groups st) [] = code /\ rest st = post.
Proof.
  intros L B. rewrite bash_block_prefix by exact L.
  set (st0 := block_start (code ++ FENCE ++ post)).
  set (F := fun st' : mstate =>
              {| prev := prev st'; rest := rest st';
                 groups := groups st' ++
                           [firstn (length (rest st0) - length (rest st')) (rest st0)] |}).
  change (run DOTALL (RGroup (RStar false RAny)) st0)
    with (map F (star_loop (run DOTALL RAny) false (length (code ++ FENCE ++ post)) st0)).
  destruct (@lazy_until_fence F post (fun _ => eq_refl) code st0
              (length (code ++ FENCE ++ post)))
    as (st' & more & E & R' & G'); [reflexivity | exact B | simpl; lia |].
  rewrite E. eexists _, more. split; [reflexivity|]. cbn [groups rest].
  split; [|reflexivity]. unfold F. cbn [groups]. rewrite G', R'.
  unfold st0. cbn [block_start rest groups app last].
  apply firstn_app_exact.
Qed.

Lemma bash_block_not_at p c s :
  (c =? 96)%N = false ->
  run DOTALL ValidateCommand.bash_block_re (start_state p (c :: s)) = [].
Proof.
  intro C. unfold ValidateCommand.bash_block_re, rseq. cbn [run].
  fold FENCE. rewrite (@run_fence_not (start_state p (c :: s)) c s) by auto.
  reflexivity.
Qed.

Lemma findall_bash_block (lang : pystr) code post :
  lang = "bash" \/ lang = "sh" ->
  no_backquote code = true ->
  forall pre fuel p,
    no_backquote pre = true ->
    length pre < fuel ->
    exists more,
      findall_from DOTALL ValidateCommand.bash_block_re fuel p
        (pre ++ FENCE ++ lang ++ NL ++ code ++ FENCE ++ post) = code :: more.
Proof.
  intros L B. induction pre as [|c pre IH]; intros fuel p Bp Lf.
  - destruct fuel as [|fuel]; [lia|].
    destruct (@bash_block_at p lang code post L B) as (st & more & E & G & R).
    cbn [app findall_from]. rewrite E, G. eexists. reflexivity.
  - destruct fuel as [|fuel]; [simpl in Lf; lia|].
    simpl in Bp. apply andb_true_iff in Bp as [C Bp]. apply negb_true_iff in C.
    cbn [app findall_from]. rewrite bash_block_not_at by exact C.
    apply IH; [exact Bp | simpl in Lf; lia].
Qed.

Lemma join_cons sep x l : exists tail, join sep (x :: l) = x ++ tail.
Proof. destruct l; simpl; [exists []; now rewrite app_nil_r | eexists; reflexivity]. Qed.


Lemma join_In sep l x : In x l -> exists p s, join sep l = p ++ x ++ s.
Proof.
  induction l as [|y l IH]; intros I; [destruct I|].
  destruct I as [-> | I].
  - destruct (join_cons sep x l) as [tail ->]. exists [], tail. reflexivity.
  - destruct (IH I) as (p & s & E). destruct l as [|z l]; [destruct I|].
    exists (y ++ sep ++ p), s.
    change (join sep (y :: z :: l)) with (y ++ sep ++ join sep (z :: l)).
    rewrite E. now rewrite <- !app_assoc.
Qed.

(** A block that no backquote precedes or is part of is the first block the
    pattern extracts. *)
Lemma fenced_in_shell_block body code : fenced body code -> in_shell_block body code.
Proof.
  intros (pre & lang & post & -> & L & Bp & Bc). unfold in_shell_block, re_findall.
  edestruct (@findall_bash_block lang code post L Bc pre) as [more ->];
    [exact Bp | | now left].
  rewrite length_app. lia.
Qed.

Lemma eval_in_extracted_block body a b :
  in_shell_block body (a ++ EVAL_ARGUMENTS ++ b) ->
  re_search IGNORECASE eval_re
    (join NL (re_findall DOTALL ValidateCommand.bash_block_re body)) = true.
Proof.
  intro I. destruct (join_In NL _ _ I) as (p & s & ->).
  replace (p ++ (a ++ EVAL_ARGUMENTS ++ b) ++ s)
    with ((p ++ a) ++ EVAL_ARGUMENTS ++ (b ++ s)) by now rewrite <- !app_assoc.
  apply eval_re_found. now right.
Qed.

End RegexFacts.

(** ** Reports only grow *)

Lemma when_critical c add r :
  (forall r, incl (critical_errors r) (critical_errors (add r))) ->
  incl (critical_errors r) (critical_errors (when c add r)).
Proof. intro H. destruct c; simpl; [apply H | apply incl_refl]. Qed.

Lemma add_critical_keeps r m : incl (critical_errors r) (critical_errors (add_critical r m)).
Proof. simpl. apply incl_appl, incl_refl. Qed.

Lemma add_warning_keeps r m : incl (critical_errors r) (critical_errors (add_warning r m)).
Proof. apply incl_refl. Qed.

Lemma add_recommendation_keeps r m :
  incl (critical_errors r) (critical_errors (add_recommendation r m)).
Proof. apply incl_refl. Qed.

Create HintDb report.

#[global] Hint Resolve when_critical add_critical_keeps add_warning_keeps
  add_recommendation_keeps incl_refl : report.

Lemma fold_left_keeps {A} (step : report -> A -> report) l :
  (forall r x, incl (critical_errors r) (critical_errors (step r x))) ->
  forall r, incl (critical_errors r) (critical_errors (fold_left step l r)).
Proof.
  intro H. induction l as [|x l IH]; intro r; simpl; [apply incl_refl|].
  eapply incl_tran; [apply H | apply IH].
Qed.

Lemma status_errors r m : In m (critical_errors r) -> status_of r = "errors".
Proof. unfold status_of. destruct (critical_errors r); [intros []|reflexivity]. Qed.

Lemma field_get d k ok v : field d k ok = true -> dict_get d k = Some v -> ok v = true.
Proof. unfold field. intros H G. now rewrite G in H. Qed.

Lemma typed_command_inv d :
  typed_command d = true ->
  field d "description" is_sized = true
  /\ field d "model" isinstance_str = true
  /\ field d "allowed-tools" is_sized = true.
Proof.
  unfold typed_command. intro H. apply andb_true_iff in H as [H H3].
  apply andb_true_iff in H as [H1 H2]. auto.
Qed.

Lemma contains_sized v k : is_sized v = true -> exists b, contains v k = Ok b.
Proof. destruct v; try discriminate; intros _; eexists; reflexivity. Qed.

(** ** audit-commands.py *)

Section AuditCommandsFacts.

Context {rt : PyRuntime}.

Import AuditCommands.

Lemma check_filename_rejects name c r :
  In c name -> offending c = true ->
  In ("Invalid filename: must be lowercase-hyphens only" : pystr)
     (critical_errors (check_filename name r)).
Proof.
  intros I O. unfold check_filename. rewrite (name_re_rejects name c I O).
  cbn [matched negb when].
  repeat match goal with
         | |- In _ (critical_errors (when ?c _ _)) =>
             apply when_critical; [auto with report|]
         end.
  simpl. apply in_or_app. right. now left.
Qed.

Lemma check_description_ok d r :
  field d "description" is_sized = true ->
  exists r', check_description (PDict d) r = Ok r'
    /\ incl (critical_errors r) (critical_errors r').
Proof.
  intro F. unfold check_description. py_step.
  destruct (dict_get d "description") as [desc|] eqn:G; py_step.
  - pose proof (field_get _ _ _ F G) as S.
    destruct desc; try discriminate; py_step;
      repeat match goal with
             | |- context [if ?c then _ else _] => destruct c
             end; eexists; split; try reflexivity; auto with report.
  - eexists. split; [reflexivity|]. auto with report.
Qed.


Lemma check_model_ok d r :
  field d "model" isinstance_str = true ->
  exists r', check_model (PDict d) r = Ok r'
    /\ incl (critical_errors r) (critical_errors r')
    /\ forall alias, dict_get d "model" = Some (PStr alias) ->
         str_mem alias short_aliases = true ->
         In (short_alias_finding alias) (critical_errors r').
Proof.
  intro F. unfold check_model. py_step.
  destruct (dict_get d "model") as [model|] eqn:G; py_step.
  - pose proof (field_get _ _ _ F G) as S. destruct model; try discriminate.
    destruct (in_strs (PStr s) short_aliases) eqn:A; py_step.
    + eexists. split; [reflexivity|]. split; [auto with report|].
      intros alias E _. injection E as ->. simpl. apply in_or_app. right. now left.
    + destruct (startswith s "claude-"); simpl; eexists; (split; [reflexivity|]);
        (split; [auto with report|]); intros alias E M; injection E as ->;
        change (str_mem alias short_aliases = false) in A; congruence.
  - eexists. split; [reflexivity|]. split; [auto with report|]. discriminate.
Qed.

Lemma check_tools_ok d body r :
  exists r', check_tools (PDict d) body r = Ok r'
    /\ incl (critical_errors r) (critical_errors r').
Proof.
  unfold check_tools. py_step.
  destruct (dict_get d "allowed-tools") as [tools|]; py_step;
    [|eexists; split; [reflexivity | auto with report]].
  destruct tools; eexists; (split; [reflexivity|]); auto with report.
  eapply incl_tran; [|apply when_critical; auto with report].
  apply fold_left_keeps. intros. auto with report.
Qed.


Lemma eval_not_empty a b : a ++ EVAL_ARGUMENTS ++ b <> [].
Proof. destruct a; discriminate. Qed.

Lemma check_body_ok d body r :
  field d "allowed-tools" is_sized = true ->
  exists r', check_body (PDict d) body r = Ok r'
    /\ incl (critical_errors r) (critical_errors r')
    /\ (declares_bash d ->
        (exists a b, body = a ++ EVAL_ARGUMENTS ++ b) ->
        In ("SECURITY: Using eval with arguments is dangerous" : pystr) (critical_errors r')).
Proof.
  intro F. unfold check_body, declares_bash.
  destruct body as [|c0 body0] eqn:Eb.
  - eexists. split; [reflexivity|]. split; [auto with report|].
    intros _ (a & b & E). symmetry in E. now apply eval_not_empty in E.
  - rewrite <- Eb. clear Eb c0 body0.
    match goal with
    | |- context [bind ?m _] =>
        assert (R1 : exists r1, m = Ok r1 /\ incl (critical_errors r) (critical_errors r1))
    end.
    { destruct (re_search NOFLAGS positional_re body || str_in "$ARGUMENTS" body);
        [|eexists; split; [reflexivity | auto with report]].
      py_step. eexists. split; [reflexivity|].
      eapply incl_tran; apply when_critical; auto with report. }
    destruct R1 as (r1 & -> & I1). cbv beta iota delta [bind get_default].
    assert (S : is_sized match dict_get d "allowed-tools" with
                         | Some v => v | None => PStr "" end = true).
    { unfold field in F. destruct (dict_get d "allowed-tools"); auto. }
    destruct (contains_sized _ "Bash" S) as [has_bash Hb].
    rewrite Hb.
    destruct has_bash.
    + eexists. split; [reflexivity|]. split.
      * eapply incl_tran; [exact I1|]. apply fold_left_keeps. intros. auto with report.
      * intros _ (a & b & ->). cbn [fold_left dangerous_patterns fst snd].
        rewrite eval_re_found by now left. simpl. apply in_or_app. right. now left.
    + eexists. split; [reflexivity|]. split; [exact I1|]. discriminate.
Qed.

Lemma validate_command_parsed f d body :
  parse_command f = Ok (Parsed (PDict d) body) ->
  typed_command d = true ->
  exists r,
    validate_command f = Ok (status_of r, r)
    /\ incl (critical_errors (check_filename (file_stem f) no_findings)) (critical_errors r)
    /\ (forall alias, dict_get d "model" = Some (PStr alias) ->
          str_mem alias short_aliases = true ->
          In (short_alias_finding alias) (critical_errors r))
    /\ (declares_bash d ->
        (exists a b, body = a ++ EVAL_ARGUMENTS ++ b) ->
        In ("SECURITY: Using eval with arguments is dangerous" : pystr) (critical_errors r)).
Proof.
  intros P T. destruct (typed_command_inv _ T) as (T1 & T2 & T3).
  unfold validate_command. rewrite P. py_step.
  destruct (@check_description_ok d (check_filename (file_stem f) no_findings) T1)
    as (r1 & -> & I1). py_step.
  destruct (@check_model_ok d r1 T2) as (r2 & -> & I2 & M2). py_step.
  destruct (@check_tools_ok d body r2) as (r3 & -> & I3). py_step.
  destruct (@check_body_ok d body r3 T3) as (r4 & -> & I4 & E4). py_step.
  exists r4. split; [reflexivity|]. split; [|split].
  - eauto using incl_tran.
  - intros alias G A. apply I4, I3. now apply M2.
  - exact E4.
Qed.

End AuditCommandsFacts.

(** ** validate-command.py *)

Section ValidateCommandFacts.

Context {rt : PyRuntime}.

Import ValidateCommand.

Lemma add_keeps errors c m : incl errors (add errors c m).
Proof. destruct c; simpl; [apply incl_appl|]; apply incl_refl. Qed.

Lemma fold_left_add_keeps {A} (step : list pystr -> A -> list pystr) l :
  (forall e x, incl e (step e x)) ->
  forall e, incl e (fold_left step l e).
Proof.
  intro H. induction l as [|x l IH]; intro e; simpl; [apply incl_refl|].
  eapply incl_tran; [apply H | apply IH].
Qed.


Lemma vc_check_filename_rejects name c errors :
  In c name -> offending c = true ->
  In (invalid_filename name) (check_filename name errors).
Proof.
  intros I O. unfold check_filename. rewrite (name_re_rejects name c I O).
  cbn [matched negb]. do 2 apply add_keeps. simpl. apply in_or_app. right. now left.
Qed.

Lemma vc_check_description_ok d errors :
  field d "description" is_sized = true ->
  exists e', check_description (PDict d) errors = Ok e' /\ incl errors e'.
Proof.
  intro F. unfold check_description. py_step.
  destruct (dict_get d "description") as [desc|] eqn:G; py_step.
  - pose proof (field_get _ _ _ F G) as S.
    destruct desc; try discriminate; py_step; eexists; (split; [reflexivity|]);
      apply add_keeps.
  - eexists. split; [reflexivity|]. apply incl_appl, incl_refl.
Qed.

Lemma vc_check_tools_ok d errors :
  exists e', check_tools (PDict d) errors = Ok e' /\ incl errors e'.
Proof.
  unfold check_tools. py_step.
  destruct (dict_get d "allowed-tools") as [tools|]; py_step;
    [|eexists; split; [reflexivity | apply incl_refl]].
  destruct tools; eexists; (split; [reflexivity|]); try apply incl_refl.
  apply fold_left_add_keeps. intros. apply add_keeps.
Qed.


Lemma vc_check_model_ok path d errors :
  field d "model" isinstance_str = true ->
  exists e', check_model path (PDict d) errors = Ok e' /\ incl errors e'
    /\ forall alias, dict_get d "model" = Some (PStr alias) ->
         str_mem alias short_aliases = true ->
         In (short_alias_error path alias (suggested_version alias)) e'.
Proof.
  intro F. unfold check_model. py_step.
  destruct (dict_get d "model") as [model|] eqn:G; py_step.
  - pose proof (field_get _ _ _ F G) as S. destruct model; try discriminate.
    destruct (in_strs (PStr s) short_aliases) eqn:A; py_step.
    + unfold lookup_alias. py_step.
      eexists. split; [reflexivity|]. split; [apply incl_appl, incl_refl|].
      intros alias E _. injection E as ->. apply in_or_app. right.
      unfold suggested_version, py_str.
      left. f_equal. unfold version_alias_map. cbv [find fst snd].
      repeat match goal with
             | |- context [str_eqb ?a alias] => destruct (str_eqb a alias)
             end; reflexivity.
    + eexists. split; [reflexivity|]. split; [apply add_keeps|].
      intros alias E M. injection E as ->.
      change (str_mem alias short_aliases = false) in A. congruence.
  - eexists. split; [reflexivity|]. split; [apply incl_refl|]. discriminate.
Qed.

Lemma vc_check_argument_hint_ok d errors :
  exists e', check_argument_hint (PDict d) errors = Ok e' /\ incl errors e'.
Proof.
  unfold check_argument_hint. py_step.
  destruct (dict_get d "argument-hint"); py_step; eexists; (split; [reflexivity|]);
    [apply add_keeps | apply incl_refl].
Qed.

Lemma vc_check_documentation_ok d body errors :
  exists e', check_documentation (PDict d) body errors = Ok e' /\ incl errors e'.
Proof.
  unfold check_documentation.
  destruct (re_search NOFLAGS positional_re body || str_in "$ARGUMENTS" body); py_step;
    eexists; (split; [reflexivity|]);
    repeat (eapply incl_tran; [|apply add_keeps]); apply incl_refl.
Qed.


Lemma vc_check_security_ok d body errors :
  field d "allowed-tools" is_sized = true ->
  exists e', check_security (PDict d) body errors = Ok e' /\ incl errors e'
    /\ (declares_bash d ->
        (exists a b, in_shell_block body (a ++ EVAL_ARGUMENTS ++ b)) ->
        In eval_finding e').
Proof.
  intro F. unfold check_security, declares_bash.
  cbv beta iota delta [bind get_default].
  assert (S : is_sized match dict_get d "allowed-tools" with
                       | Some v => v | None => PStr "" end = true).
  { unfold field in F. destruct (dict_get d "allowed-tools"); auto. }
  destruct (contains_sized _ "Bash" S) as [has_bash Hb]. rewrite Hb.
  destruct has_bash.
  - eexists. split; [reflexivity|]. split.
    + repeat (eapply incl_tran; [|apply fold_left_add_keeps; intros; apply add_keeps]).
      apply incl_refl.
    + intros _ (a & b & Fb).
      do 2 (apply fold_left_add_keeps; [intros; apply add_keeps|]).
      cbn [fold_left critical_patterns fst snd].
      rewrite (@eval_in_extracted_block _ body a b Fb).
      do 4 apply add_keeps. simpl. apply in_or_app. right. now left.
  - eexists. split; [reflexivity|]. split; [apply incl_refl|]. discriminate.
Qed.

Lemma not_valid errors m :
  In m errors -> is_critical m = true ->
  match filter is_critical errors with [] => true | _ => false end = false.
Proof.
  intros I C. assert (F : In m (filter is_critical errors)) by now apply filter_In.
  destruct (filter is_critical errors); [destruct F | reflexivity].
Qed.


Lemma vc_validate_command_decoded f d body :
  decodes f d body ->
  typed_command d = true ->
  exists errors,
    validate_command f
    = Ok (match filter is_critical errors with [] => true | _ => false end, errors)
    /\ incl (check_filename (file_stem f) []) errors
    /\ (forall alias, dict_get d "model" = Some (PStr alias) ->
          str_mem alias short_aliases = true ->
          In (short_alias_error (file_path f) alias (suggested_version alias)) errors)
    /\ (declares_bash d ->
        (exists a b, in_shell_block body (a ++ EVAL_ARGUMENTS ++ b)) ->
        In eval_finding errors).
Proof.
  intros (X & content & m & R & M & Y & B) T.
  destruct (typed_command_inv _ T) as (T1 & T2 & T3).
  unfold validate_command. rewrite X, R, M, Y. cbn [negb].
  destruct (@vc_check_description_ok d (check_filename (file_stem f) []) T1)
    as (e1 & -> & I1). py_step.
  destruct (@vc_check_tools_ok d e1) as (e2 & -> & I2). py_step.
  destruct (@vc_check_model_ok (file_path f) d e2 T2) as (e3 & -> & I3 & M3). py_step.
  destruct (@vc_check_argument_hint_ok d e3) as (e4 & -> & I4). py_step.
  destruct (@vc_check_documentation_ok d (rest m) e4) as (e5 & -> & I5). py_step.
  destruct (@vc_check_security_ok d (rest m) e5 T3) as (e6 & -> & I6 & S6). py_step.
  exists e6. split; [reflexivity|]. split; [|split].
  - eauto 10 using incl_tran.
  - intros alias G A. apply I6, I5, I4. now apply M3.
  - rewrite <- B. exact S6.
Qed.

End ValidateCommandFacts.

(** ** audit-skills.py and migrate-skill.py *)

Section SkillFacts.

Context {rt : PyRuntime}.

Import AuditSkills.

Lemma check_directory_name_rejects name c r :
  In c name -> offending c = true ->
  In ("Invalid directory name: must be lowercase-hyphens only" : pystr)
     (critical_errors (check_directory_name name r)).
Proof.
  intros I O. unfold check_directory_name. rewrite (name_re_rejects name c I O).
  cbn [matched negb when].
  repeat match goal with
         | |- In _ (critical_errors (when ?c _ _)) =>
             apply when_critical; [auto with report|]
         end.
  simpl. apply in_or_app. right. now left.
Qed.

Lemma check_name_ok name d r :
  exists r', check_name name (PDict d) r = Ok r'
    /\ incl (critical_errors r) (critical_errors r').
Proof.
  unfold check_name. py_step.
  destruct (dict_get d "name"); py_step; eexists; (split; [reflexivity|]);
    auto with report.
Qed.

Lemma skill_check_description_ok d r :
  field d "description" isinstance_str = true ->
  exists r', check_description (PDict d) r = Ok r'
    /\ incl (critical_errors r) (critical_errors r').
Proof.
  intro F. unfold check_description. py_step.
  destruct (dict_get d "description") as [desc|] eqn:G; py_step.
  - pose proof (field_get _ _ _ F G) as S. destruct desc; try discriminate. py_step.
    eexists. split; [reflexivity|].
    eapply incl_tran; [|apply when_critical; auto with report].
    repeat match goal with
           | |- context [if ?c then _ else _] => destruct c
           end; auto with report.
  - eexists. split; [reflexivity|]. auto with report.
Qed.

Lemma skill_check_model_ok name d r :
  exists r', check_model name (PDict d) r = Ok r'
    /\ incl (critical_errors r) (critical_errors r')
    /\ (dict_has d "model" = true -> In (model_error name) (critical_errors r')).
Proof.
  unfold check_model. cbv beta iota delta [bind contains].
  eexists. split; [reflexivity|]. split; [auto with report|].
  intros ->. simpl. apply in_or_app. right. now left.
Qed.

Lemma check_version_ok d r :
  exists r', check_version (PDict d) r = Ok r'
    /\ incl (critical_errors r) (critical_errors r').
Proof.
  unfold check_version. py_step.
  destruct (dict_get d "version"); py_step; eexists; (split; [reflexivity|]);
    auto with report.
Qed.

Lemma skill_check_tools_ok d body r :
  exists r', check_tools (PDict d) body r = Ok r'
    /\ incl (critical_errors r) (critical_errors r').
Proof.
  unfold check_tools. py_step.
  destruct (dict_get d "allowed-tools") as [tools|]; py_step;
    [|eexists; split; [reflexivity | auto with report]].
  destruct tools; eexists; (split; [reflexivity|]); auto with report.
  eapply incl_tran; [|apply when_critical; auto with report].
  apply fold_left_keeps. intros. auto with report.
Qed.

Lemma check_resources_keeps sd body r :
  incl (critical_errors r) (critical_errors (check_resources sd body r)).
Proof.
  unfold check_resources, not_executable.
  destruct (has_scripts sd).
  - eapply incl_tran; [|apply fold_left_keeps; intros; auto with report].
    eapply incl_tran; [|apply fold_left_keeps; intros; auto with report].
    auto with report.
  - auto with report.
Qed.

Lemma check_structure_keeps body r :
  incl (critical_errors r) (critical_errors (check_structure body r)).
Proof.
  unfold check_structure. destruct body; [apply incl_refl|].
  eapply incl_tran; apply when_critical; auto with report.
Qed.

Lemma validate_skill_parsed sd d body :
  parse_skill sd = Ok (Parsed (PDict d) body) ->
  typed_skill d = true ->
  exists r,
    validate_skill sd = Ok (status_of r, r)
    /\ incl (critical_errors (check_directory_name (skill_name sd) no_findings))
            (critical_errors r)
    /\ (dict_has d "model" = true -> In (model_error (skill_name sd)) (critical_errors r)).
Proof.
  intros P T. unfold validate_skill. rewrite P. py_step.
  destruct (@check_name_ok (skill_name sd) d (check_directory_name (skill_name sd) no_findings))
    as (r1 & -> & I1). py_step.
  destruct (@skill_check_description_ok d r1 T) as (r2 & -> & I2). py_step.
  destruct (@skill_check_model_ok (skill_name sd) d r2) as (r3 & -> & I3 & M3). py_step.
  destruct (@check_version_ok d r3) as (r4 & -> & I4). py_step.
  destruct (@skill_check_tools_ok d body r4) as (r5 & -> & I5). py_step.
  eexists. split; [reflexivity|].
  assert (K : incl (critical_errors r5)
                (critical_errors (check_structure body (check_resources sd body r5)))).
  { eapply incl_tran; [apply check_resources_keeps | apply check_structure_keeps]. }
  split.
  - eauto 10 using incl_tran.
  - intro M. apply K, I5, I4. now apply M3.
Qed.

Import MigrateSkill.


Lemma remove_model_field_dict d :
  migrate_remove_model_field (PDict d) =
  match dict_get d "model" with
  | Some old_value => Ok (PDict (dict_del d "model"), [removed_model old_value])
  | None => Ok (PDict d, [])
  end.
Proof.
  unfold migrate_remove_model_field. py_step.
  destruct (dict_get d "model"); reflexivity.
Qed.

Lemma removed_model_critical v :
  startswith (removed_model v) "CRITICAL" = true
  /\ startswith (removed_model v) "RECOMMENDATION" = false.
Proof. split; reflexivity. Qed.

Lemma gerund_recommendation_out f name f' ch :
  migrate_gerund_form_recommendation f name = Ok (f', ch) ->
  f' = f /\ forall m, In m ch -> startswith m "CRITICAL" = false.
Proof.
  unfold migrate_gerund_form_recommendation. intro H.
  apply bind_ok in H as (n & _ & H). apply bind_ok in H as (s & _ & H).
  destruct (_ && _); injection H as <- <-; (split; [reflexivity|]).
  - intros m [<- | []]. reflexivity.
  - intros m [].
Qed.

Lemma description_triggers_out f f' ch :
  migrate_description_triggers f = Ok (f', ch) ->
  f' = f /\ forall m, In m ch -> startswith m "CRITICAL" = false.
Proof.
  unfold migrate_description_triggers. intro H.
  apply bind_ok in H as (n & _ & H). apply bind_ok in H as (c & _ & H).
  destruct c; injection H as <- <-; (split; [reflexivity|]).
  - intros m [<- | []]. reflexivity.
  - intros m [].
Qed.

End SkillFacts.

(** ** A description without a length *)

Section UnsizedDescription.

Context {rt : PyRuntime}.

Lemma audit_description_unsized d v r :
  dict_get d "description" = Some v -> is_sized v = false ->
  AuditCommands.check_description (PDict d) r = Raise TypeError.
Proof.
  intros G S. unfold AuditCommands.check_description. py_step. rewrite G. py_step.
  destruct v; try discriminate; reflexivity.
Qed.

Lemma audit_validate_unsized f d body v :
  AuditCommands.parse_command f = Ok (AuditCommands.Parsed (PDict d) body) ->
  dict_get d "description" = Some v -> is_sized v = false ->
  AuditCommands.validate_command f = Raise TypeError.
Proof.
  intros P G S. unfold AuditCommands.validate_command. rewrite P. py_step.
  now rewrite (audit_description_unsized _ _ G S).
Qed.

Lemma vc_description_unsized d v errors :
  dict_get d "description" = Some v -> is_sized v = false ->
  ValidateCommand.check_description (PDict d) errors = Raise TypeError.
Proof.
  intros G S. unfold ValidateCommand.check_description. py_step. rewrite G. py_step.
  destruct v; try discriminate; reflexivity.
Qed.

Lemma vc_validate_unsized f d body v :
  decodes f d body ->
  dict_get d "description" = Some v -> is_sized v = false ->
  ValidateCommand.validate_command f = Raise TypeError.
Proof.
  intros (X & content & m & R & M & Y & B) G S.
  unfold ValidateCommand.validate_command. rewrite X, R, M, Y. cbn [negb].
  now rewrite (vc_description_unsized _ _ G S).
Qed.

Lemma skill_description_not_text d v r :
  dict_get d "description" = Some v -> isinstance_str v = false ->
  AuditSkills.check_description (PDict d) r
  = Raise (if is_sized v then AttributeError else TypeError).
Proof.
  intros G S. unfold AuditSkills.check_description. py_step. rewrite G. py_step.
  destruct v; try discriminate; reflexivity.
Qed.

Lemma skill_validate_not_text sd d body v :
  AuditSkills.parse_skill sd = Ok (AuditSkills.Parsed (PDict d) body) ->
  dict_get d "description" = Some v -> isinstance_str v = false ->
  AuditSkills.validate_skill sd
  = Raise (if is_sized v then AttributeError else TypeError).
Proof.
  intros P G S. unfold AuditSkills.validate_skill. rewrite P. py_step.
  destruct (@check_name_ok _ (skill_name sd) d
              (AuditSkills.check_directory_name (skill_name sd) no_findings))
    as (r1 & -> & _). py_step.
  now rewrite (skill_description_not_text _ _ G S).
Qed.

End UnsizedDescription.

(** ** Without [Bash], no security finding *)

Lemma no_security_app l m :
  no_security_finding l -> security_finding m = false -> no_security_finding (l ++ [m]).
Proof.
  intros H S x I. apply in_app_or in I as [I | [<- | []]]; auto.
Qed.

Lemma no_security_perm l l' :
  (forall m, In m l' -> In m l) -> no_security_finding l -> no_security_finding l'.
Proof. intros P H m I. auto. Qed.

Lemma quiet_add_critical r m :
  no_security_finding (findings r) -> security_finding m = false ->
  no_security_finding (findings (add_critical r m)).
Proof.
  intros H S x I. unfold findings in *. cbn [add_critical critical_errors warnings
    recommendations] in I.
  repeat (apply in_app_or in I as [I | I]); try destruct I as [<- | []]; auto;
    apply H; repeat (apply in_or_app; auto; right); auto.
Qed.

Lemma quiet_add_warning r m :
  no_security_finding (findings r) -> security_finding m = false ->
  no_security_finding (findings (add_warning r m)).
Proof.
  intros H S x I. unfold findings in *. cbn [add_warning critical_errors warnings
    recommendations] in I.
  repeat (apply in_app_or in I as [I | I]); try destruct I as [<- | []]; auto;
    apply H; repeat (apply in_or_app; auto; right); auto.
Qed.

Lemma quiet_add_recommendation r m :
  no_security_finding (findings r) -> security_finding m = false ->
  no_security_finding (findings (add_recommendation r m)).
Proof.
  intros H S x I. unfold findings in *. cbn [add_recommendation critical_errors warnings
    recommendations] in I.
  repeat (apply in_app_or in I as [I | I]); try destruct I as [<- | []]; auto;
    apply H; repeat (apply in_or_app; auto; right); auto.
Qed.

Lemma quiet_when c f r :
  (forall r, no_security_finding (findings r) -> no_security_finding (findings (f r))) ->
  no_security_finding (findings r) -> no_security_finding (findings (when c f r)).
Proof. intros H Q. destruct c; simpl; auto. Qed.

Lemma quiet_fold_left {A} (step : report -> A -> report) l :
  (forall r x, no_security_finding (findings r) -> no_security_finding (findings (step r x))) ->
  forall r, no_security_finding (findings r) ->
       no_security_finding (findings (fold_left step l r)).
Proof. intro H. induction l as [|x l IH]; intros r Q; simpl; auto. Qed.

Ltac quiet :=
  repeat first
    [ assumption
    | apply quiet_when; [intros ? ?|]
    | apply quiet_add_critical
    | apply quiet_add_warning
    | apply quiet_add_recommendation
    | apply quiet_fold_left; [intros ? ? ?|]
    | reflexivity ].

Section AuditCommandsQuiet.

Context {rt : PyRuntime}.

Import AuditCommands.

Lemma no_findings_quiet : no_security_finding (findings no_findings).
Proof. intros m []. Qed.

Lemma check_filename_quiet name r :
  no_security_finding (findings r) -> no_security_finding (findings (check_filename name r)).
Proof. intro Q. unfold check_filename. quiet. Qed.

Lemma check_description_quiet fm r r' :
  check_description fm r = Ok r' ->
  no_security_finding (findings r) -> no_security_finding (findings r').
Proof.
  unfold check_description. intros H Q.
  apply bind_ok in H as (has & _ & H). destruct has; cbn [negb] in H.
  - apply bind_ok in H as (desc & _ & H). apply bind_ok in H as (n & _ & H).
    destruct (n <? 10)%nat; [|destruct (200 <? n)%nat]; injection H as <-; quiet.
  - injection H as <-. quiet.
Qed.

Lemma check_model_quiet fm r r' :
  check_model fm r = Ok r' ->
  no_security_finding (findings r) -> no_security_finding (findings r').
Proof.
  unfold check_model. intros H Q.
  apply bind_ok in H as (has & _ & H). destruct has; [|injection H as <-; quiet].
  apply bind_ok in H as (model & _ & H).
  destruct (in_strs model short_aliases); [injection H as <-; quiet|].
  apply bind_ok in H as (s & _ & H).
  destruct (negb (startswith s "claude-")); injection H as <-; quiet.
Qed.

Lemma check_tools_quiet fm body r r' :
  check_tools fm body r = Ok r' ->
  no_security_finding (findings r) -> no_security_finding (findings r').
Proof.
  unfold check_tools. intros H Q.
  apply bind_ok in H as (has & _ & H). destruct has; [|injection H as <-; quiet].
  apply bind_ok in H as (tools & _ & H).
  destruct tools; injection H as <-; quiet.
Qed.

Lemma check_body_quiet d body r r' :
  lacks_bash d ->
  check_body (PDict d) body r = Ok r' ->
  no_security_finding (findings r) -> no_security_finding (findings r').
Proof.
  unfold check_body, lacks_bash. intros L H Q.
  destruct body as [|c body]; [injection H as <-; quiet|].
  apply bind_ok in H as (r1 & H1 & H).
  assert (Q1 : no_security_finding (findings r1)).
  { destruct (_ || _); [|injection H1 as <-; quiet].
    apply bind_ok in H1 as (has_hint & _ & H1). injection H1 as <-. quiet. }
  cbv beta iota delta [bind get_default] in H. rewrite L in H.
  injection H as <-. exact Q1.
Qed.

Lemma validate_command_quiet f d body status r :
  parse_command f = Ok (Parsed (PDict d) body) ->
  lacks_bash d ->
  validate_command f = Ok (status, r) ->
  no_security_finding (findings r).
Proof.
  intros P L H. unfold validate_command in H. rewrite P in H. py_step_in H.
  apply bind_ok in H as (r1 & H1 & H). apply bind_ok in H as (r2 & H2 & H).
  apply bind_ok in H as (r3 & H3 & H). apply bind_ok in H as (r4 & H4 & H).
  injection H as _ <-.
  eapply check_body_quiet; [exact L | exact H4 |].
  eapply check_tools_quiet; [exact H3|]. eapply check_model_quiet; [exact H2|].
  eapply check_description_quiet; [exact H1|].
  apply check_filename_quiet, no_findings_quiet.
Qed.

End AuditCommandsQuiet.

Lemma vc_add_quiet errors c m :
  no_security_finding errors -> security_finding m = false ->
  no_security_finding (ValidateCommand.add errors c m).
Proof. intros Q S. destruct c; simpl; [now apply no_security_app | exact Q]. Qed.

Ltac quiet_list :=
  repeat first
    [ assumption
    | apply vc_add_quiet
    | apply no_security_app
    | reflexivity ].

Section ValidateCommandQuiet.

Context {rt : PyRuntime}.

Import ValidateCommand.

Lemma vc_fold_left_quiet {A} (step : list pystr -> A -> list pystr) l :
  (forall e x, no_security_finding e -> no_security_finding (step e x)) ->
  forall e, no_security_finding e -> no_security_finding (fold_left step l e).
Proof. intro H. induction l as [|x l IH]; intros e Q; simpl; auto. Qed.

Lemma vc_check_filename_quiet name errors :
  no_security_finding errors -> no_security_finding (check_filename name errors).
Proof. intro Q. unfold check_filename. cbv zeta. quiet_list. Qed.

Lemma vc_check_description_quiet fm errors e' :
  check_description fm errors = Ok e' ->
  no_security_finding errors -> no_security_finding e'.
Proof.
  unfold check_description. intros H Q.
  apply bind_ok in H as (has & _ & H). destruct has; cbn [negb] in H.
  - apply bind_ok in H as (desc & _ & H). apply bind_ok in H as (n & _ & H).
    injection H as <-. quiet_list.
  - injection H as <-. quiet_list.
Qed.

Lemma vc_check_tools_quiet fm errors e' :
  check_tools fm errors = Ok e' ->
  no_security_finding errors -> no_security_finding e'.
Proof.
  unfold check_tools. intros H Q.
  apply bind_ok in H as (has & _ & H). destruct has; [|injection H as <-; exact Q].
  apply bind_ok in H as (tools & _ & H).
  destruct tools; injection H as <-; try exact Q.
  apply vc_fold_left_quiet; [|exact Q]. intros e x Qe. quiet_list.
Qed.

Lemma vc_check_model_quiet path fm errors e' :
  check_model path fm errors = Ok e' ->
  no_security_finding errors -> no_security_finding e'.
Proof.
  unfold check_model. intros H Q.
  apply bind_ok in H as (has & _ & H). destruct has; [|injection H as <-; exact Q].
  apply bind_ok in H as (model & _ & H).
  destruct (in_strs model short_aliases).
  - apply bind_ok in H as (hit & _ & H). injection H as <-. quiet_list.
  - apply bind_ok in H as (s & _ & H). injection H as <-. quiet_list.
Qed.

Lemma vc_check_argument_hint_quiet fm errors e' :
  check_argument_hint fm errors = Ok e' ->
  no_security_finding errors -> no_security_finding e'.
Proof.
  unfold check_argument_hint. intros H Q.
  apply bind_ok in H as (has & _ & H). destruct has; [|injection H as <-; exact Q].
  apply bind_ok in H as (hint & _ & H). injection H as <-. quiet_list.
Qed.

Lemma vc_check_documentation_quiet fm body errors e' :
  check_documentation fm body errors = Ok e' ->
  no_security_finding errors -> no_security_finding e'.
Proof.
  unfold check_documentation. intros H Q.
  apply bind_ok in H as (e1 & H1 & H). injection H as <-.
  assert (Q1 : no_security_finding e1).
  { destruct (_ || _); [|injection H1 as <-; exact Q].
    apply bind_ok in H1 as (has_hint & _ & H1). injection H1 as <-. quiet_list. }
  quiet_list.
Qed.

Lemma vc_check_security_quiet d body errors e' :
  lacks_bash d ->
  check_security (PDict d) body errors = Ok e' ->
  no_security_finding errors -> no_security_finding e'.
Proof.
  unfold check_security, lacks_bash. intros L H Q.
  cbv beta iota delta [bind get_default] in H. rewrite L in H.
  injection H as <-. exact Q.
Qed.

Lemma vc_validate_command_quiet f d body valid errors :
  decodes f d body ->
  lacks_bash d ->
  validate_command f = Ok (valid, errors) ->
  no_security_finding errors.
Proof.
  intros (X & content & m & R & M & Y & B) L H.
  unfold validate_command in H. rewrite X, R, M, Y in H. cbn [negb] in H.
  apply bind_ok in H as (e1 & H1 & H). apply bind_ok in H as (e2 & H2 & H).
  apply bind_ok in H as (e3 & H3 & H). apply bind_ok in H as (e4 & H4 & H).
  apply bind_ok in H as (e5 & H5 & H). apply bind_ok in H as (e6 & H6 & H).
  injection H as _ <-.
  eapply vc_check_security_quiet; [exact L | exact H6 |].
  eapply vc_check_documentation_quiet; [exact H5|].
  eapply vc_check_argument_hint_quiet; [exact H4|].
  eapply vc_check_model_quiet; [exact H3|].
  eapply vc_check_tools_quiet; [exact H2|].
  eapply vc_check_description_quiet; [exact H1|].
  apply vc_check_filename_quiet. intros x [].
Qed.

End ValidateCommandQuiet.

(** ** Paths *)

Lemma rfind_app c a b :
  rfind c (a ++ b)
  = match rfind c b with
    | Some i => Some (length a + i)%nat
    | None => rfind c a
    end.
Proof.
  induction a as [|x a IH]; simpl.
  - now destruct (rfind c b).
  - rewrite IH. now destruct (rfind c b).
Qed.

Lemma rfind_absent c s : str_in [c] s = false -> rfind c s = None.
Proof.
  induction s as [|x s IH]; intro H; [reflexivity|].
  unfold str_in in H; fold str_in in H. apply orb_false_iff in H as [H1 H2].
  unfold startswith in H1. rewrite andb_true_r in H1.
  simpl. rewrite (IH H2). rewrite N.eqb_sym, H1. reflexivity.
Qed.

(** The suffix of [x.md] is [.md] when [x] is not empty. *)
Lemma name_suffix_md (x : pystr) : x <> [] -> name_suffix (x ++ ".md") = ".md".
Proof.
  intro Nx. unfold name_suffix. rewrite rfind_app.
  change (rfind 46 ".md") with (Some 0%nat). cbv beta iota.
  rewrite Nat.add_0_r, length_app.
  change (length (".md" : pystr)) with 3%nat.
  destruct x as [|c x]; [now elim Nx|].
  replace (0 <? length (c :: x))%nat with true by (symmetry; apply Nat.ltb_lt; simpl; lia).
  replace (length (c :: x) <? length (c :: x) + 3 - 1)%nat with true
    by (symmetry; apply Nat.ltb_lt; lia).
  cbn [andb]. rewrite skipn_app, skipn_all, Nat.sub_diag. reflexivity.
Qed.

Lemma path_name_md (dir x : pystr) :
  x <> [] -> str_in "/" x = false ->
  dir = [] \/ (exists dir' : pystr, dir = dir' ++ "/") ->
  path_name (dir ++ x ++ ".md") = x ++ ".md".
Proof.
  intros Nx Sx D. unfold path_name.
  assert (E : str_eqb (dir ++ x ++ ".md") "." = false).
  { destruct (str_eqb (dir ++ x ++ ".md") ".") eqn:E; [|reflexivity].
    apply str_eqb_eq in E. apply (f_equal (@length N)) in E.
    rewrite !length_app in E. change (length (".md" : pystr)) with 3%nat in E.
    change (length ("." : pystr)) with 1%nat in E. lia. }
  rewrite E.
  assert (A : rfind 47 (x ++ ".md") = None).
  { rewrite rfind_app. change (rfind 47 ".md") with (@None nat). cbv beta iota.
    now apply rfind_absent. }
  rewrite rfind_app, A. destruct D as [-> | [dir' ->]]; [reflexivity|].
  rewrite rfind_app. change (rfind 47 "/") with (Some 0%nat). cbv beta iota.
  rewrite Nat.add_0_r.
  rewrite <- app_assoc. change (("/" : pystr) ++ x ++ ".md") with (47%N :: x ++ ".md").
  rewrite skipn_app. replace (Datatypes.S (length dir') - length dir')%nat with 1%nat by lia.
  rewrite skipn_all2 by lia. reflexivity.
Qed.

(** The backup of a file [x.md] is [x.md.bak]. *)
Lemma with_suffix_md_path p : md_path p -> with_suffix p ".md.bak" = Ok (p ++ ".bak").
Proof.
  intros (dir & x & -> & Nx & Sx & D). unfold with_suffix.
  change (str_in "/" ".md.bak") with false.
  change ((match (".md.bak" : pystr) with [] => false | _ => negb (startswith ".md.bak" ".") end)
          || str_eqb ".md.bak" ".") with false.
  cbv iota. rewrite (@path_name_md dir x Nx Sx D), (@name_suffix_md x Nx).
  destruct x as [|c x]; [now elim Nx|]. cbn [app].
  change (length (".md" : pystr)) with 3%nat.
  replace (dir ++ c :: x ++ ".md") with ((dir ++ c :: x) ++ ".md") by now rewrite <- app_assoc.
  rewrite length_app. change (length (".md" : pystr)) with 3%nat.
  rewrite Nat.add_sub, firstn_app, Nat.sub_diag, firstn_all. cbn [firstn].
  rewrite app_nil_r, <- !app_assoc. reflexivity.
Qed.

(** * The claims *)

Section Claims.

Context {rt : PyRuntime}.

Lemma argument_hint_returns d : returns (MigrateCommand.migrate_argument_hint_format (PDict d)).
Proof.
  unfold MigrateCommand.migrate_argument_hint_format. py_step.
  destruct (dict_get d "argument-hint") as [hint|]; py_step; [|eexists; reflexivity].
  destruct hint; py_step;
    match goal with
    | |- context [startswith ?s ?p] => destruct (startswith s p); py_step
    end; eexists; reflexivity.
Qed.

Lemma tools_returns d : returns (MigrateCommand.migrate_tools_field_name (PDict d)).
Proof.
  unfold MigrateCommand.migrate_tools_field_name. py_step.
  destruct (dict_get d "tools") as [tools|] eqn:T; py_step; [|eexists; reflexivity].
  destruct (dict_get d "allowed-tools"); py_step; [eexists; reflexivity|].
  rewrite dict_get_set_neq by str_neq. rewrite T. eexists. reflexivity.
Qed.

Lemma short_alias_migrated d alias :
  str_mem alias short_aliases = true ->
  dict_get d "model" = Some (PStr alias) ->
  exists d1 change,
    MigrateCommand.migrate_short_alias_to_version_alias (PDict d) = Ok (PDict d1, [change])
    /\ dict_get d1 "model" = migrated_model alias.
Proof.
  intros A G. unfold MigrateCommand.migrate_short_alias_to_version_alias. py_step.
  rewrite G. py_step. unfold lookup_alias, MigrateCommand.alias_map. cbv [find fst snd].
  unfold str_mem, short_aliases, strs in A. cbn [map existsb] in A.
  rewrite !(str_eqb_sym alias) in A. unfold migrated_model.
  destruct (str_eqb "haiku" alias) eqn:E1.
  { apply str_eqb_eq in E1. subst alias. py_step. eexists _, _. split; [reflexivity|].
    now rewrite dict_get_set_eq. }
  destruct (str_eqb "sonnet" alias) eqn:E2.
  { apply str_eqb_eq in E2. subst alias. py_step. eexists _, _. split; [reflexivity|].
    now rewrite dict_get_set_eq. }
  destruct (str_eqb "opus" alias) eqn:E3.
  { apply str_eqb_eq in E3. subst alias. py_step. eexists _, _. split; [reflexivity|].
    now rewrite dict_get_set_eq. }
  destruct (str_eqb "inherit" alias) eqn:E4; [|discriminate].
  apply str_eqb_eq in E4. subst alias. py_step.
  change (eq_str (PStr "inherit") "inherit") with true. py_step.
  eexists _, _. split; [reflexivity|]. now rewrite dict_get_del_eq.
Qed.

(** C9. The rename of [tools] to [allowed-tools] happens only when
    [allowed-tools] is absent: then [allowed-tools] gets the value of [tools]
    and [tools] is deleted; otherwise the frontmatter is returned unchanged
    with no recorded change; in every case every other key keeps its value. *)
Theorem tools_rename_no_clobber (d : pydict) :
  (forall tools,
     dict_get d "tools" = Some tools -> dict_get d "allowed-tools" = None ->
     exists d',
       MigrateCommand.migrate_tools_field_name (PDict d)
       = Ok (PDict d', ["Renamed field: 'tools' " ++ ARROW ++ " 'allowed-tools'"])
       /\ dict_get d' "allowed-tools" = Some tools
       /\ dict_get d' "tools" = None)
  /\ (dict_get d "tools" = None \/ dict_get d "allowed-tools" <> None ->
      MigrateCommand.migrate_tools_field_name (PDict d) = Ok (PDict d, []))
  /\ (exists d' changes,
        MigrateCommand.migrate_tools_field_name (PDict d) = Ok (PDict d', changes)
        /\ forall k : pystr, k <> "tools" -> k <> "allowed-tools" ->
             dict_get d' k = dict_get d k).
Proof.
  split; [|split].
  - intros tools T A. unfold MigrateCommand.migrate_tools_field_name. py_step.
    rewrite T, A. py_step. rewrite dict_get_set_neq by str_neq. rewrite T.
    eexists. split; [reflexivity|]. split.
    + rewrite dict_get_del_neq by str_neq. apply dict_get_set_eq.
    + apply dict_get_del_eq.
  - intros H. unfold MigrateCommand.migrate_tools_field_name. py_step.
    destruct (dict_get d "tools"); [|reflexivity].
    destruct (dict_get d "allowed-tools"); [reflexivity|].
    destruct H as [H | H]; [discriminate | now elim H].
  - destruct (tools_returns d) as [[f' ch] R].
    destruct (tools_out _ R) as (d1 & -> & _ & F). eauto.
Qed.

(** C1, as amended.  A second run of the command migration on its own result
    changes nothing and reports nothing, and so does a second run of the
    default-matcher migration of the hooks; a second run of the
    empty-matcher migration changes nothing and repeats exactly the warnings
    of the first run about lifecycle hooks that keep a matcher. *)
Theorem migration_idempotent :
  (forall f f' changes,
     MigrateCommand.apply_all_migrations f = Ok (f', changes) ->
     MigrateCommand.apply_all_migrations f' = Ok (f', []))
  /\ (forall cfg cfg' changes,
        MigrateHook.migrate_add_missing_matchers cfg = Ok (cfg', changes) ->
        MigrateHook.migrate_add_missing_matchers cfg' = Ok (cfg', []))
  /\ (forall cfg cfg' changes,
        MigrateHook.migrate_remove_empty_matchers cfg = Ok (cfg', changes) ->
        MigrateHook.migrate_remove_empty_matchers cfg'
        = Ok (cfg', filter is_warning changes)).
Proof.
  split; [|split].
  - intros f f' changes. apply apply_all_idempotent.
  - intros cfg cfg' changes. apply add_missing_matchers_again.
  - intros cfg cfg' changes. apply remove_empty_matchers_again.
Qed.

Lemma apply_all_model d alias :
  str_mem alias short_aliases = true ->
  dict_get d "model" = Some (PStr alias) ->
  exists d' changes,
    MigrateCommand.apply_all_migrations (PDict d) = Ok (PDict d', changes)
    /\ dict_get d' "model" = migrated_model alias.
Proof.
  intros A G. destruct (short_alias_migrated d A G) as (d1 & c1 & R1 & M1).
  unfold MigrateCommand.apply_all_migrations. rewrite R1. py_step.
  destruct (argument_hint_returns d1) as [[f2 c2] R2].
  destruct (argument_hint_out _ R2) as (d2 & -> & _ & F2). rewrite R2. py_step.
  destruct (tools_returns d2) as [[f3 c3] R3].
  destruct (tools_out _ R3) as (d3 & -> & _ & F3). rewrite R3. py_step.
  eexists _, _. split; [reflexivity|].
  rewrite F3, F2 by str_neq. exact M1.
Qed.

(** What holds of C2.  For a command whose [model] is one of [haiku],
    [sonnet], [opus] and [inherit], both validators report a critical
    finding when the frontmatter is a mapping whose [description] has a
    length and whose [allowed-tools] supports [in]; and the migration
    rewrites the field to [claude-<tier>-4-5], or deletes it for [inherit],
    on every frontmatter. *)
Lemma short_alias_rejected (f : file) (d : pydict) (body alias : pystr) :
  str_mem alias short_aliases = true ->
  dict_get d "model" = Some (PStr alias) ->
  typed_command d = true ->
  (AuditCommands.parse_command f = Ok (AuditCommands.Parsed (PDict d) body) ->
   exists r,
     AuditCommands.validate_command f = Ok ("errors" : pystr, r)
     /\ In (short_alias_finding alias) (critical_errors r))
  /\ (decodes f d body ->
      exists errors,
        ValidateCommand.validate_command f = Ok (false, errors)
        /\ In (ValidateCommand.short_alias_error (file_path f) alias (suggested_version alias))
              errors
        /\ ValidateCommand.is_critical
             (ValidateCommand.short_alias_error (file_path f) alias (suggested_version alias))
           = true)
  /\ (exists d1 change,
        MigrateCommand.migrate_short_alias_to_version_alias (PDict d) = Ok (PDict d1, [change])
        /\ dict_get d1 "model" = migrated_model alias)
  /\ (exists d' changes,
        MigrateCommand.apply_all_migrations (PDict d) = Ok (PDict d', changes)
        /\ dict_get d' "model" = migrated_model alias).
Proof.
  intros A G T. split; [|split; [|split]].
  - intro P. destruct (validate_command_parsed _ P T) as (r & V & _ & M & _).
    exists r. pose proof (M alias G A) as I. rewrite V, (status_errors _ _ I). auto.
  - intro D. destruct (vc_validate_command_decoded D T) as (errors & V & _ & M & _).
    exists errors. pose proof (M alias G A) as I.
    assert (C : ValidateCommand.is_critical
                  (ValidateCommand.short_alias_error (file_path f) alias
                     (suggested_version alias)) = true) by reflexivity.
    rewrite V, (not_valid _ _ I C). auto.
  - now apply short_alias_migrated.
  - now apply apply_all_model.
Qed.

(** C2, where the code departs from it.  When the [description] of the
    command has no length ([None] for a key without value, a number, a
    boolean), both validators raise [TypeError] at [len(description)],
    before they reach the model check: the short alias is not reported, and
    no finding at all is returned. *)
Theorem short_alias_unreported (f : file) (d : pydict) (body alias : pystr) (v : pyval) :
  str_mem alias short_aliases = true ->
  dict_get d "model" = Some (PStr alias) ->
  dict_get d "description" = Some v ->
  is_sized v = false ->
  (AuditCommands.parse_command f = Ok (AuditCommands.Parsed (PDict d) body) ->
   AuditCommands.validate_command f = Raise TypeError)
  /\ (decodes f d body -> ValidateCommand.validate_command f = Raise TypeError).
Proof.
  intros _ _ G S. split.
  - intro P. exact (audit_validate_unsized _ P G S).
  - intro D. exact (vc_validate_unsized D G S).
Qed.

(** What holds of C3.  For a skill frontmatter with a [model] key, whatever
    its value, the validation reports the critical finding about the model
    field when the frontmatter's [description], if any, is text; and the
    migration deletes the key and records a change that is critical, not a
    recommendation, on every frontmatter. *)
Lemma skill_model_rejected (sd : skill_dir) (d : pydict) (body : pystr) (v : pyval) :
  dict_get d "model" = Some v ->
  (AuditSkills.parse_skill sd = Ok (AuditSkills.Parsed (PDict d) body) ->
   typed_skill d = true ->
   exists r,
     AuditSkills.validate_skill sd = Ok ("errors" : pystr, r)
     /\ In (AuditSkills.model_error (skill_name sd)) (critical_errors r))
  /\ MigrateSkill.migrate_remove_model_field (PDict d)
     = Ok (PDict (dict_del d "model"), [removed_model v])
  /\ dict_get (dict_del d "model") "model" = None
  /\ (forall name f' changes,
        MigrateSkill.apply_all_migrations (PDict d) name = Ok (f', changes) ->
        f' = PDict (dict_del d "model")
        /\ MigrateSkill.critical_changes changes = [removed_model v]
        /\ ~ In (removed_model v) (MigrateSkill.recommendations changes)).
Proof.
  intros G. split; [|split; [|split]].
  - intros P T. destruct (validate_skill_parsed _ P T) as (r & V & _ & M).
    exists r. assert (I : In (AuditSkills.model_error (skill_name sd)) (critical_errors r)).
    { apply M. unfold dict_has. now rewrite G. }
    rewrite V, (status_errors _ _ I). auto.
  - rewrite remove_model_field_dict, G. reflexivity.
  - apply dict_get_del_eq.
  - intros name f' changes H. unfold MigrateSkill.apply_all_migrations in H.
    rewrite remove_model_field_dict, G in H. py_step_in H.
    apply bind_ok in H as ([f2 c2] & H2 & H). apply bind_ok in H as ([f3 c3] & H3 & H).
    injection H as <- <-.
    destruct (gerund_recommendation_out _ _ H2) as [-> C2].
    destruct (description_triggers_out _ H3) as [-> C3].
    split; [reflexivity|].
    assert (N : forall l, (forall m, In m l -> startswith m "CRITICAL" = false) ->
                     filter (fun c => startswith c "CRITICAL") l = []).
    { induction l as [|x l IH]; intro Hl; simpl; [reflexivity|].
      rewrite (Hl x (or_introl eq_refl)). apply IH. intros. apply Hl. now right. }
    split.
    + unfold MigrateSkill.critical_changes. cbn [filter].
      change (startswith (removed_model v) "CRITICAL") with true. cbv iota.
      rewrite filter_app, (N _ C2), (N _ C3). reflexivity.
    + unfold MigrateSkill.recommendations. intro I. apply filter_In in I as [_ I].
      discriminate.
Qed.

(** C3, where the code departs from it.  When the [description] of the skill
    is not text, audit-skills.py raises before it reaches the model check:
    [TypeError] at [len(desc)] for a value without length, [AttributeError]
    at [desc.lower()] for a list or a mapping.  The model field is not
    reported, and no finding at all is returned. *)
Theorem skill_model_unreported (sd : skill_dir) (d : pydict) (body : pystr) (m v : pyval) :
  dict_get d "model" = Some m ->
  dict_get d "description" = Some v ->
  isinstance_str v = false ->
  AuditSkills.parse_skill sd = Ok (AuditSkills.Parsed (PDict d) body) ->
  AuditSkills.validate_skill sd
  = Raise (if is_sized v then AttributeError else TypeError).
Proof. intros _ G S P. exact (skill_validate_not_text _ P G S). Qed.

(** C4, as amended.  On a command whose metadata have the types the
    validators apply [len], [startswith] and [in] to: when the
    [allowed-tools] name [Bash], the text [eval $ARGUMENTS] is a critical
    finding, for audit-commands.py anywhere in the body, for
    validate-command.py in any of the blocks that its pattern extracts from
    the body, and a fenced [bash] or [sh] block that no backquote precedes
    or is part of is such a block; when the test for [Bash] fails, no
    finding of either script starts with [SECURITY], whatever the body. *)
Theorem eval_flagged_when_bash_allowed (f : file) (d : pydict) (body : pystr) :
  typed_command d = true ->
  (declares_bash d ->
   forall a b,
     (AuditCommands.parse_command f = Ok (AuditCommands.Parsed (PDict d) body) ->
      body = a ++ EVAL_ARGUMENTS ++ b ->
      exists r,
        AuditCommands.validate_command f = Ok ("errors" : pystr, r)
        /\ In ("SECURITY: Using eval with arguments is dangerous" : pystr)
              (critical_errors r))
     /\ (decodes f d body ->
         in_shell_block body (a ++ EVAL_ARGUMENTS ++ b) ->
         exists errors,
           ValidateCommand.validate_command f = Ok (false, errors)
           /\ In eval_finding errors
           /\ ValidateCommand.is_critical eval_finding = true)
     /\ (fenced body (a ++ EVAL_ARGUMENTS ++ b) ->
         in_shell_block body (a ++ EVAL_ARGUMENTS ++ b)))
  /\ (lacks_bash d ->
      (AuditCommands.parse_command f = Ok (AuditCommands.Parsed (PDict d) body) ->
       exists r,
         AuditCommands.validate_command f = Ok (status_of r, r)
         /\ no_security_finding (findings r))
      /\ (decodes f d body ->
          exists errors,
            ValidateCommand.validate_command f
            = Ok (match filter ValidateCommand.is_critical errors with
                  | [] => true
                  | _ => false
                  end, errors)
            /\ no_security_finding errors)).
Proof.
  intros T. split.
  - intros B a b. split; [|split].
    + intros P E. destruct (validate_command_parsed _ P T) as (r & V & _ & _ & S).
      exists r. assert (I : In ("SECURITY: Using eval with arguments is dangerous" : pystr)
                              (critical_errors r)) by (apply S; eauto).
      rewrite V, (status_errors _ _ I). auto.
    + intros D Fb. destruct (vc_validate_command_decoded D T) as (errors & V & _ & _ & S).
      exists errors. assert (I : In eval_finding errors) by (apply S; eauto).
      assert (C : ValidateCommand.is_critical eval_finding = true) by reflexivity.
      rewrite V, (not_valid _ _ I C). auto.
    + apply fenced_in_shell_block.
  - intro L. split.
    + intro P. destruct (validate_command_parsed _ P T) as (r & V & _).
      exists r. split; [exact V|]. exact (validate_command_quiet _ P L V).
    + intro D. destruct (vc_validate_command_decoded D T) as (errors & V & _).
      exists errors. split; [exact V|]. exact (vc_validate_command_quiet D L V).
Qed.

(** C5, where the code departs from it.  [yaml.safe_load] decodes an empty
    metadata block to [None]; on the batch of a file without frontmatter and
    a file with an empty one, the first is reported as [parse_error] with
    its one finding and the second makes [validate_command] raise
    [TypeError], which nothing catches: the audit raises. *)
Theorem audit_aborts_on_empty_frontmatter :
  yaml_safe_load [] = Ok PNone ->
  AuditCommands.validate_command no_frontmatter_file
  = Ok ("parse_error" : pystr,
        {| critical_errors := ["Missing YAML frontmatter" : pystr];
           warnings := []; recommendations := [] |})
  /\ AuditCommands.validate_command empty_frontmatter_file = Raise TypeError
  /\ AuditCommands.audit [no_frontmatter_file; empty_frontmatter_file] = Raise TypeError.
Proof.
  intro Y.
  assert (V1 : AuditCommands.validate_command no_frontmatter_file
               = Ok ("parse_error" : pystr,
                     {| critical_errors := ["Missing YAML frontmatter" : pystr];
                        warnings := []; recommendations := [] |})).
  { unfold AuditCommands.validate_command, AuditCommands.parse_command.
    cbn [file_read no_frontmatter_file].
    replace (re_match DOTALL frontmatter_body_re ("List the notes." ++ NL)) with (@None mstate)
      by (vm_compute; reflexivity).
    reflexivity. }
  assert (V2 : AuditCommands.validate_command empty_frontmatter_file = Raise TypeError).
  { unfold AuditCommands.validate_command, AuditCommands.parse_command.
    cbn [file_read empty_frontmatter_file].
    replace (re_match DOTALL frontmatter_body_re
               ("---" ++ NL ++ NL ++ "---" ++ NL ++ "Take notes." ++ NL))
      with (Some {| prev := Some 10%N; rest := [];
                    groups := [[]; "Take notes." ++ NL] |})
      by (vm_compute; reflexivity).
    cbn [groups nth]. rewrite Y. reflexivity. }
  split; [exact V1|]. split; [exact V2|].
  unfold AuditCommands.audit. cbn [mapM]. rewrite V1. py_step. rewrite V2. reflexivity.
Qed.

(** What holds of C5: on a batch of files each of which is malformed or has a
    typed mapping as metadata, the audit reports every file, a malformed one
    as [parse_error] with one finding and the others with one of the three
    other statuses. *)
Lemma audit_isolates_parse_errors (files : list file) :
  Forall (fun f => analyzable f \/ malformed f) files ->
  exists results,
    AuditCommands.audit files = Ok results
    /\ Forall2
         (fun f e =>
            fst e = f
            /\ (malformed f ->
                fst (snd e) = ("parse_error" : pystr)
                /\ length (critical_errors (snd (snd e))) = 1)
            /\ (analyzable f ->
                In (fst (snd e)) (strs ["valid"; "warnings"; "errors"])))
         files results.
Proof.
  induction 1 as [|f files Hf _ IH].
  - exists []. split; [reflexivity | constructor].
  - destruct IH as (results & R & F2). unfold AuditCommands.audit in *. cbn [mapM].
    destruct Hf as [(d & body & P & T) | (e & P)].
    + destruct (validate_command_parsed _ P T) as (r & V & _).
      rewrite V. cbn [bind]. rewrite R. cbn [bind]. eexists. split; [reflexivity|].
      constructor; [|exact F2]. cbn [fst snd]. split; [reflexivity|]. split.
      * intros (e & P'). congruence.
      * intros _. unfold status_of, strs. cbn [map].
        destruct (critical_errors r); [destruct (warnings r)|]; cbn; auto.
    + assert (V : AuditCommands.validate_command f
                  = Ok ("parse_error" : pystr,
                        {| critical_errors := [e]; warnings := []; recommendations := [] |})).
      { unfold AuditCommands.validate_command. rewrite P. reflexivity. }
      rewrite V. cbn [bind]. rewrite R. cbn [bind]. eexists. split; [reflexivity|].
      constructor; [|exact F2]. cbn [fst snd]. split; [reflexivity|]. split.
      * intros _. split; reflexivity.
      * intros (d & body & P' & _). congruence.
Qed.

(** C6. In a hooks configuration of the file format, a hook group of a tool
    event ([PreToolUse], [PostToolUse]) without a [matcher], or with a falsy
    one, gets the matcher [*] and the change is recorded; a hook group of a
    lifecycle event ([Stop] and the others) whose [matcher] is empty or only
    white space loses the key and the removal is recorded. *)
Theorem matcher_defaults_and_removals (cfg : pyval) (ev : pystr) (i : nat) (g : pydict) :
  well_shaped cfg = true ->
  hook_group cfg ev i = Some (PDict g) ->
  (str_mem ev MigrateHook.TOOL_EVENTS = true ->
   match dict_get g "matcher" with Some m => truthy m = false | None => True end ->
   exists cfg' changes,
     MigrateHook.migrate_add_missing_matchers cfg = Ok (cfg', changes)
     /\ hook_group cfg' ev i = Some (PDict (dict_set g "matcher" (PStr "*")))
     /\ dict_get (dict_set g "matcher" (PStr "*")) "matcher" = Some (PStr "*")
     /\ In ("Added default matcher '*' to " ++ ev ++ " hook #" ++ str_of_nat (i + 1)) changes)
  /\ (str_mem ev MigrateHook.LIFECYCLE_EVENTS = true ->
      forall s, dict_get g "matcher" = Some (PStr s) ->
      forallb isspace s = true ->
      exists cfg' changes,
        MigrateHook.migrate_remove_empty_matchers cfg = Ok (cfg', changes)
        /\ hook_group cfg' ev i = Some (PDict (dict_del g "matcher"))
        /\ dict_get (dict_del g "matcher") "matcher" = None
        /\ In ("Removed empty matcher from " ++ ev ++ " hook #" ++ str_of_nat (i + 1))
              changes).
Proof.
  intros W G. split.
  - intros E M. destruct (add_missing_matchers_group _ _ _ W E G M) as (cfg' & ch & R & H & I).
    exists cfg', ch. repeat split; auto. apply dict_get_set_eq.
  - intros E s M B.
    destruct (remove_empty_matchers_group _ _ _ W E G M B) as (cfg' & ch & R & H & I).
    exists cfg', ch. repeat split; auto. apply dict_get_del_eq.
Qed.

(** C7, as amended.  For a hook item whose [type] is neither [command] nor
    [prompt], in a hooks configuration of the file format: when the item has
    a [command] field its type becomes [command], also when it has a
    [prompt] field as well; otherwise, when it has a [prompt] field, its type
    becomes [prompt]; when it has neither, the item is left as it is and an
    error is recorded. *)
Theorem hook_type_inferred (cfg : pyval) (ev : pystr) (i j : nat) (h : pydict) :
  well_shaped cfg = true ->
  hook_item cfg ev i j = Some (PDict h) ->
  in_strs (type_of h) (strs ["command"; "prompt"]) = false ->
  exists cfg' changes,
    MigrateHook.migrate_validate_hook_types cfg = Ok (cfg', changes)
    /\ (dict_has h "command" = true ->
        hook_item cfg' ev i j = Some (PDict (dict_set h "type" (PStr "command")))
        /\ In ("Fixed type to 'command' for " ++ where_ ev i j) changes)
    /\ (dict_has h "command" = false -> dict_has h "prompt" = true ->
        hook_item cfg' ev i j = Some (PDict (dict_set h "type" (PStr "prompt")))
        /\ In ("Fixed type to 'prompt' for " ++ where_ ev i j) changes)
    /\ (dict_has h "command" = false -> dict_has h "prompt" = false ->
        hook_item cfg' ev i j = Some (PDict h)
        /\ In ("ERROR: " ++ where_ ev i j ++ ": Invalid type '" ++ py_str (type_of h)
                 ++ "' with no command or prompt") changes).
Proof.
  intros W I T.
  destruct (validate_hook_types_item _ _ _ _ W I) as (cfg' & ch & x' & c & R & V & I' & Hc).
  rewrite (validate_hook_type_invalid _ _ _ _ T) in V.
  exists cfg', ch. split; [exact R|].
  destruct (dict_has h "command"); [|destruct (dict_has h "prompt")];
    injection V as <- <-; repeat split; try discriminate; intros; auto;
    apply Hc; now left.
Qed.

Lemma command_write_back f dry_run answer needs changes ops :
  MigrateCommand.migrate_single_command f dry_run answer = Ok (needs, changes, ops) ->
  forall op, In op ops ->
    (exists backup_path,
       with_suffix (file_path f) ".md.bak" = Ok backup_path
       /\ op = Rename (file_path f) backup_path)
    \/ exists content, op = WriteText (file_path f) content.
Proof.
  unfold MigrateCommand.migrate_single_command. intro H.
  destruct (file_read f); [|injection H as <- <- <-; intros ? []].
  destruct (re_match DOTALL frontmatter_body_re l); [|injection H as <- <- <-; intros ? []].
  destruct (yaml_safe_load _); [|injection H as <- <- <-; intros ? []].
  apply bind_ok in H as ([f' ch] & _ & H).
  destruct ch; [injection H as <- <- <-; intros ? []|].
  destruct dry_run; cbn [negb] in H; [injection H as <- <- <-; intros ? []|].
  destruct (str_eqb _ _); [|injection H as <- <- <-; intros ? []].
  apply bind_ok in H as (backup_path & W & H). injection H as <- <- <-.
  intros op [<- | [<- | []]]; eauto.
Qed.

Lemma skill_write_back sd dry_run answer needs changes ops :
  MigrateSkill.migrate_single_skill sd dry_run answer = Ok (needs, changes, ops) ->
  forall op, In op ops ->
    op = Rename (skill_path sd ++ "/SKILL.md") ((skill_path sd ++ "/SKILL.md") ++ ".bak")
    \/ exists content, op = WriteText (skill_path sd ++ "/SKILL.md") content.
Proof.
  unfold MigrateSkill.migrate_single_skill. intro H.
  destruct (skill_md_read sd); [|injection H as <- <- <-; intros ? []].
  destruct (re_match DOTALL frontmatter_body_re l); [|injection H as <- <- <-; intros ? []].
  destruct (yaml_safe_load _); [|injection H as <- <- <-; intros ? []].
  apply bind_ok in H as ([f' ch] & _ & H).
  destruct ch; [injection H as <- <- <-; intros ? []|].
  destruct (MigrateSkill.critical_changes _); [injection H as <- <- <-; intros ? []|].
  destruct dry_run; cbn [negb] in H; [injection H as <- <- <-; intros ? []|].
  destruct (str_eqb _ _); injection H as <- <- <-; [|intros ? []].
  intros op [<- | [<- | []]]; eauto.
Qed.

(** What holds of C8.  A command file name or skill directory name with a
    capital, a space or an underscore (or any character beyond ASCII) makes
    each validator report a critical naming finding, for every metadata the
    validator can work on; and what the migrations write is the content of
    the artifact's own file, after moving the original to the backup that
    [with_suffix('.md.bak')] names: they rename no artifact. *)
Lemma naming_violation_is_critical (name : pystr) (c : N) :
  In c name ->
  offending c = true ->
  (forall f d body,
     file_stem f = name ->
     AuditCommands.parse_command f = Ok (AuditCommands.Parsed (PDict d) body) ->
     typed_command d = true ->
     exists r,
       AuditCommands.validate_command f = Ok ("errors" : pystr, r)
       /\ In ("Invalid filename: must be lowercase-hyphens only" : pystr) (critical_errors r))
  /\ (forall f d body,
        file_stem f = name ->
        decodes f d body ->
        typed_command d = true ->
        exists errors,
          ValidateCommand.validate_command f = Ok (false, errors)
          /\ In (invalid_filename name) errors
          /\ ValidateCommand.is_critical (invalid_filename name) = true)
  /\ (forall sd d body,
        skill_name sd = name ->
        AuditSkills.parse_skill sd = Ok (AuditSkills.Parsed (PDict d) body) ->
        typed_skill d = true ->
        exists r,
          AuditSkills.validate_skill sd = Ok ("errors" : pystr, r)
          /\ In ("Invalid directory name: must be lowercase-hyphens only" : pystr)
                (critical_errors r))
  /\ (forall f dry_run answer needs changes ops,
        MigrateCommand.migrate_single_command f dry_run answer = Ok (needs, changes, ops) ->
        forall op, In op ops ->
          (exists backup_path,
             with_suffix (file_path f) ".md.bak" = Ok backup_path
             /\ op = Rename (file_path f) backup_path)
          \/ exists content, op = WriteText (file_path f) content)
  /\ (forall sd dry_run answer needs changes ops,
        MigrateSkill.migrate_single_skill sd dry_run answer = Ok (needs, changes, ops) ->
        forall op, In op ops ->
          op = Rename (skill_path sd ++ "/SKILL.md") ((skill_path sd ++ "/SKILL.md") ++ ".bak")
          \/ exists content, op = WriteText (skill_path sd ++ "/SKILL.md") content).
Proof.
  intros I O. split; [|split; [|split; [|split]]].
  - intros f d body <- P T. destruct (validate_command_parsed _ P T) as (r & V & K & _).
    exists r.
    assert (J : In ("Invalid filename: must be lowercase-hyphens only" : pystr)
                  (critical_errors r)).
    { apply K. now apply (check_filename_rejects (file_stem f) c). }
    rewrite V, (status_errors _ _ J). auto.
  - intros f d body <- D T. destruct (vc_validate_command_decoded D T) as (errors & V & K & _).
    exists errors.
    assert (J : In (invalid_filename (file_stem f)) errors).
    { apply K. now apply (vc_check_filename_rejects (file_stem f) c). }
    assert (C : ValidateCommand.is_critical (invalid_filename (file_stem f)) = true)
      by reflexivity.
    rewrite V, (not_valid _ _ J C). auto.
  - intros sd d body <- P T. destruct (validate_skill_parsed _ P T) as (r & V & K & _).
    exists r.
    assert (J : In ("Invalid directory name: must be lowercase-hyphens only" : pystr)
                  (critical_errors r)).
    { apply K. now apply (check_directory_name_rejects (skill_name sd) c). }
    rewrite V, (status_errors _ _ J). auto.
  - intros f dry_run answer needs changes ops. apply command_write_back.
  - intros sd dry_run answer needs changes ops. apply skill_write_back.
Qed.


Lemma normalize_script_path_nothing ev i j x l :
  MigrateHook.normalize_script_path ev i j x = Ok l -> l = [].
Proof.
  unfold MigrateHook.normalize_script_path. intro H.
  apply bind_ok in H as (t & _ & H).
  destruct (eq_str t "command"); [|now injection H].
  apply bind_ok in H as (cv & _ & H). apply bind_ok in H as (cmd & _ & H).
  destruct (_ || _); [|now injection H].
  destruct (_ <? _)%nat; [|now injection H].
  destruct (_ && _); [discriminate | now injection H].
Qed.

Lemma mapM_all_nil {A} (f : A -> result (list pystr)) l rs :
  (forall x r, f x = Ok r -> r = []) ->
  mapM f l = Ok rs -> concat rs = [].
Proof.
  intro Hf. revert rs. induction l as [|x l IH]; intros rs H; simpl in H.
  - now injection H as <-.
  - apply bind_ok in H as (r & Hr & H). apply bind_ok in H as (rs' & Hrs & H).
    injection H as <-. simpl. rewrite (Hf _ _ Hr), (IH _ Hrs). reflexivity.
Qed.

Lemma normalize_group_nothing ev i x l :
  MigrateHook.normalize_script_paths_group ev i x = Ok l -> l = [].
Proof.
  unfold MigrateHook.normalize_script_paths_group. intro H.
  apply bind_ok in H as (has & _ & H). destruct has; cbn [negb] in H; [|now injection H].
  apply bind_ok in H as (hooks & _ & H). apply bind_ok in H as (its & _ & H).
  apply bind_ok in H as (rs & M & H). injection H as <-.
  eapply mapM_all_nil; [|exact M]. intros p r. apply normalize_script_path_nothing.
Qed.

Lemma normalize_script_paths_nothing cfg cfg' recommendations :
  MigrateHook.migrate_normalize_script_paths cfg = Ok (cfg', recommendations) ->
  cfg' = cfg /\ recommendations = [].
Proof.
  unfold MigrateHook.migrate_normalize_script_paths. intro H.
  apply bind_ok in H as (has & _ & H). destruct has; cbn [negb] in H;
    [|injection H as <- <-; auto].
  apply bind_ok in H as (hooks & _ & H). apply bind_ok in H as (events & _ & H).
  apply bind_ok in H as (rs & M & H). injection H as <- <-. split; [reflexivity|].
  eapply mapM_all_nil; [|exact M]. intros [k v] r Hr.
  apply bind_ok in Hr as (gs & _ & Hr). apply bind_ok in Hr as (rs' & M' & Hr).
  injection Hr as <-. eapply mapM_all_nil; [|exact M'].
  intros p r'. apply normalize_group_nothing.
Qed.

(** C10, as amended.  On a hooks configuration of the file format with a
    hook item of type [command] whose command starts with [bash ] or [sh ]
    and goes on with a script path that starts with neither [/] nor [${],
    [migrate_normalize_script_paths] raises [NameError]; when the item is
    under one of the valid event names, so that the first migration keeps
    it, the run of the five migrations raises it too; and whenever the
    function returns, it returns no recommendation at all. *)
Theorem normalize_script_paths_name_error (cfg : pyval) (ev : pystr) (i j : nat) (h : pydict) :
  well_shaped cfg = true ->
  hook_item cfg ev i j = Some (PDict h) ->
  relative_script h ->
  MigrateHook.migrate_normalize_script_paths cfg = Raise NameError
  /\ (str_mem ev MigrateHook.VALID_EVENTS = true ->
      MigrateHook.run_migrations cfg = Raise NameError)
  /\ (forall any any' recommendations,
        MigrateHook.migrate_normalize_script_paths any = Ok (any', recommendations) ->
        recommendations = []).
Proof.
  intros W I R. split; [exact (normalize_script_paths_raises _ _ _ _ W I R)|]. split.
  - intro V. exact (run_migrations_raises _ _ _ _ W V I R).
  - intros any any' recs H. now apply normalize_script_paths_nothing in H.
Qed.

End Claims.

(** * Concrete runs *)

Lemma migration_idempotent_witness :
  MigrateCommand.apply_all_migrations (rt := demo_runtime)
    (PDict [kv "description" (PStr "fix bug"); kv "model" (PStr "claude-haiku-4-5")])
  = Ok (PDict [kv "description" (PStr "fix bug"); kv "model" (PStr "claude-haiku-4-5")], []).
Proof.
  destruct (migration_idempotent (rt := demo_runtime)) as (H & _ & _).
  eapply (H (PDict command_haiku_frontmatter)). vm_compute. reflexivity.
Defined.

Lemma matcher_warning_reported_again :
  exists cfg' changes,
    MigrateHook.migrate_remove_empty_matchers (rt := demo_runtime) hooks_example
    = Ok (cfg', changes)
    /\ MigrateHook.migrate_remove_empty_matchers (rt := demo_runtime) cfg'
       <> Ok (cfg', []).
Proof.
  eexists _, _. split; [vm_compute; reflexivity|]. vm_compute. discriminate.
Qed.

Lemma short_alias_rejected_witness :
  (exists r,
     AuditCommands.validate_command (rt := demo_runtime) command_haiku
     = Ok ("errors" : pystr, r)
     /\ In (short_alias_finding "haiku") (critical_errors r))
  /\ (exists d' changes,
        MigrateCommand.apply_all_migrations (rt := demo_runtime)
          (PDict command_haiku_frontmatter) = Ok (PDict d', changes)
        /\ dict_get d' "model" = Some (PStr "claude-haiku-4-5")).
Proof.
  destruct (@short_alias_rejected demo_runtime command_haiku command_haiku_frontmatter
              ("Fix the bug." ++ NL) "haiku" eq_refl eq_refl eq_refl) as (H1 & _ & _ & H4).
  split; [|exact H4]. apply H1. vm_compute. reflexivity.
Defined.

Lemma skill_model_rejected_witness :
  (exists r,
     AuditSkills.validate_skill (rt := demo_runtime) skill_with_model
     = Ok ("errors" : pystr, r)
     /\ In (AuditSkills.model_error "building-reports") (critical_errors r))
  /\ MigrateSkill.migrate_remove_model_field (rt := demo_runtime)
       (PDict skill_with_model_frontmatter)
     = Ok (PDict (dict_del skill_with_model_frontmatter "model"),
           [removed_model (rt := demo_runtime) (PStr "sonnet")]).
Proof.
  destruct (@skill_model_rejected demo_runtime skill_with_model skill_with_model_frontmatter
              ("## When to Use" ++ NL) (PStr "sonnet") eq_refl) as (H1 & H2 & _).
  split; [|exact H2]. apply H1; [vm_compute; reflexivity | reflexivity].
Defined.

Lemma eval_unflagged_without_bash :
  fenced (flat_map (fun l => l ++ NL) eval_body) ("eval $ARGUMENTS" ++ NL)
  /\ (exists errors,
        ValidateCommand.validate_command (rt := demo_runtime) command_eval_no_bash
        = Ok (true, errors)
        /\ ~ In (eval_finding) errors)
  /\ (exists status r,
        AuditCommands.validate_command (rt := demo_runtime) command_eval_no_bash
        = Ok (status, r)
        /\ critical_errors r = []).
Proof.
  split; [|split].
  - exists ("Run it." ++ NL), ("bash" : pystr), NL. repeat split; try reflexivity. now left.
  - eexists. split; [vm_compute; reflexivity|].
    intro I. vm_compute in I. 
    repeat (destruct I as [I | I]; [discriminate I|]). exact I.
  - eexists _, _. split; [vm_compute; reflexivity|]. reflexivity.
Qed.

Lemma eval_flagged_when_bash_allowed_witness :
  (exists r,
     AuditCommands.validate_command (rt := demo_runtime) command_eval_bash
     = Ok ("errors" : pystr, r)
     /\ In ("SECURITY: Using eval with arguments is dangerous" : pystr) (critical_errors r))
  /\ (exists errors,
        ValidateCommand.validate_command (rt := demo_runtime) command_eval_bash
        = Ok (false, errors)
        /\ In eval_finding errors)
  /\ (exists errors,
        ValidateCommand.validate_command (rt := demo_runtime) command_eval_no_bash
        = Ok (true, errors)
        /\ no_security_finding errors).
Proof.
  assert (D : decodes (rt := demo_runtime) command_eval_bash command_eval_bash_frontmatter
                (flat_map (fun l => l ++ NL) eval_body)).
  { split; [reflexivity|]. eexists _, _.
    split; [reflexivity|]. split; [vm_compute; reflexivity|].
    split; [vm_compute; reflexivity | vm_compute; reflexivity]. }
  assert (D' : decodes (rt := demo_runtime) command_eval_no_bash
                 [kv "description" (PStr "run the given command")]
                 (flat_map (fun l => l ++ NL) eval_body)).
  { split; [reflexivity|]. eexists _, _.
    split; [reflexivity|]. split; [vm_compute; reflexivity|].
    split; [vm_compute; reflexivity | vm_compute; reflexivity]. }
  split; [|split].
  - destruct (@eval_flagged_when_bash_allowed demo_runtime command_eval_bash
                command_eval_bash_frontmatter (flat_map (fun l => l ++ NL) eval_body)
                eq_refl) as (H & _).
    destruct (H eq_refl ("Run it." ++ NL ++ FENCE ++ "bash" ++ NL) (NL ++ FENCE ++ NL))
      as (H1 & _).
    apply H1; [vm_compute; reflexivity | reflexivity].
  - destruct (@eval_flagged_when_bash_allowed demo_runtime command_eval_bash
                command_eval_bash_frontmatter (flat_map (fun l => l ++ NL) eval_body)
                eq_refl) as (H & _).
    destruct (H eq_refl [] NL) as (_ & H2 & H3).
    assert (Fb : fenced (flat_map (fun l => l ++ NL) eval_body) ([] ++ EVAL_ARGUMENTS ++ NL)).
    { exists ("Run it." ++ NL), ("bash" : pystr), NL.
      split; [reflexivity|]. split; [now left|]. split; reflexivity. }
    destruct (H2 D (H3 Fb)) as (errors & V & I & _). eauto.
  - destruct (@eval_flagged_when_bash_allowed demo_runtime command_eval_no_bash
                [kv "description" (PStr "run the given command")]
                (flat_map (fun l => l ++ NL) eval_body) eq_refl) as (_ & H).
    destruct (H eq_refl) as (_ & H2). destruct (H2 D') as (errors & V & Q).
    eassert (E : ValidateCommand.validate_command (rt := demo_runtime) command_eval_no_bash
                 = Ok (true, _)) by (vm_compute; reflexivity).
    rewrite E in V. injection V as _ V'.
    eexists. split; [exact E|]. rewrite V'. exact Q.
Defined.

(** The pattern of validate-command.py pairs the fences from left to right:
    here the first block ends at the fence that opens the block with the
    [eval], which is then no extracted block, and the command is valid. *)
Lemma eval_outside_extracted_blocks :
  re_findall (rt := demo_runtime) DOTALL ValidateCommand.bash_block_re
    (FENCE ++ "sh" ++ NL ++ "then close it." ++ NL ++ FENCE ++ "bash" ++ NL
       ++ "eval $ARGUMENTS" ++ NL ++ FENCE ++ NL)
  = ["then close it." ++ NL]
  /\ exists errors,
       ValidateCommand.validate_command (rt := demo_runtime) command_eval_second_block
       = Ok (true, errors).
Proof. split; [vm_compute; reflexivity|]. eexists. vm_compute. reflexivity. Qed.

Lemma short_alias_unreported_witness :
  AuditCommands.validate_command (rt := demo_runtime) command_null_description
  = Raise TypeError
  /\ ValidateCommand.validate_command (rt := demo_runtime) command_null_description
     = Raise TypeError.
Proof.
  destruct (@short_alias_unreported demo_runtime command_null_description
              command_null_description_frontmatter ("Fix the bug." ++ NL) "haiku" PNone
              eq_refl eq_refl eq_refl eq_refl) as (H1 & H2).
  split.
  - apply H1. vm_compute. reflexivity.
  - apply H2. split; [reflexivity|]. eexists _, _.
    split; [reflexivity|]. split; [vm_compute; reflexivity|].
    split; [vm_compute; reflexivity | vm_compute; reflexivity].
Defined.

Lemma skill_model_unreported_witness :
  AuditSkills.validate_skill (rt := demo_runtime) skill_null_description = Raise TypeError.
Proof.
  apply (@skill_model_unreported demo_runtime skill_null_description
           skill_null_description_frontmatter ("## When to Use" ++ NL) (PStr "sonnet") PNone
           eq_refl eq_refl eq_refl).
  vm_compute. reflexivity.
Defined.

Lemma audit_aborts_on_empty_frontmatter_witness :
  AuditCommands.audit (rt := demo_runtime) [no_frontmatter_file; empty_frontmatter_file]
  = Raise TypeError.
Proof.
  destruct (@audit_aborts_on_empty_frontmatter demo_runtime eq_refl) as (_ & _ & H).
  exact H.
Defined.

Lemma matcher_defaults_and_removals_witness :
  (exists cfg' changes,
     MigrateHook.migrate_add_missing_matchers hooks_example
     = Ok (cfg', changes)
     /\ In ("Added default matcher '*' to PreToolUse hook #1" : pystr) changes)
  /\ (exists cfg' changes,
        MigrateHook.migrate_remove_empty_matchers (rt := demo_runtime) hooks_example
        = Ok (cfg', changes)
        /\ In ("Removed empty matcher from Stop hook #1" : pystr) changes).
Proof.
  split.
  - destruct (@matcher_defaults_and_removals demo_runtime hooks_example "PreToolUse" 0 _
                eq_refl eq_refl) as (H & _).
    destruct (H eq_refl I) as (cfg' & changes & R & _ & _ & J). eauto.
  - destruct (@matcher_defaults_and_removals demo_runtime hooks_example "Stop" 0 _
                eq_refl eq_refl) as (_ & H).
    destruct (H eq_refl [] eq_refl eq_refl) as (cfg' & changes & R & _ & _ & J). eauto.
Defined.

Lemma both_payloads_fixed_to_command :
  hook_item hooks_example "Stop" 0 0
  = Some (PDict [kv "type" (PStr "shell"); kv "command" (PStr "echo done");
                 kv "prompt" (PStr "Say done")])
  /\ exists cfg',
       MigrateHook.migrate_validate_hook_types (rt := demo_runtime) hooks_example
       = Ok (cfg', ["Fixed type to 'command' for Stop hook #1, item #1" : pystr])
       /\ hook_item cfg' "Stop" 0 0
          = Some (PDict [kv "type" (PStr "command"); kv "command" (PStr "echo done");
                         kv "prompt" (PStr "Say done")]).
Proof.
  split; [reflexivity|]. eexists. split; [vm_compute; reflexivity|]. reflexivity.
Qed.

Lemma hook_type_inferred_witness :
  exists cfg' changes,
    MigrateHook.migrate_validate_hook_types (rt := demo_runtime) hooks_example
    = Ok (cfg', changes)
    /\ In ("Fixed type to 'command' for Stop hook #1, item #1" : pystr) changes.
Proof.
  destruct (@hook_type_inferred demo_runtime hooks_example "Stop" 0 0 _
              eq_refl eq_refl eq_refl) as (cfg' & changes & R & H & _).
  destruct (H eq_refl) as (_ & J). eauto.
Defined.

Lemma naming_violation_is_critical_witness :
  exists r,
    AuditCommands.validate_command (rt := demo_runtime) command_bad_name
    = Ok ("errors" : pystr, r)
    /\ In ("Invalid filename: must be lowercase-hyphens only" : pystr) (critical_errors r).
Proof.
  destruct (@naming_violation_is_critical demo_runtime "Fix_Bug" 70%N) as (H & _).
  - vm_compute. auto.
  - reflexivity.
  - eapply (H command_bad_name); [reflexivity | vm_compute; reflexivity | reflexivity].
Defined.


Lemma tools_rename_no_clobber_witness :
  MigrateCommand.migrate_tools_field_name
    (PDict [kv "description" (PStr "fix bug"); kv "tools" (PStr "Read, Grep")])
  = Ok (PDict [kv "description" (PStr "fix bug"); kv "allowed-tools" (PStr "Read, Grep")],
        ["Renamed field: 'tools' " ++ ARROW ++ " 'allowed-tools'"])
  /\ MigrateCommand.migrate_tools_field_name
       (PDict [kv "tools" (PStr "Read"); kv "allowed-tools" (PStr "Grep")])
     = Ok (PDict [kv "tools" (PStr "Read"); kv "allowed-tools" (PStr "Grep")], []).
Proof.
  split.
  - destruct (tools_rename_no_clobber
                [kv "description" (PStr "fix bug"); kv "tools" (PStr "Read, Grep")])
      as (H & _ & _).
    destruct (H (PStr "Read, Grep") eq_refl eq_refl) as (d' & R & _). 
    rewrite R. vm_compute in R. injection R as <-. reflexivity.
  - destruct (tools_rename_no_clobber
                [kv "tools" (PStr "Read"); kv "allowed-tools" (PStr "Grep")])
      as (_ & H & _).
    apply H. right. discriminate.
Defined.

Lemma invalid_event_run_returns :
  well_shaped hooks_invalid_event = true
  /\ (exists h,
        hook_item hooks_invalid_event "OnSave" 0 0 = Some (PDict h) /\ relative_script h)
  /\ MigrateHook.migrate_normalize_script_paths (rt := demo_runtime) hooks_invalid_event
     = Raise NameError
  /\ MigrateHook.run_migrations (rt := demo_runtime) hooks_invalid_event
     = Ok (PDict [kv "hooks" (PDict [])], ["REMOVED: Invalid event 'OnSave'" : pystr]).
Proof.
  split; [reflexivity|]. split; [|split; vm_compute; reflexivity].
  eexists. split; [reflexivity|].
  exists ("bash scripts/lint.sh" : pystr), ("scripts/lint.sh" : pystr).
  repeat split; reflexivity.
Qed.

Lemma normalize_script_paths_name_error_witness :
  MigrateHook.migrate_normalize_script_paths (rt := demo_runtime) hooks_example
  = Raise NameError
  /\ MigrateHook.run_migrations (rt := demo_runtime) hooks_example = Raise NameError.
Proof.
  destruct (@normalize_script_paths_name_error demo_runtime hooks_example "PreToolUse" 0 0 _
              eq_refl eq_refl) as (H & K & _).
  - exists ("bash scripts/lint.sh" : pystr), ("scripts/lint.sh" : pystr).
    repeat split; reflexivity.
  - split; [exact H | exact (K eq_refl)].
Defined.

(** * Further properties of the scripts *)

(** ** migrate-command.py: what the migration touches *)

Section CommandMigrationFacts.

Context {rt : PyRuntime}.

Import MigrateCommand.

Lemma short_alias_silent d f' :
  migrate_short_alias_to_version_alias (PDict d) = Ok (f', []) -> f' = PDict d.
Proof.
  intro H. unfold migrate_short_alias_to_version_alias in H. py_step_in H.
  destruct (dict_get d "model") as [model|]; py_step_in H; [|now injection H].
  apply bind_ok in H as (hit & _ & H).
  destruct hit; [py_step_in H; discriminate|].
  destruct (eq_str model "inherit"); py_step_in H; [discriminate | now injection H].
Qed.

Lemma argument_hint_silent d f' :
  migrate_argument_hint_format (PDict d) = Ok (f', []) -> f' = PDict d.
Proof.
  intro H. unfold migrate_argument_hint_format in H. py_step_in H.
  destruct (dict_get d "argument-hint") as [hint|]; py_step_in H; [|now injection H].
  destruct hint; py_step_in H;
    match type of H with
    | context [startswith ?s ?p] => destruct (startswith s p); py_step_in H
    end; try discriminate; try (now injection H).
  all: injection H as _ H; exfalso; revert H; clear;
    match goal with |- ?l = [] -> _ => destruct l eqn:E; [|discriminate] end;
    apply app_eq_nil in E as [E _]; discriminate.
Qed.

Lemma tools_silent d f' :
  migrate_tools_field_name (PDict d) = Ok (f', []) -> f' = PDict d.
Proof.
  intro H. unfold migrate_tools_field_name in H. py_step_in H.
  destruct (dict_get d "tools") eqn:T; py_step_in H; [|now injection H].
  destruct (dict_get d "allowed-tools"); py_step_in H; [now injection H|].
  rewrite dict_get_set_neq in H by str_neq. rewrite T in H. discriminate.
Qed.

Lemma apply_all_silent d f' :
  apply_all_migrations (PDict d) = Ok (f', []) -> f' = PDict d.
Proof.
  intro H. unfold apply_all_migrations in H. cbn [app] in H.
  apply bind_ok in H as ([f1 c1] & H1 & H).
  apply bind_ok in H as ([f2 c2] & H2 & H).
  apply bind_ok in H as ([f3 c3] & H3 & H). injection H as <- H.
  apply app_eq_nil in H as [H ->]. apply app_eq_nil in H as [-> ->].
  apply short_alias_silent in H1 as ->. apply argument_hint_silent in H2 as ->.
  now apply tools_silent in H3.
Qed.

Lemma short_alias_changes d d1 ch :
  migrate_short_alias_to_version_alias (PDict d) = Ok (PDict d1, ch) ->
  ch <> [] -> dict_get d1 "model" <> dict_get d "model".
Proof.
  intros H N. unfold migrate_short_alias_to_version_alias in H. py_step_in H.
  destruct (dict_get d "model") as [model|] eqn:G; py_step_in H;
    [|injection H as _ <-; now elim N].
  apply bind_ok in H as (hit & L & H).
  destruct hit as [new|]; py_step_in H.
  - injection H as <- _. rewrite dict_get_set_eq. intro E. injection E as <-.
    destruct (lookup_alias_settles _ L) as [L' _]. congruence.
  - destruct (eq_str model "inherit"); py_step_in H.
    + injection H as <- _. now rewrite dict_get_del_eq.
    + injection H as _ <-. now elim N.
Qed.

Lemma bracketed_neq (s : pystr) : "[" ++ s ++ "]" <> s.
Proof.
  intro E. apply (f_equal (@length N)) in E. rewrite !length_app in E. simpl in E. lia.
Qed.

Lemma argument_hint_changes d d1 ch :
  migrate_argument_hint_format (PDict d) = Ok (PDict d1, ch) ->
  ch <> [] -> dict_get d1 "argument-hint" <> dict_get d "argument-hint".
Proof.
  intros H N. unfold migrate_argument_hint_format in H. py_step_in H.
  destruct (dict_get d "argument-hint") as [hint|] eqn:G; py_step_in H;
    [|injection H as _ <-; now elim N].
  destruct hint; py_step_in H;
    match type of H with
    | context [startswith ?s ?p] => destruct (startswith s p); py_step_in H
    end;
    injection H as <- <-; try (now elim N);
    rewrite ?dict_set_set, dict_get_set_eq; try discriminate.
  intro E. injection E as E. now apply bracketed_neq in E.
Qed.

Lemma tools_changes d d1 ch :
  migrate_tools_field_name (PDict d) = Ok (PDict d1, ch) ->
  ch <> [] -> dict_get d1 "tools" <> dict_get d "tools".
Proof.
  intros H N. unfold migrate_tools_field_name in H. py_step_in H.
  destruct (dict_get d "tools") eqn:T; py_step_in H; [|injection H as _ <-; now elim N].
  destruct (dict_get d "allowed-tools"); py_step_in H; [injection H as _ <-; now elim N|].
  rewrite dict_get_set_neq in H by str_neq. rewrite T in H. injection H as <- _.
  now rewrite dict_get_del_eq.
Qed.
Lemma apply_all_steps d f' ch :
  apply_all_migrations (PDict d) = Ok (f', ch) ->
  exists d1 d2 d3 c1 c2 c3,
    migrate_short_alias_to_version_alias (PDict d) = Ok (PDict d1, c1)
    /\ migrate_argument_hint_format (PDict d1) = Ok (PDict d2, c2)
    /\ migrate_tools_field_name (PDict d2) = Ok (PDict d3, c3)
    /\ f' = PDict d3 /\ ch = c1 ++ c2 ++ c3.
Proof.
  intro H. unfold apply_all_migrations in H. cbn [app] in H.
  apply bind_ok in H as ([f1 c1] & H1 & H).
  destruct (short_alias_out _ H1) as (d1 & -> & _).
  apply bind_ok in H as ([f2 c2] & H2 & H).
  destruct (argument_hint_out _ H2) as (d2 & -> & _).
  apply bind_ok in H as ([f3 c3] & H3 & H).
  destruct (tools_out _ H3) as (d3 & -> & _).
  injection H as <- <-. exists d1, d2, d3, c1, c2, c3. rewrite app_assoc. auto.
Qed.

(** X1. The command migration leaves every key other than [model],
    [argument-hint], [tools] and [allowed-tools] with its value. *)
Theorem command_migration_frame d f' ch :
  apply_all_migrations (PDict d) = Ok (f', ch) ->
  exists d', f' = PDict d'
    /\ forall k : pystr,
         k <> "model" -> k <> "argument-hint" -> k <> "tools" -> k <> "allowed-tools" ->
         dict_get d' k = dict_get d k.
Proof.
  intro H. destruct (apply_all_steps _ H) as (d1 & d2 & d3 & c1 & c2 & c3 & H1 & H2 & H3 & -> & _).
  destruct (short_alias_out _ H1) as (? & E1 & _ & F1). injection E1 as <-.
  destruct (argument_hint_out _ H2) as (? & E2 & _ & F2). injection E2 as <-.
  destruct (tools_out _ H3) as (? & E3 & _ & F3). injection E3 as <-.
  exists d3. split; [reflexivity|]. intros k K1 K2 K3 K4.
  now rewrite F3, F2, F1.
Qed.

(** X2. The command migration reports no change exactly when it returns the
    frontmatter it was given. *)
Theorem command_migration_silent_iff_unchanged d f' ch :
  apply_all_migrations (PDict d) = Ok (f', ch) ->
  ch = [] <-> f' = PDict d.
Proof.
  intro H. split.
  - intros ->. now apply apply_all_silent.
  - intros ->.
    destruct (apply_all_steps _ H) as (d1 & d2 & d3 & c1 & c2 & c3 & H1 & H2 & H3 & E & ->).
    injection E as <-.
    destruct (argument_hint_out _ H2) as (? & E2 & _ & F2). injection E2 as <-.
    destruct (tools_out _ H3) as (? & E3 & _ & F3). injection E3 as <-.
    destruct c1 as [|x c1].
    + apply short_alias_silent in H1. injection H1 as <-.
      destruct c2 as [|y c2].
      * apply argument_hint_silent in H2. injection H2 as <-.
        destruct c3 as [|z c3]; [reflexivity|].
        exfalso. now apply (tools_changes _ H3).
      * exfalso. apply (argument_hint_changes _ H2); [discriminate|].
        rewrite <- F3 by str_neq. reflexivity.
    + exfalso. apply (short_alias_changes _ H1); [discriminate|].
      rewrite <- F2 by str_neq. rewrite <- F3 by str_neq. reflexivity.
Qed.
Lemma not_short_alias m :
  lookup_alias m alias_map = Ok None -> eq_str m "inherit" = false ->
  in_strs m short_aliases = false.
Proof.
  destruct m as [| | |s| |]; try reflexivity; try discriminate.
  unfold lookup_alias, alias_map, in_strs, short_aliases, strs. cbn [find fst snd map existsb]. unfold eq_str.
  rewrite (str_eqb_sym s "haiku"), (str_eqb_sym s "sonnet"), (str_eqb_sym s "opus").
  destruct (str_eqb "haiku" s); [discriminate|].
  destruct (str_eqb "sonnet" s); [discriminate|].
  destruct (str_eqb "opus" s); [discriminate|].
  intros _ ->. reflexivity.
Qed.
Lemma short_alias_result_model d d1 ch :
  migrate_short_alias_to_version_alias (PDict d) = Ok (PDict d1, ch) ->
  match dict_get d1 "model" with
  | Some m => in_strs m short_aliases = false
  | None => True
  end.
Proof.
  intro H. unfold migrate_short_alias_to_version_alias in H. py_step_in H.
  destruct (dict_get d "model") as [model|] eqn:G; py_step_in H;
    [|injection H as <- _; now rewrite G].
  apply bind_ok in H as (hit & L & H).
  destruct hit as [new|]; py_step_in H.
  - injection H as <- _. rewrite dict_get_set_eq.
    destruct (lookup_alias_settles _ L) as [L' I']. now apply not_short_alias.
  - destruct (eq_str model "inherit") eqn:I; py_step_in H.
    + injection H as <- _. now rewrite dict_get_del_eq.
    + injection H as <- _. rewrite G. now apply not_short_alias.
Qed.

(** X3. After the command migration the [model] of the frontmatter is no short
    alias, and the model check of either validator adds no critical finding
    to what it is given. *)
Theorem migrated_model_accepted d d' ch :
  apply_all_migrations (PDict d) = Ok (PDict d', ch) ->
  match dict_get d' "model" with
  | Some m => in_strs m short_aliases = false
  | None => True
  end
  /\ (forall r r', AuditCommands.check_model (PDict d') r = Ok r' ->
                  critical_errors r' = critical_errors r)
  /\ (forall path errors errors',
        ValidateCommand.check_model path (PDict d') errors = Ok errors' ->
        filter ValidateCommand.is_critical errors'
        = filter ValidateCommand.is_critical errors).
Proof.
  intro H. destruct (apply_all_steps _ H) as (d1 & d2 & d3 & c1 & c2 & c3 & H1 & H2 & H3 & E & _).
  injection E as <-.
  destruct (argument_hint_out _ H2) as (? & E2 & _ & F2). injection E2 as <-.
  destruct (tools_out _ H3) as (? & E3 & _ & F3). injection E3 as <-.
  pose proof (short_alias_result_model _ H1) as M.
  rewrite <- F2, <- F3 in M by str_neq.
  split; [exact M|]. split.
  - intros r r' C. unfold AuditCommands.check_model in C. py_step_in C.
    destruct (dict_get d' "model") as [m|]; py_step_in C; [|now injection C as <-].
    rewrite M in C. apply bind_ok in C as (s & _ & C).
    destruct (startswith s "claude-"); py_step_in C; now injection C as <-.
  - intros path errors errors' C. unfold ValidateCommand.check_model in C. py_step_in C.
    destruct (dict_get d' "model") as [m|]; py_step_in C; [|now injection C as <-].
    rewrite M in C. apply bind_ok in C as (s & _ & C). injection C as <-.
    unfold ValidateCommand.add.
    destruct (startswith s "claude-"); cbn [negb]; [reflexivity|].
    rewrite filter_app. cbn [filter].
    match goal with
    | |- context [ValidateCommand.is_critical ?m] =>
        change (ValidateCommand.is_critical m) with false
    end.
    now rewrite app_nil_r.
Qed.
Lemma str_of_Z_no_bracket z : startswith (str_of_Z z) "[" = false.
Proof.
  unfold str_of_Z. destruct (Z.to_int z) as [u|u]; [|reflexivity].
  destruct u; reflexivity.
Qed.

Lemma argument_hint_result d d1 ch :
  migrate_argument_hint_format (PDict d) = Ok (PDict d1, ch) ->
  match dict_get d "argument-hint" with
  | None => dict_get d1 "argument-hint" = None
  | Some _ => exists s, dict_get d1 "argument-hint" = Some (PStr s)
                        /\ startswith s "[" = true
  end.
Proof.
  intro H. unfold migrate_argument_hint_format in H. py_step_in H.
  destruct (dict_get d "argument-hint") as [hint|] eqn:G; py_step_in H;
    [|injection H as <- _; exact G].
  destruct hint; py_step_in H;
    match type of H with
    | context [startswith ?s ?p] => destruct (startswith s p) eqn:B; py_step_in H
    end;
    injection H as <- _; rewrite ?dict_set_set, ?dict_get_set_eq; eauto;
    exfalso; revert B; clear.
  - discriminate.
  - destruct b; discriminate.
  - change (py_str (PInt z)) with (str_of_Z z). now rewrite str_of_Z_no_bracket.
  - discriminate.
Qed.

(** X4. After the command migration an [argument-hint] that was present is a
    string that starts with a bracket (one that was absent stays absent),
    and validate-command.py has no finding about it. *)
Theorem migrated_argument_hint_bracketed d d' ch :
  apply_all_migrations (PDict d) = Ok (PDict d', ch) ->
  match dict_get d "argument-hint" with
  | None => dict_get d' "argument-hint" = None
  | Some _ => exists s, dict_get d' "argument-hint" = Some (PStr s)
                        /\ startswith s "[" = true
  end
  /\ forall errors, ValidateCommand.check_argument_hint (PDict d') errors = Ok errors.
Proof.
  intro H. destruct (apply_all_steps _ H) as (d1 & d2 & d3 & c1 & c2 & c3 & H1 & H2 & H3 & E & _).
  injection E as <-.
  destruct (short_alias_out _ H1) as (? & E1 & _ & F1). injection E1 as <-.
  destruct (tools_out _ H3) as (? & E3 & _ & F3). injection E3 as <-.
  pose proof (argument_hint_result _ H2) as R.
  rewrite F1 in R by str_neq. rewrite <- F3 in R by str_neq.
  split; [exact R|]. intro errors.
  unfold ValidateCommand.check_argument_hint. py_step.
  destruct (dict_get d "argument-hint").
  - destruct R as (s & -> & B). py_step. unfold ValidateCommand.add. now rewrite B.
  - now rewrite R.
Qed.

(** X6. A command file that audit-commands.py reports as a parse error is, for
    [migrate_single_command], a file that needs no migration: no change is
    reported and the file is not touched. *)
Theorem unparsable_command_not_migrated f e dry_run answer :
  AuditCommands.parse_command f = Ok (AuditCommands.ParseError e) ->
  migrate_single_command f dry_run answer = Ok (false, [], []).
Proof.
  unfold AuditCommands.parse_command, migrate_single_command. intro H.
  destruct (file_read f); [|reflexivity].
  destruct (re_match DOTALL frontmatter_body_re l); [|reflexivity].
  destruct (yaml_safe_load _) as [v|x]; [discriminate | reflexivity].
Qed.

End CommandMigrationFacts.

(** ** migrate-skill.py: what the migration touches *)

Section SkillMigrationFacts.

Context {rt : PyRuntime}.

Import MigrateSkill.

Lemma gerund_recommendation_msgs f name f' ch :
  migrate_gerund_form_recommendation f name = Ok (f', ch) ->
  forall m, In m ch -> startswith m "RECOMMENDATION" = true.
Proof.
  unfold migrate_gerund_form_recommendation. intro H.
  apply bind_ok in H as (n & _ & H). apply bind_ok in H as (s & _ & H).
  destruct (_ && _); injection H as <- <-.
  - intros m [<- | []]. reflexivity.
  - intros m [].
Qed.

Lemma description_triggers_msgs f f' ch :
  migrate_description_triggers f = Ok (f', ch) ->
  forall m, In m ch -> startswith m "RECOMMENDATION" = true.
Proof.
  unfold migrate_description_triggers. intro H.
  apply bind_ok in H as (n & _ & H). apply bind_ok in H as (c & _ & H).
  destruct c; injection H as <- <-.
  - intros m [<- | []]. reflexivity.
  - intros m [].
Qed.

Lemma filter_all {A} (p : A -> bool) l : (forall x, In x l -> p x = true) -> filter p l = l.
Proof.
  induction l as [|x l IH]; intro H; simpl; [reflexivity|].
  rewrite (H x (or_introl eq_refl)), IH; auto. intros. apply H. now right.
Qed.

Lemma filter_none {A} (p : A -> bool) l : (forall x, In x l -> p x = false) -> filter p l = [].
Proof.
  induction l as [|x l IH]; intro H; simpl; [reflexivity|].
  rewrite (H x (or_introl eq_refl)), IH; auto. intros. apply H. now right.
Qed.

Lemma skill_steps f name f' ch :
  apply_all_migrations f name = Ok (f', ch) ->
  exists d c1 c2 c3,
    f = PDict d
    /\ migrate_remove_model_field (PDict d) = Ok (f', c1)
    /\ migrate_gerund_form_recommendation f' name = Ok (f', c2)
    /\ migrate_description_triggers f' = Ok (f', c3)
    /\ ch = c1 ++ c2 ++ c3.
Proof.
  intro H. unfold apply_all_migrations in H. cbn [app] in H.
  apply bind_ok in H as ([f1 c1] & H1 & H).
  apply bind_ok in H as ([f2 c2] & H2 & H).
  apply bind_ok in H as ([f3 c3] & H3 & H). injection H as <- <-.
  destruct (gerund_recommendation_out _ _ H2) as [-> _].
  destruct (description_triggers_out _ H3) as [-> _].
  assert (D : exists d, f = PDict d).
  { destruct f as [| | | | |d]; eauto; exfalso.
    all: unfold migrate_remove_model_field in H1; py_step_in H1; try discriminate.
    all: unfold migrate_gerund_form_recommendation in H2.
    - destruct (str_in "model" s); py_step_in H1; [discriminate|].
      injection H1 as <- _. discriminate.
    - destruct (existsb _ l); py_step_in H1; [discriminate|].
      injection H1 as <- _. discriminate. }
  destruct D as [d ->]. exists d, c1, c2, c3. rewrite app_assoc. auto.
Qed.
(** X7. A second run of the skill migration on its own result returns the same
    frontmatter and repeats exactly the recommendations of the first run:
    no critical change is left. *)
Theorem skill_migration_second_run f name f' ch :
  apply_all_migrations f name = Ok (f', ch) ->
  apply_all_migrations f' name = Ok (f', recommendations ch)
  /\ critical_changes (recommendations ch) = [].
Proof.
  intro H. destruct (skill_steps _ _ H) as (d & c1 & c2 & c3 & -> & H1 & H2 & H3 & ->).
  pose proof (gerund_recommendation_msgs _ _ H2) as R2.
  pose proof (description_triggers_msgs _ H3) as R3.
  pose proof (gerund_recommendation_out _ _ H2) as [_ C2].
  pose proof (description_triggers_out _ H3) as [_ C3].
  rewrite remove_model_field_dict in H1.
  assert (E : recommendations (c1 ++ c2 ++ c3) = c2 ++ c3
              /\ exists d', f' = PDict d' /\ dict_get d' "model" = None).
  { unfold recommendations. rewrite !filter_app, (filter_all _ _ R2), (filter_all _ _ R3).
    destruct (dict_get d "model") eqn:G; injection H1 as <- <-.
    - split; [reflexivity|]. eexists. split; [reflexivity|]. apply dict_get_del_eq.
    - split; [reflexivity|]. eauto. }
  destruct E as (-> & d' & -> & N). split.
  - unfold apply_all_migrations. rewrite remove_model_field_dict, N. cbn [bind app].
    rewrite H2. cbn [bind]. rewrite H3. reflexivity.
  - unfold critical_changes. rewrite filter_app, (filter_none _ _ C2), (filter_none _ _ C3).
    reflexivity.
Qed.

(** X8. [migrate_single_skill] rewrites [SKILL.md] only to remove a [model]
    field: when it touches the file, it is not a dry run, the answer at the
    prompt is [y], the frontmatter had a [model], and what is written, after
    the move of the file to its backup, is the frontmatter without that key
    followed by the body as it was read. *)
Theorem skill_rewritten_only_to_remove_model sd dry_run answer needs changes ops :
  migrate_single_skill sd dry_run answer = Ok (needs, changes, ops) ->
  ops = []
  \/ (dry_run = false /\ lower (strip answer) = "y" /\ needs = true
      /\ exists content m d v,
           skill_md_read sd = inl content
           /\ re_match DOTALL frontmatter_body_re content = Some m
           /\ yaml_safe_load (nth 0 (groups m) []) = Ok (PDict d)
           /\ dict_get d "model" = Some v
           /\ ops = [Rename (skill_path sd ++ "/SKILL.md")
                            ((skill_path sd ++ "/SKILL.md") ++ ".bak");
                     WriteText (skill_path sd ++ "/SKILL.md")
                       (reconstruct_skill (PDict (dict_del d "model"))
                          (nth 1 (groups m) []))]).
Proof.
  unfold migrate_single_skill. intro H.
  destruct (skill_md_read sd) as [content|] eqn:R; [|injection H as <- <- <-; now left].
  destruct (re_match DOTALL frontmatter_body_re content) as [m|] eqn:M;
    [|injection H as <- <- <-; now left].
  destruct (yaml_safe_load _) as [fm|] eqn:Y; [|injection H as <- <- <-; now left].
  apply bind_ok in H as ([f' ch] & A & H).
  destruct ch as [|c0 ch0] eqn:Ech; [injection H as <- <- <-; now left|]. rewrite <- Ech in *.
  destruct (critical_changes ch) as [|k ks] eqn:K; [injection H as <- <- <-; now left|].
  destruct dry_run; cbn [negb] in H; [injection H as <- <- <-; now left|].
  destruct (str_eqb _ _) eqn:Yes; injection H as <- <- <-; [|now left].
  right. apply str_eqb_eq in Yes. repeat split; auto.
  destruct (skill_steps _ _ A) as (d & c1 & c2 & c3 & -> & H1 & H2 & H3 & E).
  pose proof (gerund_recommendation_out _ _ H2) as [_ C2].
  pose proof (description_triggers_out _ H3) as [_ C3].
  rewrite remove_model_field_dict in H1.
  destruct (dict_get d "model") as [v|] eqn:G; injection H1 as <- <-.
  - exists content, m, d, v. auto.
  - exfalso. rewrite E in K. unfold critical_changes in K.
    rewrite !filter_app, (filter_none _ _ C2), (filter_none _ _ C3) in K. discriminate.
Qed.

(** X9. A skill whose frontmatter has no [model] is never reported as needing
    migration and its file is never touched, whatever the mode and the
    answer: the recommendations are only listed. *)
Theorem skill_without_model_untouched sd d body dry_run answer :
  AuditSkills.parse_skill sd = Ok (AuditSkills.Parsed (PDict d) body) ->
  dict_get d "model" = None ->
  forall needs changes ops,
    migrate_single_skill sd dry_run answer = Ok (needs, changes, ops) ->
    needs = false /\ ops = []
    /\ apply_all_migrations (PDict d) (skill_name sd) = Ok (PDict d, recommendations changes).
Proof.
  intros P N needs changes ops H.
  unfold AuditSkills.parse_skill in P.
  destruct (skill_md_exists sd); cbn [negb] in P; [|discriminate].
  unfold migrate_single_skill in H.
  destruct (skill_md_read sd) as [content|]; [|discriminate].
  destruct (re_match DOTALL frontmatter_body_re content) as [m|]; [|discriminate].
  destruct (yaml_safe_load _) as [fm|[]]; try discriminate. injection P as -> _.
  apply bind_ok in H as ([f' ch] & A & H).
  destruct (skill_steps _ _ A) as (d0 & c1 & c2 & c3 & E0 & H1 & H2 & H3 & E).
  injection E0 as <-.
  pose proof (gerund_recommendation_out _ _ H2) as [_ C2].
  pose proof (description_triggers_out _ H3) as [_ C3].
  pose proof (gerund_recommendation_msgs _ _ H2) as R2.
  pose proof (description_triggers_msgs _ H3) as R3.
  rewrite remove_model_field_dict, N in H1. injection H1 as <- <-.
  cbn [app] in E. subst ch.
  assert (K : critical_changes (c2 ++ c3) = []).
  { unfold critical_changes. now rewrite filter_app, (filter_none _ _ C2), (filter_none _ _ C3). }
  assert (R : recommendations (c2 ++ c3) = c2 ++ c3).
  { unfold recommendations. now rewrite filter_app, (filter_all _ _ R2), (filter_all _ _ R3). }
  rewrite K in H.
  destruct (c2 ++ c3) eqn:Ec; injection H as <- <- <-.
  - repeat split; auto.
  - repeat split; auto. now rewrite A, R.
Qed.

End SkillMigrationFacts.

(** ** migrate-hook.py: what each migration leaves behind *)

Lemma for_enumerate_nth_inv f l :
  forall i l' cs,
    MigrateHook.for_enumerate f i l = Ok (l', cs) ->
    forall n x', nth_error l' n = Some x' ->
      exists x c, nth_error l n = Some x /\ f (i + n) x = Ok (x', c).
Proof.
  induction l as [|y l IH]; intros i l' cs H n x' Hn; simpl in H.
  - injection H as <- _. destruct n; discriminate.
  - apply bind_ok in H as ([y' c] & Hy & H).
    apply bind_ok in H as ([l1 cs1] & Hl & H). injection H as <- _.
    destruct n as [|n]; simpl in Hn.
    + injection Hn as <-. exists y, c. rewrite Nat.add_0_r. auto.
    + destruct (IH _ _ _ Hl _ _ Hn) as (x & c' & Hx & Hf).
      exists x, c'. replace (i + S n) with (S i + n) by lia. auto.
Qed.

Lemma for_items_get_inv f d :
  forall d' cs,
    MigrateHook.for_items f d = Ok (d', cs) ->
    forall k v', dict_get d' k = Some v' ->
      exists v c, dict_get d k = Some v /\ f k v = Ok (v', c).
Proof.
  induction d as [|[k0 v0] d IH]; intros d' cs H k v' Hk; simpl in H.
  - injection H as <- _. discriminate.
  - apply bind_ok in H as ([v0' c] & Hv & H).
    apply bind_ok in H as ([d1 cs1] & Hd & H). injection H as <- _.
    simpl in Hk |- *. destruct (str_eqb k0 k) eqn:E.
    + apply str_eqb_eq in E. subst k0. injection Hk as <-. eauto.
    + eapply IH; eassumption.
Qed.

Section OverGroupsInv.

Variable select : pystr -> bool.
Variable f : pystr -> nat -> pyval -> result (pyval * list pystr).

Lemma over_groups_group_inv cfg cfg' ch ev i x' :
  over_groups select f cfg = Ok (cfg', ch) ->
  select ev = true ->
  hook_group cfg' ev i = Some x' ->
  exists x c, hook_group cfg ev i = Some x /\ f ev i x = Ok (x', c).
Proof.
  intros H Hs Hg. apply over_groups_out in H.
  destruct H as [(-> & -> & Hc) | (c & events & events' & -> & G & -> & Hf)].
  - destruct cfg as [| | | | |c]; try discriminate. simpl in Hg. py_step_in Hc.
    destruct (dict_get c "hooks"); discriminate.
  - simpl in Hg |- *. rewrite dict_get_set_eq in Hg. rewrite G.
    destruct (dict_get events' ev) as [v'|] eqn:E'; [|discriminate].
    destruct (for_items_get_inv _ _ Hf _ E') as (v & c' & Ev & Hv).
    rewrite Ev. rewrite Hs in Hv.
    apply bind_ok in Hv as (l & Hi & Hv).
    apply bind_ok in Hv as ([l' cs] & Hl & Hv). injection Hv as <- _.
    destruct v as [| | | |l0|]; try discriminate.
    py_step_in Hi. injection Hi as <-. simpl in Hg.
    destruct (for_enumerate_nth_inv _ _ _ Hl _ Hg) as (x & c0 & Hx & Hfx). eauto.
Qed.

End OverGroupsInv.
Section MatcherResults.

Context {rt : PyRuntime}.

Import MigrateHook.

Lemma hook_item_eq_of_group cfg cfg' ev i :
  (forall x, hook_group cfg ev i = Some x ->
     exists x', hook_group cfg' ev i = Some x'
       /\ forall g, x = PDict g ->
            exists g', x' = PDict g' /\ dict_get g' "hooks" = dict_get g "hooks") ->
  (forall x', hook_group cfg' ev i = Some x' ->
     exists x, hook_group cfg ev i = Some x
       /\ forall g', x' = PDict g' -> exists g, x = PDict g) ->
  forall j, hook_item cfg' ev i j = hook_item cfg ev i j.
Proof.
  intros F B j. unfold hook_item.
  destruct (hook_group cfg ev i) as [x|] eqn:G.
  - destruct (F _ eq_refl) as (x' & G' & K). rewrite G'.
    destruct x as [| | | | |g].
    6: { destruct (K _ eq_refl) as (g' & -> & ->). reflexivity. }
    all: destruct x' as [| | | | |g']; try reflexivity.
    all: destruct (B _ G') as (x & E & K'); injection E as <-.
    all: destruct (K' _ eq_refl) as (g & E); discriminate.
  - destruct (hook_group cfg' ev i) as [x'|] eqn:G'; [|reflexivity].
    destruct (B _ eq_refl) as (x & E & _). discriminate.
Qed.

Lemma add_missing_matcher_on_dict ev i x x' c :
  add_missing_matcher ev i x = Ok (x', c) -> exists g, x = PDict g.
Proof.
  intro A. destruct x as [| | | | |g]; eauto.
  all: match type of A with
       | add_missing_matcher _ _ ?y = _ =>
           destruct (@add_missing_matcher_not_dict ev i y) as [e E];
           [intros ? ?; discriminate | rewrite E in A; discriminate]
       end.
Qed.

Lemma add_missing_matchers_post cfg cfg' ch :
  migrate_add_missing_matchers cfg = Ok (cfg', ch) ->
  (forall ev i x, str_mem ev TOOL_EVENTS = true -> hook_group cfg' ev i = Some x ->
     exists g m, x = PDict g /\ dict_get g "matcher" = Some m /\ truthy m = true)
  /\ (forall ev i, str_mem ev TOOL_EVENTS = false ->
        hook_group cfg' ev i = hook_group cfg ev i)
  /\ (forall ev i j, hook_item cfg' ev i j = hook_item cfg ev i j).
Proof.
  rewrite add_missing_matchers_over. intro H. split; [|split].
  - intros ev i x' T G.
    destruct (@over_groups_group_inv _ _ _ _ _ _ _ _ H T G) as (x & c & _ & A).
    destruct (add_missing_matcher_on_dict _ _ _ A) as [g ->].
    rewrite add_missing_matcher_dict in A.
    destruct (dict_get g "matcher") as [m|] eqn:M.
    + destruct (truthy m) eqn:Tm; injection A as <- _.
      * exists g, m. auto.
      * eexists _, _. split; [reflexivity|]. rewrite dict_get_set_eq. auto.
    + injection A as <- _. eexists _, _. split; [reflexivity|].
      rewrite dict_get_set_eq. auto.
  - intros ev i T. exact (over_groups_skip _ _ _ _ i H T).
  - intros ev i j. destruct (str_mem ev TOOL_EVENTS) eqn:T.
    + apply hook_item_eq_of_group.
      * intros x G. destruct (over_groups_group _ _ _ _ _ H T G) as (x' & c & A & G' & _).
        exists x'. split; [exact G'|]. intros g ->.
        destruct (add_missing_matcher_keeps _ _ _ A) as (g' & -> & E & _). eauto.
      * intros x' G'. destruct (@over_groups_group_inv _ _ _ _ _ _ _ _ H T G') as (x & c & G & A).
        exists x. split; [exact G|]. intros g' ->.
        exact (add_missing_matcher_on_dict _ _ _ A).
    + unfold hook_item. now rewrite (over_groups_skip _ _ _ _ i H T).
Qed.

(** X10. After [migrate_add_missing_matchers] every hook group of a tool event
    has a matcher that is not empty; the groups of the other events and the
    hook items of every group are as they were. *)
Theorem tool_groups_have_matcher cfg cfg' ch :
  migrate_add_missing_matchers cfg = Ok (cfg', ch) ->
  (forall ev i x, str_mem ev TOOL_EVENTS = true -> hook_group cfg' ev i = Some x ->
     exists g m, x = PDict g /\ dict_get g "matcher" = Some m /\ truthy m = true)
  /\ (forall ev i, str_mem ev TOOL_EVENTS = false ->
        hook_group cfg' ev i = hook_group cfg ev i)
  /\ (forall ev i j, hook_item cfg' ev i j = hook_item cfg ev i j).
Proof. exact (@add_missing_matchers_post cfg cfg' ch). Qed.
Lemma remove_empty_matcher_on_dict ev i x g' c :
  remove_empty_matcher ev i x = Ok (PDict g', c) -> exists g, x = PDict g.
Proof.
  intro A. destruct x as [| | | | |g]; eauto.
  all: apply remove_empty_matcher_not_dict in A as [A _];
    [discriminate | intros ? ?; discriminate].
Qed.

Lemma remove_empty_matchers_post cfg cfg' ch :
  migrate_remove_empty_matchers cfg = Ok (cfg', ch) ->
  (forall ev i g m,
     str_mem ev LIFECYCLE_EVENTS = true ->
     hook_group cfg' ev i = Some (PDict g) ->
     dict_get g "matcher" = Some m ->
     exists s, m = PStr s /\ strip s <> [])
  /\ (forall ev i, str_mem ev LIFECYCLE_EVENTS = false ->
        hook_group cfg' ev i = hook_group cfg ev i)
  /\ (forall ev i j, hook_item cfg' ev i j = hook_item cfg ev i j).
Proof.
  rewrite remove_empty_matchers_over. intro H. split; [|split].
  - intros ev i g' m T G M.
    destruct (@over_groups_group_inv _ _ _ _ _ _ _ _ H T G) as (x & c & _ & A).
    destruct (remove_empty_matcher_on_dict _ _ _ A) as [g ->].
    rewrite remove_empty_matcher_dict in A.
    destruct (dict_get g "matcher") as [m0|] eqn:M0.
    + destruct (truthy m0).
      * destruct m0 as [| | |s| |]; try discriminate.
        destruct (str_eqb (strip s) "") eqn:B; injection A as <- _.
        -- rewrite dict_get_del_eq in M. discriminate.
        -- rewrite M0 in M. injection M as <-. exists s. split; [reflexivity|].
           intro E. rewrite E in B. discriminate.
      * injection A as <- _. rewrite dict_get_del_eq in M. discriminate.
    + injection A as <- _. congruence.
  - intros ev i T. exact (over_groups_skip _ _ _ _ i H T).
  - intros ev i j. destruct (str_mem ev LIFECYCLE_EVENTS) eqn:T.
    + apply hook_item_eq_of_group.
      * intros x G. destruct (over_groups_group _ _ _ _ _ H T G) as (x' & c & A & G' & _).
        exists x'. split; [exact G'|]. intros g ->.
        destruct (remove_empty_matcher_keeps _ _ _ A) as (g' & -> & E & _). eauto.
      * intros x' G'.
        destruct (@over_groups_group_inv _ _ _ _ _ _ _ _ H T G') as (x & c & G & A).
        exists x. split; [exact G|]. intros g' ->.
        exact (remove_empty_matcher_on_dict _ _ _ A).
    + unfold hook_item. now rewrite (over_groups_skip _ _ _ _ i H T).
Qed.

(** X11. After [migrate_remove_empty_matchers] a hook group of a lifecycle event
    that still has a matcher has one with text other than white space; the
    groups of the other events and the hook items of every group are as they
    were. *)
Theorem lifecycle_groups_have_no_empty_matcher cfg cfg' ch :
  migrate_remove_empty_matchers cfg = Ok (cfg', ch) ->
  (forall ev i g m,
     str_mem ev LIFECYCLE_EVENTS = true ->
     hook_group cfg' ev i = Some (PDict g) ->
     dict_get g "matcher" = Some m ->
     exists s, m = PStr s /\ strip s <> [])
  /\ (forall ev i, str_mem ev LIFECYCLE_EVENTS = false ->
        hook_group cfg' ev i = hook_group cfg ev i)
  /\ (forall ev i j, hook_item cfg' ev i j = hook_item cfg ev i j).
Proof. exact (@remove_empty_matchers_post cfg cfg' ch). Qed.
End MatcherResults.

Section InvalidEvents.

Context {rt : PyRuntime}.

Import MigrateHook.

Lemma remove_invalid_events_dict c events :
  dict_get c "hooks" = Some (PDict events) ->
  migrate_remove_invalid_events (PDict c)
  = Ok (PDict (dict_set c "hooks"
                 (PDict (filter (fun e => str_mem (fst e) VALID_EVENTS) events))),
        map removed_event
          (filter (fun ev => negb (str_mem ev VALID_EVENTS)) (map fst events))).
Proof.
  intro G. unfold migrate_remove_invalid_events, contains, getitem, dict_has.
  rewrite G. reflexivity.
Qed.

Lemma remove_invalid_events_no_hooks cfg cfg' ch :
  migrate_remove_invalid_events cfg = Ok (cfg', ch) ->
  (exists c events, cfg = PDict c /\ dict_get c "hooks" = Some (PDict events))
  \/ (cfg' = cfg /\ ch = [] /\ contains cfg "hooks" = Ok false).
Proof.
  intro H. unfold migrate_remove_invalid_events in H.
  apply bind_ok in H as (has & Hc & H). destruct has; cbn [negb] in H.
  - left. apply bind_ok in H as (hooks & Hh & H). apply bind_ok in H as (events & He & H).
    destruct cfg as [| | | | |c]; try discriminate. py_step_in Hh.
    destruct (dict_get c "hooks") as [h|] eqn:G; [|discriminate]. injection Hh as ->.
    destruct hooks; try discriminate. eauto.
  - right. injection H as <- <-. auto.
Qed.

Lemma dict_get_filter_out (p : pystr -> bool) (d : pydict) k :
  p k = false -> dict_get (filter (fun ev => p (fst ev)) d) k = None.
Proof.
  intro P. induction d as [|[k0 v0] d IH]; simpl; [reflexivity|].
  destruct (p k0) eqn:P0; simpl; [|exact IH].
  destruct (str_eqb k0 k) eqn:E; [|exact IH].
  apply str_eqb_eq in E. congruence.
Qed.

Lemma filter_filter {A} (p : A -> bool) l : filter p (filter p l) = filter p l.
Proof.
  induction l as [|x l IH]; simpl; [reflexivity|].
  destruct (p x) eqn:P; simpl; [now rewrite P, IH | exact IH].
Qed.

Lemma filter_map_fst {B} (p : pystr -> bool) (l : list (pystr * B)) :
  filter p (map fst l) = map fst (filter (fun e => p (fst e)) l).
Proof.
  induction l as [|[k v] l IH]; simpl; [reflexivity|].
  destruct (p k); simpl; now rewrite IH.
Qed.

Lemma remove_invalid_events_post cfg cfg' ch :
  migrate_remove_invalid_events cfg = Ok (cfg', ch) ->
  event_names cfg' = filter (fun ev => str_mem ev VALID_EVENTS) (event_names cfg)
  /\ ch = map removed_event
            (filter (fun ev => negb (str_mem ev VALID_EVENTS)) (event_names cfg))
  /\ (forall ev i,
        hook_group cfg' ev i
        = if str_mem ev VALID_EVENTS then hook_group cfg ev i else None)
  /\ migrate_remove_invalid_events cfg' = Ok (cfg', []).
Proof.
  intro H. destruct (remove_invalid_events_no_hooks _ H)
    as [(c & events & -> & G) | (-> & -> & C)].
  - rewrite (remove_invalid_events_dict _ G) in H. injection H as <- <-.
    unfold event_names. rewrite dict_get_set_eq, G.
    split; [symmetry; exact (filter_map_fst (fun ev => str_mem ev VALID_EVENTS) events)|].
    split; [reflexivity|]. split.
    + intros ev i. simpl. rewrite dict_get_set_eq, G.
      destruct (str_mem ev VALID_EVENTS) eqn:V.
      * now rewrite (dict_get_filter_keys (fun e => str_mem e VALID_EVENTS) events ev V).
      * now rewrite (dict_get_filter_out (fun e => str_mem e VALID_EVENTS) events ev V).
    + rewrite (remove_invalid_events_dict _ (dict_get_set_eq _ _ _)).
      rewrite dict_set_set, filter_filter. do 2 f_equal.
      rewrite (filter_map_fst (fun ev => negb (str_mem ev VALID_EVENTS))).
      match goal with |- map _ (map _ ?l) = _ => assert (E : l = []) end; [|now rewrite E].
      apply filter_none. intros [k v] I.
      apply filter_In in I as [_ I]. cbn [fst] in *. now rewrite I.
  - assert (E : event_names cfg = []).
    { destruct cfg as [| | | | |c]; try reflexivity. simpl. py_step_in C.
      destruct (dict_get c "hooks"); [discriminate | reflexivity]. }
    rewrite E. repeat split.
    + intros ev i. destruct cfg as [| | | | |c]; try (now destruct (str_mem _ _)).
      simpl. py_step_in C.
      destruct (dict_get c "hooks"); [discriminate | now destruct (str_mem _ _)].
    + unfold migrate_remove_invalid_events. now rewrite C.
Qed.

(** X12. [migrate_remove_invalid_events] keeps exactly the events with a valid
    name, in their order and with their hook groups, records one message
    for each event it removes, and finds nothing to remove in its own
    result. *)
Theorem invalid_events_removed cfg cfg' ch :
  migrate_remove_invalid_events cfg = Ok (cfg', ch) ->
  event_names cfg' = filter (fun ev => str_mem ev VALID_EVENTS) (event_names cfg)
  /\ ch = map removed_event
            (filter (fun ev => negb (str_mem ev VALID_EVENTS)) (event_names cfg))
  /\ (forall ev i,
        hook_group cfg' ev i
        = if str_mem ev VALID_EVENTS then hook_group cfg ev i else None)
  /\ migrate_remove_invalid_events cfg' = Ok (cfg', []).
Proof. exact (@remove_invalid_events_post cfg cfg' ch). Qed.

End InvalidEvents.
Section HookTypeResults.

Context {rt : PyRuntime}.

Import MigrateHook.

Lemma validate_hook_type_on_dict ev i j x x' c :
  validate_hook_type ev i j x = Ok (x', c) -> exists h, x = PDict h.
Proof. destruct x; try discriminate. eauto. Qed.

Lemma validate_hook_type_valid ev i j h x' c :
  in_strs (type_of h) (strs ["command"; "prompt"]) = true ->
  validate_hook_type ev i j (PDict h) = Ok (x', c) ->
  x' = PDict h /\ filter is_error c = c
  /\ (eq_str (type_of h) "command" = true -> dict_has h "command" = false ->
      c = ["ERROR: " ++ where_ ev i j ++ ": Missing 'command' field"])
  /\ (eq_str (type_of h) "prompt" = true -> dict_has h "prompt" = false ->
      c = ["ERROR: " ++ where_ ev i j ++ ": Missing 'prompt' field"])
  /\ (dict_has h "command" = true -> dict_has h "prompt" = true -> c = []).
Proof.
  intros T H. unfold validate_hook_type in H. py_step_in H. fold (type_of h) in H.
  rewrite T in H. py_step_in H. unfold dict_has.
  assert (X : eq_str (type_of h) "command" = true -> eq_str (type_of h) "prompt" = true -> False).
  { unfold eq_str. destruct (type_of h); try discriminate. intros A B.
    apply str_eqb_eq in A. subst. discriminate. }
  destruct (eq_str (type_of h) "command"); py_step_in H;
    destruct (eq_str (type_of h) "prompt"); py_step_in H;
    try (exfalso; now apply X);
    destruct (dict_get h "command"); py_step_in H;
    destruct (dict_get h "prompt"); py_step_in H;
    injection H as <- <-; repeat split; intros; try discriminate; reflexivity.
Qed.
Lemma validate_hook_type_fixed ev i j h (t : pystr) :
  in_strs (PStr t) (strs ["command"; "prompt"]) = true ->
  (eq_str (PStr t) "command" = true -> dict_has h "command" = true) ->
  (eq_str (PStr t) "prompt" = true -> dict_has h "prompt" = true) ->
  validate_hook_type ev i j (PDict (dict_set h "type" (PStr t)))
  = Ok (PDict (dict_set h "type" (PStr t)), []).
Proof.
  intros T C P. unfold validate_hook_type. py_step. rewrite dict_get_set_eq.
  rewrite T. py_step. rewrite !dict_get_set_neq by str_neq.
  unfold dict_has in C, P.
  destruct (eq_str (PStr t) "command"); py_step;
    destruct (eq_str (PStr t) "prompt"); py_step;
    try (destruct (dict_get h "command"); [|now discriminate C]);
    try (destruct (dict_get h "prompt"); [|now discriminate P]);
    reflexivity.
Qed.

Lemma validate_hook_type_again ev i j x x' c :
  validate_hook_type ev i j x = Ok (x', c) ->
  validate_hook_type ev i j x' = Ok (x', filter is_error c).
Proof.
  intro H. destruct (validate_hook_type_on_dict _ _ _ _ H) as [h ->].
  destruct (in_strs (type_of h) (strs ["command"; "prompt"])) eqn:T.
  - destruct (validate_hook_type_valid _ _ _ _ T H) as (-> & F & _). now rewrite F.
  - rewrite (validate_hook_type_invalid _ _ _ _ T) in H.
    destruct (dict_has h "command") eqn:C.
    + injection H as <- <-. apply validate_hook_type_fixed; auto; discriminate.
    + destruct (dict_has h "prompt") eqn:P; injection H as <- <-.
      * apply validate_hook_type_fixed; auto; discriminate.
      * rewrite (validate_hook_type_invalid _ _ _ _ T), C, P. reflexivity.
Qed.
Lemma validate_hook_types_group_again ev i x x' c :
  validate_hook_types_group ev i x = Ok (x', c) ->
  validate_hook_types_group ev i x' = Ok (x', filter is_error c).
Proof.
  intro H. unfold validate_hook_types_group in H.
  apply bind_ok in H as (has & Hc & H). destruct has; cbn [negb] in H.
  2: { injection H as <- <-. unfold validate_hook_types_group. now rewrite Hc. }
  apply bind_ok in H as (hooks & Hh & H).
  destruct x as [| | | | |g]; try discriminate.
  py_step_in Hh. destruct (dict_get g "hooks") as [v|] eqn:G; [|discriminate].
  injection Hh as ->.
  apply bind_ok in H as (l & Hi & H).
  apply bind_ok in H as ([l' cs] & Hl & H). py_step_in H. injection H as <- <-.
  assert (A : for_enumerate (validate_hook_type ev i) 0 l' = Ok (l', filter is_error cs)).
  { apply for_enumerate_again with (l := l); auto.
    - intros a b. apply filter_app.
    - intros. eapply validate_hook_type_again; eassumption. }
  unfold validate_hook_types_group. py_step. rewrite dict_get_set_eq. py_step.
  destruct hooks as [| | |s|l0|d]; try discriminate; py_step_in Hi; injection Hi as <-.
  - destruct s as [|ch s]; [|discriminate]. injection Hl as <- <-.
    cbn [rebuild map for_enumerate]. py_step. now rewrite dict_set_set.
  - cbn [rebuild]. rewrite A. py_step. now rewrite dict_set_set.
  - destruct d as [|[k v] d]; [|discriminate]. injection Hl as <- <-.
    cbn [rebuild map for_enumerate]. py_step. now rewrite dict_set_set.
Qed.

(** X13. A second run of [migrate_validate_hook_types] on its own result changes
    nothing and repeats exactly the [ERROR:] lines of the first run: every
    type it could fix is fixed by the first run. *)
Theorem hook_types_second_run cfg cfg' ch :
  migrate_validate_hook_types cfg = Ok (cfg', ch) ->
  migrate_validate_hook_types cfg' = Ok (cfg', filter is_error ch).
Proof.
  rewrite !validate_hook_types_over. apply over_groups_again.
  - reflexivity.
  - intros a b. apply filter_app.
  - intros. eapply validate_hook_types_group_again; eassumption.
  - intros ev i s x' c H. unfold validate_hook_types_group in H.
    apply bind_ok in H as (has & Hc & H). destruct has; cbn [negb] in H.
    + apply bind_ok in H as (hooks & Hh & _). discriminate.
    + now injection H as <- <-.
Qed.
(** X14. In a hooks configuration of the file format, [migrate_validate_hook_types]
    leaves a hook item whose type is [command] or [prompt] as it is, and
    records an [ERROR:] line when the field that the type names is
    missing. *)
Theorem valid_hook_type_kept cfg ev i j h :
  well_shaped cfg = true ->
  hook_item cfg ev i j = Some (PDict h) ->
  in_strs (type_of h) (strs ["command"; "prompt"]) = true ->
  exists cfg' changes,
    migrate_validate_hook_types cfg = Ok (cfg', changes)
    /\ hook_item cfg' ev i j = Some (PDict h)
    /\ (eq_str (type_of h) "command" = true -> dict_has h "command" = false ->
        In ("ERROR: " ++ where_ ev i j ++ ": Missing 'command' field") changes)
    /\ (eq_str (type_of h) "prompt" = true -> dict_has h "prompt" = false ->
        In ("ERROR: " ++ where_ ev i j ++ ": Missing 'prompt' field") changes).
Proof.
  intros W I T.
  destruct (validate_hook_types_item _ _ _ _ W I) as (cfg' & ch & x' & c & H & V & I' & Hc).
  destruct (validate_hook_type_valid _ _ _ _ T V) as (-> & _ & C & P & _).
  exists cfg', ch. split; [exact H|]. split; [exact I'|]. split.
  - intros A B. apply Hc. rewrite (C A B). now left.
  - intros A B. apply Hc. rewrite (P A B). now left.
Qed.

End HookTypeResults.
Section RunResults.

Context {rt : PyRuntime}.

Import MigrateHook.

Lemma for_items_keys f d :
  forall d' cs, for_items f d = Ok (d', cs) -> map fst d' = map fst d.
Proof.
  induction d as [|[k v] d IH]; intros d' cs H; simpl in H.
  - now injection H as <- _.
  - apply bind_ok in H as ([v' c] & _ & H).
    apply bind_ok in H as ([d1 cs1] & Hd & H). injection H as <- _.
    simpl. f_equal. eapply IH; eassumption.
Qed.

Lemma over_groups_event_names select f cfg cfg' ch :
  over_groups select f cfg = Ok (cfg', ch) -> event_names cfg' = event_names cfg.
Proof.
  intro H. apply over_groups_out in H.
  destruct H as [(-> & _) | (c & events & events' & -> & G & -> & Hf)]; [reflexivity|].
  unfold event_names. rewrite dict_get_set_eq, G. eapply for_items_keys; eassumption.
Qed.

Lemma validate_hook_types_group_matcher ev i x x' c :
  validate_hook_types_group ev i x = Ok (x', c) ->
  (forall g', x' = PDict g' ->
     exists g, x = PDict g /\ dict_get g' "matcher" = dict_get g "matcher")
  /\ (forall g, x = PDict g -> exists g', x' = PDict g').
Proof.
  intro H. unfold validate_hook_types_group in H.
  apply bind_ok in H as (has & Hc & H). destruct has; cbn [negb] in H.
  2: { injection H as <- <-. split; intros g ->; eauto. }
  apply bind_ok in H as (hooks & Hh & H).
  destruct x as [| | | | |g]; try discriminate.
  apply bind_ok in H as (l & Hi & H).
  apply bind_ok in H as ([l' cs] & Hl & H). py_step_in H. injection H as <- <-.
  split.
  - intros g' E. injection E as <-. exists g. split; [reflexivity|].
    apply dict_get_set_neq. str_neq.
  - intros g0 _. eauto.
Qed.

Lemma lifecycle_not_tool ev :
  str_mem ev LIFECYCLE_EVENTS = true -> str_mem ev TOOL_EVENTS = false.
Proof.
  intro L. destruct (str_mem ev TOOL_EVENTS) eqn:T; [|reflexivity].
  unfold str_mem in T. apply existsb_exists in T as (x & I & E).
  apply str_eqb_eq in E. subst x.
  destruct I as [<- | [<- | []]]; discriminate L.
Qed.
Lemma run_migrations_steps cfg cfg' ch :
  run_migrations cfg = Ok (cfg', ch) ->
  exists cfg1 cfg2 cfg3 c1 c2 c3 c4 c5,
    migrate_remove_invalid_events cfg = Ok (cfg1, c1)
    /\ migrate_remove_empty_matchers cfg1 = Ok (cfg2, c2)
    /\ migrate_add_missing_matchers cfg2 = Ok (cfg3, c3)
    /\ migrate_validate_hook_types cfg3 = Ok (cfg', c4)
    /\ migrate_normalize_script_paths cfg' = Ok (cfg', c5)
    /\ ch = c1 ++ c2 ++ c3 ++ c4 ++ c5.
Proof.
  intro H. unfold run_migrations in H. cbn [app] in H.
  apply bind_ok in H as ([cfg1 c1] & H1 & H).
  apply bind_ok in H as ([cfg2 c2] & H2 & H).
  apply bind_ok in H as ([cfg3 c3] & H3 & H).
  apply bind_ok in H as ([cfg4 c4] & H4 & H).
  apply bind_ok in H as ([cfg5 c5] & H5 & H). injection H as <- <-.
  assert (E : cfg5 = cfg4).
  { unfold migrate_normalize_script_paths in H5.
    apply bind_ok in H5 as (has & _ & H5). destruct has; cbn [negb] in H5.
    - apply bind_ok in H5 as (? & _ & H5). apply bind_ok in H5 as (? & _ & H5).
      apply bind_ok in H5 as (? & _ & H5). now injection H5.
    - now injection H5. }
  subst cfg5. exists cfg1, cfg2, cfg3, c1, c2, c3, c4, c5.
  rewrite <- !app_assoc. repeat split; auto.
Qed.

(** X15. When the run of the five migrations returns, every event of the
    resulting configuration has a valid name, every hook group of a tool
    event has a matcher that is not empty, and no hook group of a lifecycle
    event has a matcher that is empty or white space. *)
Theorem run_migrations_result cfg cfg' ch :
  run_migrations cfg = Ok (cfg', ch) ->
  (forall ev, In ev (event_names cfg') -> str_mem ev VALID_EVENTS = true)
  /\ (forall ev i x,
        str_mem ev TOOL_EVENTS = true -> hook_group cfg' ev i = Some x ->
        exists g m, x = PDict g /\ dict_get g "matcher" = Some m /\ truthy m = true)
  /\ (forall ev i g m,
        str_mem ev LIFECYCLE_EVENTS = true ->
        hook_group cfg' ev i = Some (PDict g) ->
        dict_get g "matcher" = Some m ->
        exists s, m = PStr s /\ strip s <> []).
Proof.
  intro H.
  destruct (run_migrations_steps _ H)
    as (cfg1 & cfg2 & cfg3 & c1 & c2 & c3 & c4 & c5 & H1 & H2 & H3 & H4 & _ & _).
  destruct (remove_invalid_events_post _ H1) as (N1 & _).
  destruct (remove_empty_matchers_post _ H2) as (L2 & _).
  destruct (add_missing_matchers_post _ H3) as (T3 & S3 & _).
  pose proof H2 as N2. rewrite remove_empty_matchers_over in N2.
  apply over_groups_event_names in N2.
  pose proof H3 as N3. rewrite add_missing_matchers_over in N3.
  apply over_groups_event_names in N3.
  pose proof H4 as N4. rewrite validate_hook_types_over in H4.
  rewrite validate_hook_types_over in N4. apply over_groups_event_names in N4.
  split; [|split].
  - intros ev I. rewrite N4, N3, N2, N1 in I. now apply filter_In in I as [_ I].
  - intros ev i x' T G'.
    destruct (@over_groups_group_inv _ _ _ _ _ _ _ _ H4 eq_refl G') as (x & c & G & V).
    destruct (T3 _ _ _ T G) as (g & m & -> & M & Tm).
    destruct (validate_hook_types_group_matcher _ _ _ V) as (B & F).
    destruct (F _ eq_refl) as (g' & ->).
    destruct (B _ eq_refl) as (g0 & E & M'). injection E as <-.
    exists g', m. rewrite M'. auto.
  - intros ev i g' m L G' M'.
    destruct (@over_groups_group_inv _ _ _ _ _ _ _ _ H4 eq_refl G') as (x & c & G & V).
    destruct (validate_hook_types_group_matcher _ _ _ V) as (B & _).
    destruct (B _ eq_refl) as (g & -> & E).
    rewrite S3 in G by now apply lifecycle_not_tool.
    apply (L2 _ _ _ _ L G). congruence.
Qed.

End RunResults.
(** ** The validators: status, validity and exit code *)

Lemma mapM_Forall2 {A B} (f : A -> result B) l :
  forall rs, mapM f l = Ok rs -> Forall2 (fun x y => f x = Ok y) l rs.
Proof.
  induction l as [|x l IH]; intros rs H; simpl in H.
  - injection H as <-. constructor.
  - apply bind_ok in H as (y & Hy & H). apply bind_ok in H as (ys & Hys & H).
    injection H as <-. constructor; auto.
Qed.

Section ValidatorFacts.

Context {rt : PyRuntime}.

Lemma status_of_critical r :
  str_mem (status_of r) (strs ["errors"; "parse_error"]) = true <-> critical_errors r <> [].
Proof.
  unfold status_of. destruct (critical_errors r); [destruct (warnings r)|];
    split; intro H; try reflexivity; try discriminate; now elim H.
Qed.

Lemma command_status_critical f status r :
  AuditCommands.validate_command f = Ok (status, r) ->
  str_mem status (strs ["valid"; "warnings"; "errors"; "parse_error"]) = true
  /\ (str_mem status (strs ["errors"; "parse_error"]) = true <-> critical_errors r <> []).
Proof.
  unfold AuditCommands.validate_command. intro H.
  apply bind_ok in H as (p & _ & H). destruct p as [fm body|e].
  - apply bind_ok in H as (r1 & _ & H). apply bind_ok in H as (r2 & _ & H).
    apply bind_ok in H as (r3 & _ & H). apply bind_ok in H as (r4 & _ & H).
    injection H as <- <-. split; [|apply status_of_critical].
    unfold status_of. destruct (critical_errors r4); [destruct (warnings r4)|]; reflexivity.
  - injection H as <- <-. split; [reflexivity|]. split; [discriminate | reflexivity].
Qed.

Lemma skill_status_critical sd status r :
  AuditSkills.validate_skill sd = Ok (status, r) ->
  str_mem status (strs ["valid"; "warnings"; "errors"; "parse_error"]) = true
  /\ (str_mem status (strs ["errors"; "parse_error"]) = true <-> critical_errors r <> []).
Proof.
  unfold AuditSkills.validate_skill. intro H.
  apply bind_ok in H as (p & _ & H). destruct p as [fm body|e].
  - apply bind_ok in H as (r1 & _ & H). apply bind_ok in H as (r2 & _ & H).
    apply bind_ok in H as (r3 & _ & H). apply bind_ok in H as (r4 & _ & H).
    apply bind_ok in H as (r5 & _ & H).
    injection H as <- <-. split; [|apply status_of_critical].
    unfold status_of.
    match goal with |- context [critical_errors ?r] =>
      destruct (critical_errors r); [destruct (warnings r)|] end; reflexivity.
  - injection H as <- <-. split; [reflexivity|]. split; [discriminate | reflexivity].
Qed.

(** X16. The audit of command files returns one entry per file, in the order of
    the files, each with one of the four statuses, and its exit code is 1
    exactly when some file has a critical error. *)
Theorem command_audit_exit_code files results :
  AuditCommands.audit files = Ok results ->
  map fst results = files
  /\ (forall e, In e results ->
        str_mem (fst (snd e)) (strs ["valid"; "warnings"; "errors"; "parse_error"]) = true)
  /\ (AuditCommands.exit_code results = 1
      <-> exists e, In e results /\ critical_errors (snd (snd e)) <> [])
  /\ (AuditCommands.exit_code results = 0
      <-> forall e, In e results -> critical_errors (snd (snd e)) = []).
Proof.
  unfold AuditCommands.audit. intro H. apply mapM_Forall2 in H.
  assert (K : Forall (fun e => AuditCommands.validate_command (fst e) = Ok (snd e)) results
              /\ map fst results = files).
  { induction H as [|f e files results Hf _ [IH1 IH2]]; [split; [constructor|reflexivity]|].
    apply bind_ok in Hf as (res & V & Hf). injection Hf as <-. split.
    - constructor; [exact V | exact IH1].
    - simpl. now rewrite IH2. }
  destruct K as [K E]. split; [exact E|]. rewrite Forall_forall in K.
  assert (X : AuditCommands.exit_code results = 1
              <-> exists e, In e results /\ critical_errors (snd (snd e)) <> []).
  { unfold AuditCommands.exit_code.
    destruct (existsb _ results) eqn:B.
    - split; [intros _|reflexivity]. apply existsb_exists in B as ([f [st r]] & I & S).
      exists (f, (st, r)). split; [exact I|].
      apply (command_status_critical _ (K _ I)). exact S.
    - split; [discriminate|]. intros ([f [st r]] & I & C). exfalso.
      apply (command_status_critical _ (K _ I)) in C.
      assert (B' : existsb (fun e : file * (pystr * report) =>
                    str_mem (fst (snd e)) (strs ["errors"; "parse_error"])) results = true).
      { apply existsb_exists. exists (f, (st, r)). auto. }
      rewrite B in B'. discriminate. }
  split; [|split; [exact X|]].
  - intros [f [st r]] I. apply (command_status_critical _ (K _ I)).
  - split.
    + intros Z e I. destruct (critical_errors (snd (snd e))) eqn:C; [reflexivity|].
      assert (O : AuditCommands.exit_code results = 1).
      { apply X. exists e. split; [exact I|]. rewrite C. discriminate. }
      rewrite Z in O. discriminate.
    + intro Z. unfold AuditCommands.exit_code in *.
      destruct (existsb _ results) eqn:B; [|reflexivity].
      destruct X as [X _]. destruct (X eq_refl) as (e & I & C). now rewrite (Z _ I) in C.
Qed.
(** X17. The audit of skill directories returns one entry per directory, in
    order, each with one of the four statuses, and its exit code is 1
    exactly when some skill has a critical error. *)
Theorem skill_audit_exit_code dirs results :
  AuditSkillsMain.audit dirs = Ok results ->
  map fst results = dirs
  /\ (forall e, In e results ->
        str_mem (fst (snd e)) (strs ["valid"; "warnings"; "errors"; "parse_error"]) = true)
  /\ (AuditSkillsMain.exit_code results = 1
      <-> exists e, In e results /\ critical_errors (snd (snd e)) <> [])
  /\ (AuditSkillsMain.exit_code results = 0
      <-> forall e, In e results -> critical_errors (snd (snd e)) = []).
Proof.
  unfold AuditSkillsMain.audit. intro H. apply mapM_Forall2 in H.
  assert (K : Forall (fun e => AuditSkills.validate_skill (fst e) = Ok (snd e)) results
              /\ map fst results = dirs).
  { induction H as [|f e files results Hf _ [IH1 IH2]]; [split; [constructor|reflexivity]|].
    apply bind_ok in Hf as (res & V & Hf). injection Hf as <-. split.
    - constructor; [exact V | exact IH1].
    - simpl. now rewrite IH2. }
  destruct K as [K E]. split; [exact E|]. rewrite Forall_forall in K.
  assert (X : AuditSkillsMain.exit_code results = 1
              <-> exists e, In e results /\ critical_errors (snd (snd e)) <> []).
  { unfold AuditSkillsMain.exit_code.
    destruct (existsb _ results) eqn:B.
    - split; [intros _|reflexivity]. apply existsb_exists in B as ([f [st r]] & I & S).
      exists (f, (st, r)). split; [exact I|].
      apply (skill_status_critical _ (K _ I)). exact S.
    - split; [discriminate|]. intros ([f [st r]] & I & C). exfalso.
      apply (skill_status_critical _ (K _ I)) in C.
      assert (B' : existsb (fun e : skill_dir * (pystr * report) =>
                    str_mem (fst (snd e)) (strs ["errors"; "parse_error"])) results = true).
      { apply existsb_exists. exists (f, (st, r)). auto. }
      rewrite B in B'. discriminate. }
  split; [|split; [exact X|]].
  - intros [f [st r]] I. apply (skill_status_critical _ (K _ I)).
  - split.
    + intros Z e I. destruct (critical_errors (snd (snd e))) eqn:C; [reflexivity|].
      assert (O : AuditSkillsMain.exit_code results = 1).
      { apply X. exists e. split; [exact I|]. rewrite C. discriminate. }
      rewrite Z in O. discriminate.
    + intro Z. unfold AuditSkillsMain.exit_code in *.
      destruct (existsb _ results) eqn:B; [|reflexivity].
      destruct X as [X _]. destruct (X eq_refl) as (e & I & C). now rewrite (Z _ I) in C.
Qed.

Lemma security_warning_critical e :
  startswith e "Security Warning:" = true -> ValidateCommand.is_critical e = true.
Proof.
  destruct e as [|c e]; [discriminate|]. unfold ValidateCommand.is_critical.
  cbv [startswith pystr_of_string list_ascii_of_string map]. 
  intro H. apply andb_true_iff in H as [H _]. apply N.eqb_eq in H. subst c. reflexivity.
Qed.

Lemma classify_critical errors :
  fst (fst (ValidateCommandMain.classify errors)) = filter ValidateCommand.is_critical errors.
Proof.
  induction errors as [|e errors IH]; [reflexivity|].
  cbn [ValidateCommandMain.classify filter].
  destruct (ValidateCommandMain.classify errors) as [[c w] r]. cbn [fst] in IH.
  destruct (startswith e "Security Warning:") eqn:S.
  - rewrite (security_warning_critical _ S). cbn [fst]. now rewrite IH.
  - unfold ValidateCommand.is_critical.
    destruct (startswith e "Warning:"); cbn [orb negb fst]; [exact IH|].
    destruct (startswith e "Recommendation:"); cbn [negb fst]; [exact IH|]. now rewrite IH.
Qed.
Lemma filter_app_last {A} (p : A -> bool) l x :
  p x = true -> filter p (l ++ [x]) <> [].
Proof.
  intros P E. rewrite filter_app in E. apply app_eq_nil in E as [_ E].
  simpl in E. rewrite P in E. discriminate.
Qed.

Lemma validity_is_no_critical f valid errors :
  ValidateCommand.validate_command f = Ok (valid, errors) ->
  valid = match filter ValidateCommand.is_critical errors with [] => true | _ => false end.
Proof.
  unfold ValidateCommand.validate_command. intro H.
  destruct (file_exists f); cbn [negb] in H; [|now injection H as <- <-].
  destruct (file_read f) as [content|e]; [|now injection H as <- <-].
  destruct (re_match DOTALL frontmatter_re content) as [m|].
  - destruct (yaml_safe_load _) as [fm|[]]; try discriminate.
    + apply bind_ok in H as (e1 & _ & H). apply bind_ok in H as (e2 & _ & H).
      apply bind_ok in H as (e3 & _ & H). apply bind_ok in H as (e4 & _ & H).
      apply bind_ok in H as (e5 & _ & H). apply bind_ok in H as (e6 & _ & H).
      now injection H as <- <-.
    + injection H as <- <-.
      match goal with |- context [filter ?p (?l ++ [?x])] =>
        pose proof (@filter_app_last _ p l x eq_refl) as N;
        destruct (filter p (l ++ [x])) end; [now elim N | reflexivity].
  - injection H as <- <-.
    match goal with |- context [filter ?p (?l ++ [?x])] =>
      pose proof (@filter_app_last _ p l x eq_refl) as N;
      destruct (filter p (l ++ [x])) end; [now elim N | reflexivity].
Qed.

(** X18. The exit status of validate-command.py is 0 when [validate_command]
    finds the file valid and 1 when it does not; and the file is valid
    exactly when every finding is a warning or a recommendation. *)
Theorem validate_command_exit_status f valid errors :
  ValidateCommand.validate_command f = Ok (valid, errors) ->
  ValidateCommandMain.main f = Ok (if valid then 0 else 1)
  /\ (valid = true <-> forall e, In e errors -> ValidateCommand.is_critical e = false).
Proof.
  intro H. pose proof (validity_is_no_critical _ H) as V.
  unfold ValidateCommandMain.main. rewrite H. cbn [bind].
  pose proof (classify_critical errors) as C.
  destruct (ValidateCommandMain.classify errors) as [[c w] r]. cbn [fst] in C. subst c.
  split.
  - destruct (filter ValidateCommand.is_critical errors) eqn:F; subst valid.
    + destruct errors; reflexivity.
    + reflexivity.
  - split.
    + intros -> e I. destruct (ValidateCommand.is_critical e) eqn:B; [|reflexivity].
      assert (J : In e (filter ValidateCommand.is_critical errors))
        by (apply filter_In; auto).
      destruct (filter ValidateCommand.is_critical errors); [destruct J | discriminate].
    + intro N. rewrite V, (filter_none _ _ N). reflexivity.
Qed.

End ValidatorFacts.
(** ** The naming pattern *)

Section NamingFacts.

Context {rt : PyRuntime}.

Lemma star_class_complete fl k :
  forall q n st t,
    rest st = q ++ t -> forallb (class_match k) q = true ->
    (length (rest st) <= n)%nat ->
    exists st', In st' (star_loop (run fl (RClass k)) true n st) /\ rest st' = t.
Proof.
  induction q as [|c q IH]; intros n st t R A L.
  - exists st. split; [|exact R]. destruct n; [now left|].
    rewrite star_loop_unfold. cbv zeta. apply in_or_app. right. now left.
  - simpl in A. apply andb_true_iff in A as [C A].
    destruct n as [|n]; [rewrite R in L; simpl in L; lia|].
    rewrite star_loop_unfold. cbv zeta.
    destruct (IH n (advance st c (q ++ t)) t eq_refl A) as (st' & I & R').
    { rewrite R in L. simpl in L |- *. lia. }
    exists st'. split; [|exact R']. apply in_or_app. left.
    apply in_flat_map. exists (advance st c (q ++ t)). split.
    + cbn [run]. rewrite R. cbn [app]. rewrite C. now left.
    + rewrite R. cbn [rest advance app length].
      assert (X : (length (q ++ t) <? S (length (q ++ t)))%nat = true)
        by (apply Nat.ltb_lt; lia).
      rewrite X. exact I.
Qed.
Lemma flat_map_not_nil {A B} (f : A -> list B) l x :
  In x l -> f x <> [] -> flat_map f l <> [].
Proof.
  intros I N E. destruct (f x) as [|y ys] eqn:F; [now elim N|].
  assert (J : In y (flat_map f l)) by (apply in_flat_map; exists x; rewrite F; simpl; auto).
  rewrite E in J. destruct J.
Qed.

Lemma name_re_complete (p t : pystr) :
  p <> [] -> forallb (class_match name_class) p = true -> (t = [] \/ t = NL) ->
  matched (re_match NOFLAGS name_re (p ++ t)) = true.
Proof.
  intros N A T. destruct p as [|c q]; [now elim N|].
  simpl in A. apply andb_true_iff in A as [C A].
  unfold re_match, name_re, rseq, rplus. fold name_class.
  match goal with |- matched (hd_error ?l) = true => assert (X : l <> []) end.
  { cbn [run start_state prev flat_map rest app]. rewrite C.
    cbn [flat_map]. rewrite !app_nil_r.
    destruct (@star_class_complete NOFLAGS name_class q (length (q ++ t))
                (advance (start_state None ((c :: q) ++ t)) c (q ++ t)) t eq_refl A)
      as (st' & I & R); [reflexivity|].
    apply flat_map_not_nil with (x := st'); [exact I|].
    rewrite R. destruct T as [-> | ->]; discriminate. }
  destruct (run _ _ _); [now elim X | reflexivity].
Qed.

Lemma class_no_underscore (p : pystr) :
  forallb (class_match name_class) p = true -> str_in "_" p = false.
Proof.
  induction p as [|c p IH]; [reflexivity|]. cbn [forallb]. intro A.
  apply andb_true_iff in A as [C A].
  change (str_in "_" (c :: p)) with (startswith (c :: p) "_" || str_in "_" p).
  rewrite (IH A), orb_false_r.
  change (startswith (c :: p) "_") with ((95 =? c)%N && true).
  rewrite andb_true_r. apply N.eqb_neq. intros <-. discriminate C.
Qed.

Lemma str_in_app_nl (p : pystr) : str_in "_" (p ++ NL) = str_in "_" p.
Proof.
  induction p as [|c p IH]; [reflexivity|].
  change (str_in "_" ((c :: p) ++ NL))
    with (startswith (c :: p ++ NL) "_" || str_in "_" (p ++ NL)).
  change (str_in "_" (c :: p)) with (startswith (c :: p) "_" || str_in "_" p).
  now rewrite IH.
Qed.

Lemma name_re_sound_nonempty name :
  matched (re_match NOFLAGS name_re name) = true ->
  exists p, p <> [] /\ forallb (class_match name_class) p = true
            /\ (name = p \/ name = p ++ NL).
Proof.
  unfold re_match, name_re, rseq, rplus. fold name_class. intro H.
  destruct (run NOFLAGS _ _) as [|m0 ms] eqn:R; [discriminate|]. clear H.
  assert (I : In m0 (m0 :: ms)) by now left. rewrite <- R in I. clear R.
  simpl in I. rewrite app_nil_r in I.
  apply in_flat_map in I as (st1 & I1 & I).
  apply in_flat_map in I1 as (st0 & I0 & I1).
  destruct name as [|c s]; [destruct I0|]. simpl in I0.
  destruct (class_match name_class c) eqn:C; [|destruct I0].
  destruct I0 as [<- | []].
  apply (@star_class_sound rt NOFLAGS name_class) in I1 as (p & Hp & Hall). simpl in Hp.
  exists (c :: p). split; [discriminate|]. simpl. rewrite C, Hall. split; [reflexivity|].
  destruct (rest st1) as [|x [|y r]].
  - left. rewrite Hp. now rewrite app_nil_r.
  - simpl in I. destruct (x =? 10)%N eqn:X; [|destruct I]. apply N.eqb_eq in X. subst x.
    right. now rewrite Hp.
  - destruct I.
Qed.

Lemma name_ok_iff name :
  (matched (re_match NOFLAGS name_re name) = true /\ str_in "_" name = false)
  <-> exists p, p <> [] /\ forallb (class_match name_class) p = true
                /\ (name = p \/ name = p ++ NL).
Proof.
  split.
  - intros [M _]. now apply name_re_sound_nonempty.
  - intros (p & N & A & E). split.
    + destruct E as [-> | ->].
      * rewrite <- (app_nil_r p). apply name_re_complete; auto.
      * apply name_re_complete; auto.
    + destruct E as [-> | ->]; rewrite ?str_in_app_nl; now apply class_no_underscore.
Qed.

(** X19. The naming checks accept exactly the names made of one or more of the
    characters [a-z], [0-9] and [-], optionally followed by one newline
    (which [$] lets through); audit-commands.py and audit-skills.py also
    require at most 64 characters, validate-command.py has no limit. *)
Theorem accepted_names name :
  let well_formed :=
    exists p, p <> [] /\ forallb (class_match name_class) p = true
              /\ (name = p \/ name = p ++ NL) in
  (critical_errors (AuditCommands.check_filename name no_findings) = []
   <-> well_formed /\ (length name <= 64)%nat)
  /\ (critical_errors (AuditSkills.check_directory_name name no_findings) = []
      <-> well_formed /\ (length name <= 64)%nat)
  /\ (filter ValidateCommand.is_critical (ValidateCommand.check_filename name []) = []
      <-> well_formed).
Proof.
  cbv zeta. rewrite <- (name_ok_iff name).
  unfold AuditCommands.check_filename, AuditSkills.check_directory_name,
    ValidateCommand.check_filename, when, ValidateCommand.add.
  destruct (matched (re_match NOFLAGS name_re name));
    destruct (str_in "_" name);
    destruct (Nat.ltb_spec 64 (length name)) as [L | L];
    cbn [negb];
    repeat match goal with
           | |- context [if ?b then _ else _] => destruct b
           end;
    cbn [critical_errors add_critical add_recommendation no_findings app filter];
    repeat split; intros; try discriminate; try lia; try tauto;
    try (match goal with H : _ /\ _ |- _ => destruct H as [[? ?] ?] || destruct H end;
         try discriminate; try lia).
Qed.
End NamingFacts.

(** ** The version pattern of audit-skills.py *)

Section VersionFacts.

Context {rt : PyRuntime}.

Lemma plus_class_reach fl k (q t : pystr) st :
  q <> [] -> forallb (class_match k) q = true -> rest st = q ++ t ->
  exists st', In st' (run fl (rplus (RClass k)) st) /\ rest st' = t.
Proof.
  intros N A R. destruct q as [|c q]; [now elim N|].
  simpl in A. apply andb_true_iff in A as [C A].
  destruct (@star_class_complete rt fl k q (length (q ++ t)) (advance st c (q ++ t)) t
              eq_refl A) as (st' & I & R'); [reflexivity|].
  exists st'. split; [|exact R']. unfold rplus. cbn [run]. apply in_flat_map.
  exists (advance st c (q ++ t)). split; [|exact I].
  rewrite R. cbn [app]. rewrite C. now left.
Qed.

Lemma plus_class_sound fl k st st' :
  In st' (run fl (rplus (RClass k)) st) ->
  exists q, q <> [] /\ forallb (class_match k) q = true /\ rest st = q ++ rest st'.
Proof.
  unfold rplus. cbn [run]. intro I. apply in_flat_map in I as (st1 & I1 & I).
  destruct (rest st) as [|c s] eqn:R; [destruct I1|].
  destruct (class_match k c) eqn:C; [|destruct I1]. destruct I1 as [<- | []].
  apply (@star_class_sound rt fl k) in I as (p & Hp & A). cbn [rest advance] in Hp.
  exists (c :: p). split; [discriminate|]. split; [simpl; now rewrite C, A|].
  now rewrite Hp.
Qed.

Lemma char_reach c t st :
  rest st = c :: t -> In (advance st c t) (run NOFLAGS (RChar c) st).
Proof.
  intro R. cbn [run]. rewrite R. unfold char_match. cbn [ignorecase NOFLAGS andb].
  rewrite N.eqb_refl. now left.
Qed.

Lemma char_sound c st st' :
  In st' (run NOFLAGS (RChar c) st) -> rest st = c :: rest st'.
Proof.
  cbn [run]. destruct (rest st) as [|x s]; [intros []|].
  unfold char_match. cbn [ignorecase NOFLAGS andb].
  destruct (x =? c)%N eqn:E; [|intros []]. apply N.eqb_eq in E. subst x.
  intros [<- | []]. reflexivity.
Qed.
Lemma semver_re_iff s :
  matched (re_match NOFLAGS AuditSkills.semver_re s) = true <-> semver_like s.
Proof.
  unfold re_match, AuditSkills.semver_re, rseq. split.
  - intro H. destruct (run NOFLAGS _ _) as [|m0 ms] eqn:R; [discriminate|]. clear H.
    assert (I : In m0 (m0 :: ms)) by now left. rewrite <- R in I. clear R.
    cbn [run] in I. apply in_flat_map in I as (s0 & I0 & I).
    cbn [prev start_state] in I0. destruct I0 as [<- | []].
    change (In m0 (run NOFLAGS
              (RSeq (rplus (RClass CDigit))
                 (RSeq (RChar 46)
                    (RSeq (rplus (RClass CDigit))
                       (RSeq (RChar 46) (rplus (RClass CDigit))))))
              (start_state None s))) in I.
    cbn [run] in I. fold (run NOFLAGS (rplus (RClass CDigit))) in I.
    apply in_flat_map in I as (s1 & I1 & I).
    apply in_flat_map in I as (s2 & I2 & I).
    apply in_flat_map in I as (s3 & I3 & I).
    apply in_flat_map in I as (s4 & I4 & I).
    apply plus_class_sound in I1 as (a & Na & Aa & Ra).
    apply char_sound in I2. apply plus_class_sound in I3 as (b & Nb & Ab & Rb).
    apply char_sound in I4. apply plus_class_sound in I as (c & Nc & Ac & Rc).
    exists a, b, c, (rest m0). repeat split; auto.
    cbn [rest start_state] in Ra. rewrite Ra, I2, Rb, I4, Rc. reflexivity.
  - intros (a & b & c & more & [Na Aa] & [Nb Ab] & [Nc Ac] & ->).
    match goal with |- matched (hd_error ?l) = true => assert (X : l <> []) end.
    { cbn [run start_state prev flat_map]. rewrite app_nil_r.
      fold (run NOFLAGS (rplus (RClass CDigit))).
      destruct (@plus_class_reach NOFLAGS CDigit a ("." ++ b ++ "." ++ c ++ more)
                  (start_state None (a ++ "." ++ b ++ "." ++ c ++ more)) Na Aa eq_refl)
        as (s1 & I1 & R1).
      pose proof (char_reach _ R1) as I2.
      destruct (@plus_class_reach NOFLAGS CDigit b ("." ++ c ++ more)
                  (advance s1 46 (b ++ "." ++ c ++ more)) Nb Ab eq_refl)
        as (s3 & I3 & R3).
      pose proof (char_reach _ R3) as I4.
      destruct (@plus_class_reach NOFLAGS CDigit c more
                  (advance s3 46 (c ++ more)) Nc Ac eq_refl)
        as (s5 & I5 & R5).
      apply flat_map_not_nil with (x := s1); [exact I1|].
      apply flat_map_not_nil with (x := advance s1 46 (b ++ "." ++ c ++ more)); [exact I2|].
      apply flat_map_not_nil with (x := s3); [exact I3|].
      apply flat_map_not_nil with (x := advance s3 46 (c ++ more)); [exact I4|].
      intro E. change (run NOFLAGS (rplus (RClass CDigit)) (advance s3 46 (c ++ more)) = [])
        in E. rewrite E in I5. destruct I5. }
    destruct (run _ _ _); [now elim X | reflexivity].
Qed.
(** X20. The version check of audit-skills.py warns exactly when the text of
    the [version] field does not start with digits, a dot, digits, a dot and
    digits; whatever follows is accepted, a missing field is accepted, and
    the check never adds a critical error. *)
Theorem version_accepted_iff d r :
  (dict_get d "version" = None -> AuditSkills.check_version (PDict d) r = Ok r)
  /\ (forall v, dict_get d "version" = Some v ->
        exists r',
          AuditSkills.check_version (PDict d) r = Ok r'
          /\ critical_errors r' = critical_errors r
          /\ (warnings r' = warnings r <-> semver_like (py_str v))
          /\ (~ semver_like (py_str v) ->
              warnings r' = warnings r ++ ["Use semantic versioning (e.g., 1.0.0)" : pystr])).
Proof.
  unfold AuditSkills.check_version. py_step. split.
  - intros ->. reflexivity.
  - intros v ->. py_step. eexists. split; [reflexivity|].
    pose proof (semver_re_iff (py_str v)) as S.
    destruct (matched (re_match NOFLAGS AuditSkills.semver_re (py_str v)));
      cbn [negb when add_warning critical_errors warnings].
    + split; [reflexivity|]. split; [tauto|]. intro N. elim N. now apply S.
    + split; [reflexivity|]. split; [|reflexivity]. split.
      * intro E. exfalso. apply (f_equal (@length pystr)) in E.
        rewrite length_app in E. simpl in E. lia.
      * intro L. apply S in L. discriminate.
Qed.

End VersionFacts.
(** ** The frontmatter pattern *)

Section FrontmatterFacts.

Context {rt : PyRuntime}.

Lemma run_newline_at st s :
  rest st = 10%N :: s ->
  run DOTALL (RChar 10) st = [{| prev := Some 10%N; rest := s; groups := groups st |}].
Proof. intro R. cbn [run]. rewrite R. reflexivity. Qed.

Lemma run_newline_not st :
  match rest st with [] => true | c :: _ => negb (c =? 10)%N end = true ->
  run DOTALL (RChar 10) st = [].
Proof.
  intro R. cbn [run]. destruct (rest st) as [|c s]; [reflexivity|].
  unfold char_match. cbn [ignorecase DOTALL andb].
  apply negb_true_iff in R. now rewrite R.
Qed.

Lemma run_space_at st c s :
  rest st = c :: s -> isspace c = true -> run DOTALL SPACE st = [advance st c s].
Proof.
  intros R C. unfold SPACE. cbn [run]. rewrite R. unfold class_match. now rewrite C.
Qed.

Lemma flat_map_nil {A B} (f : A -> list B) l :
  (forall x, In x l -> f x = []) -> flat_map f l = [].
Proof.
  induction l as [|x l IH]; intro H; [reflexivity|]. simpl.
  rewrite (H x (or_introl eq_refl)), IH; auto. intros. apply H. now right.
Qed.

(** What is left after some white space of [w2 ++ tail], where [w2] is
    white space without a newline and [tail] does not start with white
    space, does not start with a newline. *)
Lemma after_blanks (w2 tail p sx : pystr) :
  forallb (fun c => isspace c && negb (c =? 10)%N) w2 = true ->
  match tail with [] => true | c :: _ => negb (isspace c) end = true ->
  forallb isspace p = true ->
  w2 ++ tail = p ++ sx ->
  match sx with [] => true | c :: _ => negb (c =? 10)%N end = true.
Proof.
  revert p. induction w2 as [|c w2 IH]; intros p W T P E.
  - cbn [app] in E. destruct p as [|x p].
    + cbn [app] in E. subst sx. destruct tail as [|c t]; [reflexivity|].
      destruct (c =? 10)%N eqn:C; [|reflexivity].
      apply N.eqb_eq in C. subst c. discriminate T.
    + subst tail. cbn [app] in T. cbn [forallb] in P.
      apply andb_true_iff in P as [P _]. rewrite P in T. discriminate.
  - cbn [forallb] in W. apply andb_true_iff in W as [C W].
    apply andb_true_iff in C as [_ C].
    destruct p as [|x p].
    + cbn [app] in E. subst sx. exact C.
    + cbn [app] in E. injection E as <- E. cbn [forallb] in P.
      apply andb_true_iff in P as [_ P]. now apply (IH p).
Qed.
(** [\s*\n] followed by [r]: the greedy white space gives back what it
    took after the last newline of the white space, and [r] starts there. *)
Lemma blanks_then_newline (K : mstate -> list mstate) w2 tail :
  forallb (fun c => isspace c && negb (c =? 10)%N) w2 = true ->
  match tail with [] => true | c :: _ => negb (isspace c) end = true ->
  forall w1 st n,
    rest st = w1 ++ NL ++ w2 ++ tail ->
    forallb isspace w1 = true ->
    length (rest st) <= n ->
    exists more,
      flat_map (fun s => flat_map K (run DOTALL (RChar 10) s))
        (star_loop (run DOTALL SPACE) true n st)
      = K {| prev := Some 10%N; rest := w2 ++ tail; groups := groups st |} ++ more.
Proof.
  intros W T. induction w1 as [|c w1 IH]; intros st n R A L.
  - cbn [app NL] in R.
    destruct n as [|n]; [rewrite R in L; simpl in L; lia|].
    rewrite star_loop_unfold. cbv zeta.
    rewrite (@run_space_at st 10%N (w2 ++ tail) R eq_refl).
    cbn [flat_map advance rest]. rewrite R. cbn [length].
    assert (P : (length (w2 ++ tail) <? S (length (w2 ++ tail)))%nat = true)
      by (apply Nat.ltb_lt; lia).
    rewrite P, app_nil_r, flat_map_app.
    rewrite flat_map_nil.
    + cbn [flat_map app]. rewrite (@run_newline_at st (w2 ++ tail) R).
      cbn [flat_map]. rewrite !app_nil_r. exists []. now rewrite app_nil_r.
    + intros x I. apply (@star_class_sound rt DOTALL CSpace) in I as (p & Hp & Ap).
      cbn [rest] in Hp. rewrite run_newline_not; [reflexivity|].
      eapply after_blanks; eauto.
  - cbn [forallb] in A. apply andb_true_iff in A as [C A].
    change (rest st = c :: (w1 ++ NL ++ w2 ++ tail)) in R.
    destruct n as [|n]; [rewrite R in L; simpl in L; lia|].
    rewrite star_loop_unfold. cbv zeta.
    rewrite (@run_space_at st c (w1 ++ NL ++ w2 ++ tail) R C).
    cbn [flat_map advance rest]. rewrite R. cbn [length].
    assert (P : (length (w1 ++ NL ++ w2 ++ tail) <? S (length (w1 ++ NL ++ w2 ++ tail)))%nat
                = true) by (apply Nat.ltb_lt; lia).
    rewrite P, app_nil_r, flat_map_app.
    destruct (IH (advance st c (w1 ++ NL ++ w2 ++ tail)) n eq_refl A) as (more & E).
    { rewrite R in L. simpl in L |- *. lia. }
    rewrite E. cbn [advance groups]. rewrite <- app_assoc. eauto.
Qed.
(** A lazy [.*] followed by [K]: the match ends at the first place where
    [K] does not fail. *)
Lemma lazy_any_until (F : mstate -> mstate) (K : mstate -> list mstate) tail :
  (forall s, rest (F s) = rest s) ->
  forall todo st n,
    rest st = todo ++ tail ->
    (forall a c b st1, todo = a ++ c :: b -> rest st1 = c :: b ++ tail -> K st1 = []) ->
    length (rest st) <= n ->
    exists st' more,
      flat_map K (map F (star_loop (run DOTALL RAny) false n st)) = K (F st') ++ more
      /\ rest st' = tail /\ groups st' = groups st.
Proof.
  intros HF. induction todo as [|c todo IH]; intros st n R E L.
  - exists st. destruct n as [|n].
    + cbn [star_loop map flat_map]. eexists. split; [reflexivity|]. auto.
    + rewrite star_loop_unfold. cbv zeta. cbn [map flat_map]. eexists.
      split; [reflexivity|]. auto.
  - change (rest st = c :: (todo ++ tail)) in R.
    destruct n as [|n]; [rewrite R in L; simpl in L; lia|].
    rewrite star_loop_unfold. cbv zeta. cbn [map flat_map].
    rewrite (E [] c todo (F st) eq_refl) by (rewrite HF; exact R).
    rewrite (@run_any_dotall rt st c (todo ++ tail) R).
    cbn [app flat_map advance rest]. rewrite R. cbn [length].
    assert (P : (length (todo ++ tail) <? S (length (todo ++ tail)))%nat = true)
      by (apply Nat.ltb_lt; lia).
    rewrite P, app_nil_r.
    destruct (IH (advance st c (todo ++ tail)) n eq_refl) as (st' & more & X & R' & G').
    + intros a c' b st1 -> R1. exact (E (c :: a) c' b st1 eq_refl R1).
    + rewrite R in L. simpl in L |- *. lia.
    + exists st', more. auto.
Qed.

(** A greedy [.*] with the flag [DOTALL] takes the whole text first. *)
Lemma greedy_any_all :
  forall s st n,
    rest st = s -> length s <= n ->
    exists st' more,
      star_loop (run DOTALL RAny) true n st = st' :: more
      /\ rest st' = [] /\ groups st' = groups st.
Proof.
  induction s as [|c s IH]; intros st n R L.
  - destruct n as [|n].
    + exists st, []. auto.
    + rewrite star_loop_unfold. cbv zeta. cbn [run]. rewrite R. cbn [flat_map app].
      exists st, []. auto.
  - destruct n as [|n]; [simpl in L; lia|].
    rewrite star_loop_unfold. cbv zeta.
    rewrite (@run_any_dotall rt st c s R).
    cbn [flat_map advance rest]. rewrite R. cbn [length].
    assert (P : (length s <? S (length s))%nat = true) by (apply Nat.ltb_lt; lia).
    rewrite P, app_nil_r.
    destruct (IH (advance st c s) n eq_refl) as (st' & more & X & R' & G').
    { simpl in L. lia. }
    rewrite X. cbn [app]. eauto.
Qed.
Lemma str_in_unfold needle s :
  str_in needle s
  = startswith s needle || match s with [] => false | _ :: s' => str_in needle s' end.
Proof. destruct s; reflexivity. Qed.

Lemma str_in_suffix needle a s :
  str_in needle (a ++ s) = false -> startswith s needle = false.
Proof.
  induction a as [|c a IH]; cbn [app]; rewrite str_in_unfold; intro H;
    apply orb_false_iff in H as [H1 H2]; auto.
Qed.

Lemma delimiter_not_inside y a c b z :
  no_delimiter_inside y = true -> y = a ++ c :: b ->
  startswith (c :: b ++ NL ++ "---" ++ z) (NL ++ "---") = false.
Proof.
  unfold no_delimiter_inside. intros H ->. apply negb_true_iff in H.
  rewrite <- app_assoc in H. apply str_in_suffix in H.
  etransitivity; [|exact H]. cbn [app].
  change (NL ++ "---") with [10; 45; 45; 45]%N.
  change (NL ++ "---" ++ z) with ([10; 45; 45; 45]%N ++ z).
  change (NL ++ "--") with [10; 45; 45]%N.
  destruct b as [|b1 [|b2 [|b3 b]]]; reflexivity.
Qed.

Lemma close_fails r st1 :
  startswith (rest st1) (NL ++ "---") = false ->
  run DOTALL (RSeq (RChar 10) (RSeq (rlit "---") r)) st1 = [].
Proof.
  change (NL ++ "---") with [10; 45; 45; 45]%N.
  change (rlit "---") with (RSeq (RChar 45) (RSeq (RChar 45) (RChar 45))).
  intro H. cbn [run]. unfold char_match. cbn [ignorecase DOTALL andb].
  destruct (rest st1) as [|a s]; [reflexivity|].
  destruct (N.eqb_spec a 10); [subst a|reflexivity]. cbn [flat_map rest advance].
  destruct s as [|b s]; [reflexivity|].
  destruct (N.eqb_spec b 45); [subst b|reflexivity]. cbn [flat_map rest advance app].
  destruct s as [|c s]; [reflexivity|].
  destruct (N.eqb_spec c 45); [subst c|reflexivity]. cbn [flat_map rest advance app].
  destruct s as [|d s]; [reflexivity|].
  destruct (N.eqb_spec d 45); [subst d|reflexivity]. discriminate H.
Qed.
Lemma run_seq fl r1 r2 st :
  run fl (RSeq r1 r2) st = flat_map (run fl r2) (run fl r1 st).
Proof. reflexivity. Qed.

Lemma run_bol fl s : run fl RBol (start_state None s) = [start_state None s].
Proof. reflexivity. Qed.

Lemma run_dashes st s :
  rest st = "---" ++ s ->
  run DOTALL (rlit "---") st = [{| prev := Some 45%N; rest := s; groups := groups st |}].
Proof.
  change (pystr_of_string "---") with [45; 45; 45]%N. intro R.
  change (rlit [45; 45; 45]%N) with (RSeq (RChar 45) (RSeq (RChar 45) (RChar 45))).
  cbn [run]. rewrite R. reflexivity.
Qed.

Lemma frontmatter_run (rt' : regex) (Kend : mstate -> list mstate) y w1 w2 tail :
  (forall s, run DOTALL rt' s = flat_map Kend (run DOTALL (RChar 10) s)) ->
  starts_dark y = true -> no_delimiter_inside y = true ->
  forallb isspace w1 = true -> inline_blanks w2 = true -> no_blank_start tail = true ->
  exists more,
    run DOTALL
      (RSeq RBol (RSeq (rlit "---") (RSeq (RStar true SPACE) (RSeq (RChar 10)
         (RSeq (RGroup (RStar false RAny)) (RSeq (RChar 10) (RSeq (rlit "---")
            (RSeq (RStar true SPACE) rt'))))))))
      (start_state None (document y w1 w2 tail))
    = Kend {| prev := Some 10%N; rest := w2 ++ tail; groups := [y] |} ++ more.
Proof.
  intros HK Y D W1 W2 T.
  set (R6 := RSeq (RStar true SPACE) rt').
  set (R5 := RSeq (RChar 10) (RSeq (rlit "---") R6)).
  set (R4 := RSeq (RGroup (RStar false RAny)) R5).
  set (close := NL ++ "---" ++ w1 ++ NL ++ w2 ++ tail).
  rewrite run_seq, run_bol. cbn [flat_map]. rewrite app_nil_r.
  rewrite run_seq.
  rewrite (@run_dashes (start_state None (document y w1 w2 tail)) (NL ++ y ++ close))
    by reflexivity.
  cbn [flat_map groups start_state]. rewrite app_nil_r.
  set (st3 := {| prev := Some 45%N; rest := NL ++ y ++ close; groups := [] |}).
  change (run DOTALL (RSeq (RStar true SPACE) (RSeq (RChar 10) R4)) st3)
    with (flat_map (fun s => flat_map (run DOTALL R4) (run DOTALL (RChar 10) s))
            (star_loop (run DOTALL SPACE) true (length (rest st3)) st3)).
  destruct (@blanks_then_newline (run DOTALL R4) [] (y ++ close) eq_refl) with
    (w1 := @nil N) (st := st3) (n := length (rest st3)) as (more1 & E1);
    [| reflexivity | reflexivity | reflexivity |].
  { destruct y as [|c y]; [discriminate Y | exact Y]. }
  rewrite E1. clear E1. cbn [app groups st3].
  set (st4 := {| prev := Some 10%N; rest := y ++ close; groups := [] |}).
  set (F := fun s : mstate =>
              {| prev := prev s; rest := rest s;
                 groups := groups s ++
                           [firstn (length (rest st4) - length (rest s)) (rest st4)] |}).
  change (run DOTALL R4 st4)
    with (flat_map (run DOTALL R5)
            (map F (star_loop (run DOTALL RAny) false (length (rest st4)) st4))).
  destruct (@lazy_any_until F (run DOTALL R5) close (fun _ => eq_refl) y st4
              (length (rest st4)) eq_refl) as (st' & more2 & E2 & R' & G'); [| reflexivity |].
  { intros a c b st1 Ey R1. apply close_fails. rewrite R1.
    exact (@delimiter_not_inside y a c b (w1 ++ NL ++ w2 ++ tail) D Ey). }
  rewrite E2. clear E2.
  assert (GF : groups (F st') = [y]).
  { unfold F. cbn [groups]. rewrite G', R'. cbn [st4 groups rest app].
    f_equal. apply firstn_app_exact. }
  assert (RF : rest (F st') = close) by exact R'.
  unfold R5 at 1. rewrite run_seq.
  rewrite (@run_newline_at (F st') ("---" ++ w1 ++ NL ++ w2 ++ tail)) by exact RF.
  cbn [flat_map]. rewrite app_nil_r. rewrite run_seq.
  erewrite run_dashes by reflexivity.
  cbn [flat_map groups]. rewrite app_nil_r, GF.
  set (st7 := {| prev := Some 45%N; rest := w1 ++ NL ++ w2 ++ tail; groups := [y] |}).
  unfold R6. rewrite run_seq.
  change (run DOTALL (RStar true SPACE) st7)
    with (star_loop (run DOTALL SPACE) true (length (rest st7)) st7).
  rewrite (flat_map_ext _ _ HK).
  destruct (@blanks_then_newline Kend w2 tail W2 T w1 st7 (length (rest st7)) eq_refl W1)
    as (more3 & E3); [reflexivity|].
  rewrite E3. cbn [groups st7]. rewrite <- !app_assoc. eauto.
Qed.
Lemma flat_map_single {A} (l : list A) : flat_map (fun x => [x]) l = l.
Proof. induction l as [|x l IH]; [reflexivity|]. simpl. now rewrite IH. Qed.

Lemma body_to_end st body :
  rest st = body ->
  exists m more,
    run DOTALL (RSeq (RGroup (RStar true RAny)) REol) st = m :: more
    /\ rest m = [] /\ groups m = groups st ++ [body].
Proof.
  intro R. rewrite run_seq.
  set (F := fun s : mstate =>
              {| prev := prev s; rest := rest s;
                 groups := groups s ++
                           [firstn (length (rest st) - length (rest s)) (rest st)] |}).
  change (run DOTALL (RGroup (RStar true RAny)) st)
    with (map F (star_loop (run DOTALL RAny) true (length (rest st)) st)).
  destruct (@greedy_any_all (rest st) st (length (rest st)) eq_refl (le_n _))
    as (st' & more & E & R' & G').
  rewrite E. cbn [map flat_map].
  assert (RF : rest (F st') = []) by exact R'.
  cbn [run]. rewrite RF. cbn [app]. eexists _, _. split; [reflexivity|].
  split; [exact RF|]. unfold F. cbn [groups]. rewrite G', R', R. cbn [length].
  now rewrite Nat.sub_0_r, firstn_all.
Qed.

(** The pattern of the audits and of the migrations on a document: the
    first group is the metadata, the second what follows the last newline
    of the white space after the closing delimiter. *)
Lemma frontmatter_body_match y w1 w2 tail :
  starts_dark y = true -> no_delimiter_inside y = true ->
  forallb isspace w1 = true -> inline_blanks w2 = true -> no_blank_start tail = true ->
  exists m,
    re_match DOTALL frontmatter_body_re (document y w1 w2 tail) = Some m
    /\ groups m = [y; w2 ++ tail].
Proof.
  intros Y D W1 W2 T.
  destruct (@frontmatter_run
              (RSeq (RChar 10) (RSeq (RGroup (RStar true RAny)) REol))
              (run DOTALL (RSeq (RGroup (RStar true RAny)) REol))
              y w1 w2 tail (fun _ => eq_refl) Y D W1 W2 T) as (more & E).
  destruct (@body_to_end {| prev := Some 10%N; rest := w2 ++ tail; groups := [y] |}
              (w2 ++ tail) eq_refl) as (m & more' & E' & _ & G).
  exists m. split; [|exact G].
  unfold re_match.
  change (run DOTALL frontmatter_body_re (start_state None (document y w1 w2 tail)))
    with (run DOTALL
      (RSeq RBol (RSeq (rlit "---") (RSeq (RStar true SPACE) (RSeq (RChar 10)
         (RSeq (RGroup (RStar false RAny)) (RSeq (RChar 10) (RSeq (rlit "---")
            (RSeq (RStar true SPACE)
               (RSeq (RChar 10) (RSeq (RGroup (RStar true RAny)) REol))))))))))
      (start_state None (document y w1 w2 tail))).
  rewrite E, E'. reflexivity.
Qed.

(** The pattern of validate-command.py on a document: the group is the
    metadata and the match ends where the body starts. *)
Lemma frontmatter_match y w1 w2 tail :
  starts_dark y = true -> no_delimiter_inside y = true ->
  forallb isspace w1 = true -> inline_blanks w2 = true -> no_blank_start tail = true ->
  exists m,
    re_match DOTALL frontmatter_re (document y w1 w2 tail) = Some m
    /\ groups m = [y] /\ rest m = w2 ++ tail.
Proof.
  intros Y D W1 W2 T.
  destruct (@frontmatter_run (RChar 10) (fun s => [s]) y w1 w2 tail
              (fun s => eq_sym (flat_map_single _)) Y D W1 W2 T) as (more & E).
  exists {| prev := Some 10%N; rest := w2 ++ tail; groups := [y] |}.
  split; [|split; reflexivity].
  unfold re_match.
  change (run DOTALL frontmatter_re (start_state None (document y w1 w2 tail)))
    with (run DOTALL
      (RSeq RBol (RSeq (rlit "---") (RSeq (RStar true SPACE) (RSeq (RChar 10)
         (RSeq (RGroup (RStar false RAny)) (RSeq (RChar 10) (RSeq (rlit "---")
            (RSeq (RStar true SPACE) (RChar 10)))))))))
      (start_state None (document y w1 w2 tail))).
  rewrite E. reflexivity.
Qed.
Lemma parse_document y w1 w2 tail fm :
  starts_dark y = true -> no_delimiter_inside y = true ->
  forallb isspace w1 = true -> inline_blanks w2 = true -> no_blank_start tail = true ->
  yaml_safe_load y = Ok fm ->
  (forall f, file_read f = inl (document y w1 w2 tail) ->
     AuditCommands.parse_command f = Ok (AuditCommands.Parsed fm (w2 ++ tail)))
  /\ (forall sd, skill_md_exists sd = true ->
        skill_md_read sd = inl (document y w1 w2 tail) ->
        AuditSkills.parse_skill sd = Ok (AuditSkills.Parsed fm (w2 ++ tail)))
  /\ (forall f d, file_exists f = true ->
        file_read f = inl (document y w1 w2 tail) ->
        fm = PDict d -> decodes f d (w2 ++ tail)).
Proof.
  intros Y D W1 W2 T L.
  destruct (frontmatter_body_match y w1 w2 tail Y D W1 W2 T) as (m & M & G).
  destruct (frontmatter_match y w1 w2 tail Y D W1 W2 T) as (m' & M' & G' & R').
  split; [|split].
  - intros f R. unfold AuditCommands.parse_command. rewrite R, M, G. cbn [nth].
    now rewrite L.
  - intros sd X R. unfold AuditSkills.parse_skill. rewrite X, R, M, G. cbn [negb nth].
    now rewrite L.
  - intros f d X R ->. split; [exact X|]. exists (document y w1 w2 tail), m'.
    rewrite G'. cbn [nth]. auto.
Qed.

(** X21. On a document whose metadata decode, the parsers of audit-commands.py,
    audit-skills.py and validate-command.py find the same metadata and the
    same body: the text after the last newline of the white space that
    follows the closing delimiter.  Blank lines between the delimiter and
    the text are not part of the body. *)
Theorem parsers_split_document y w1 w2 tail fm :
  starts_dark y = true -> no_delimiter_inside y = true ->
  forallb isspace w1 = true -> inline_blanks w2 = true -> no_blank_start tail = true ->
  yaml_safe_load y = Ok fm ->
  (forall f, file_read f = inl (document y w1 w2 tail) ->
     AuditCommands.parse_command f = Ok (AuditCommands.Parsed fm (w2 ++ tail)))
  /\ (forall sd, skill_md_exists sd = true ->
        skill_md_read sd = inl (document y w1 w2 tail) ->
        AuditSkills.parse_skill sd = Ok (AuditSkills.Parsed fm (w2 ++ tail)))
  /\ (forall f d, file_exists f = true ->
        file_read f = inl (document y w1 w2 tail) ->
        fm = PDict d -> decodes f d (w2 ++ tail)).
Proof. exact (@parse_document y w1 w2 tail fm). Qed.
Lemma reconstruct_is_document fm y body :
  yaml_dump fm = y ++ NL ->
  MigrateCommand.reconstruct_command fm body = document y [] [] body
  /\ MigrateSkill.reconstruct_skill fm body = document y [] [] body.
Proof.
  intro E. unfold MigrateCommand.reconstruct_command, MigrateSkill.reconstruct_skill, document.
  rewrite E. cbn [app]. rewrite <- !app_assoc. auto.
Qed.

(** X22. What [reconstruct_command] and [reconstruct_skill] build is parsed back
    to the same metadata and the same body, when the YAML text decodes to
    the metadata it was dumped from, starts with a key, has no line that
    starts with three dashes, and the body has no newline in its leading
    white space. *)
Theorem reconstruct_then_parse fm y w2 tail :
  yaml_dump fm = y ++ NL -> yaml_safe_load y = Ok fm ->
  starts_dark y = true -> no_delimiter_inside y = true ->
  inline_blanks w2 = true -> no_blank_start tail = true ->
  (forall f,
     file_read f = inl (MigrateCommand.reconstruct_command fm (w2 ++ tail)) ->
     AuditCommands.parse_command f = Ok (AuditCommands.Parsed fm (w2 ++ tail)))
  /\ (forall sd,
        skill_md_exists sd = true ->
        skill_md_read sd = inl (MigrateSkill.reconstruct_skill fm (w2 ++ tail)) ->
        AuditSkills.parse_skill sd = Ok (AuditSkills.Parsed fm (w2 ++ tail))).
Proof.
  intros E L Y D W2 T.
  destruct (@reconstruct_is_document fm y (w2 ++ tail) E) as [-> ->].
  destruct (parse_document y [] w2 tail Y D eq_refl W2 T L) as (A & B & _).
  split; assumption.
Qed.

(** X23. A command file that [migrate_single_command] would write, for metadata
    that the migration has settled, needs no migration: a run on it reports
    nothing and touches nothing. *)
Theorem migrated_command_file_settled fm0 fm changes y w2 tail f dry_run answer :
  MigrateCommand.apply_all_migrations fm0 = Ok (fm, changes) ->
  yaml_dump fm = y ++ NL -> yaml_safe_load y = Ok fm ->
  starts_dark y = true -> no_delimiter_inside y = true ->
  inline_blanks w2 = true -> no_blank_start tail = true ->
  file_read f = inl (MigrateCommand.reconstruct_command fm (w2 ++ tail)) ->
  MigrateCommand.migrate_single_command f dry_run answer = Ok (false, [], []).
Proof.
  intros A E L Y D W2 T R.
  destruct (@reconstruct_is_document fm y (w2 ++ tail) E) as [X _]. rewrite X in R.
  change (document y [] [] (w2 ++ tail)) with (document y [] w2 tail) in R.
  destruct (frontmatter_body_match y [] w2 tail Y D eq_refl W2 T) as (m & M & G).
  unfold MigrateCommand.migrate_single_command. rewrite R. cbv beta iota zeta.
  rewrite M, G. cbn [nth]. rewrite L.
  rewrite (apply_all_idempotent _ A). reflexivity.
Qed.

(** X24. What an applied command migration writes to a file [x.md], after
    moving it to [x.md.bak]: the new metadata between the delimiters and,
    right after the closing delimiter, the body.  The white space that
    followed the closing delimiter in the original file, up to its last
    newline, is not written back. *)
Theorem migrated_command_file_content y w1 w2 tail fm fm' c changes f answer :
  md_path (file_path f) ->
  starts_dark y = true -> no_delimiter_inside y = true ->
  forallb isspace w1 = true -> inline_blanks w2 = true -> no_blank_start tail = true ->
  yaml_safe_load y = Ok fm ->
  MigrateCommand.apply_all_migrations fm = Ok (fm', c :: changes) ->
  file_read f = inl (document y w1 w2 tail) ->
  lower (strip answer) = "y" ->
  MigrateCommand.migrate_single_command f false answer
  = Ok (true, c :: changes,
        [Rename (file_path f) (file_path f ++ ".bak");
         WriteText (file_path f)
           ("---" ++ NL ++ yaml_dump fm' ++ "---" ++ NL ++ w2 ++ tail)]).
Proof.
  intros P Y D W1 W2 T L A R Yes.
  destruct (frontmatter_body_match y w1 w2 tail Y D W1 W2 T) as (m & M & G).
  unfold MigrateCommand.migrate_single_command. rewrite R. cbv beta iota zeta.
  rewrite M, G. cbn [nth]. rewrite L, A.
  cbn [bind negb]. rewrite Yes. change (str_eqb "y" "y") with true. cbv iota.
  rewrite (with_suffix_md_path P). reflexivity.
Qed.

End FrontmatterFacts.

(** * The further properties on the artifacts *)

Lemma command_migration_frame_witness :
  exists d' changes,
    MigrateCommand.apply_all_migrations (rt := demo_runtime) (PDict command_old_frontmatter)
    = Ok (PDict d', changes)
    /\ changes <> []
    /\ dict_get d' "description" = Some (PStr "fix bug").
Proof.
  eassert (H : MigrateCommand.apply_all_migrations (rt := demo_runtime)
                 (PDict command_old_frontmatter) = Ok (_, _))
    by (vm_compute; reflexivity).
  destruct (@command_migration_frame demo_runtime _ _ _ H) as (d' & E & F).
  exists d'. eexists. split; [rewrite <- E; exact H|].
  split; [discriminate|].
  rewrite F; [reflexivity | discriminate ..].
Defined.

Ltac by_run := vm_compute; reflexivity.

Lemma command_migration_silent_iff_unchanged_witness :
  exists f' changes,
    MigrateCommand.apply_all_migrations (rt := demo_runtime)
      (PDict command_migrated_frontmatter) = Ok (f', changes)
    /\ (changes = [] <-> f' = PDict command_migrated_frontmatter).
Proof.
  eexists _, _. split; [by_run|].
  apply (@command_migration_silent_iff_unchanged demo_runtime). by_run.
Defined.

Lemma migrated_model_accepted_witness :
  exists d' changes,
    MigrateCommand.apply_all_migrations (rt := demo_runtime) (PDict command_old_frontmatter)
    = Ok (PDict d', changes)
    /\ dict_get d' "model" = Some (PStr "claude-haiku-4-5")
    /\ forall r r', AuditCommands.check_model (rt := demo_runtime) (PDict d') r = Ok r' ->
                    critical_errors r' = critical_errors r.
Proof.
  eexists _, _. split; [by_run|]. split; [by_run|].
  eapply (@migrated_model_accepted demo_runtime command_old_frontmatter). by_run.
Defined.

Lemma migrated_argument_hint_bracketed_witness :
  exists d' changes,
    MigrateCommand.apply_all_migrations (rt := demo_runtime) (PDict command_old_frontmatter)
    = Ok (PDict d', changes)
    /\ dict_get d' "argument-hint" = Some (PStr "[file mode]")
    /\ forall errors,
         ValidateCommand.check_argument_hint (rt := demo_runtime) (PDict d') errors
         = Ok errors.
Proof.
  eexists _, _. split; [by_run|]. split; [by_run|].
  eapply (@migrated_argument_hint_bracketed demo_runtime command_old_frontmatter). by_run.
Defined.


(** The file [.md] of a commands directory has no suffix for [pathlib]: its
    backup is [.md.md.bak]. *)
Lemma dot_md_backup :
  with_suffix "commands/.md" ".md.bak" = Ok ("commands/.md.md.bak" : pystr)
  /\ exists changes content,
       MigrateCommand.migrate_single_command (rt := demo_runtime) command_dot_md false "y"
       = Ok (true, changes,
             [Rename "commands/.md" "commands/.md.md.bak";
              WriteText "commands/.md" content]).
Proof. split; [by_run|]. eexists _, _. by_run. Qed.

Lemma unparsable_command_not_migrated_witness :
  MigrateCommand.migrate_single_command (rt := demo_runtime) no_frontmatter_file false "y"
  = Ok (false, [], []).
Proof.
  eapply (@unparsable_command_not_migrated demo_runtime). by_run.
Defined.

Lemma skill_migration_second_run_witness :
  exists f' changes,
    MigrateSkill.apply_all_migrations (rt := demo_runtime)
      (PDict skill_with_model_frontmatter) (skill_name skill_with_model)
    = Ok (f', changes)
    /\ MigrateSkill.apply_all_migrations (rt := demo_runtime) f' (skill_name skill_with_model)
       = Ok (f', MigrateSkill.recommendations changes)
    /\ MigrateSkill.critical_changes (MigrateSkill.recommendations changes) = [].
Proof.
  eexists _, _. split; [by_run|].
  apply (@skill_migration_second_run demo_runtime (PDict skill_with_model_frontmatter)).
  by_run.
Defined.

Lemma skill_rewritten_only_to_remove_model_witness :
  exists changes content,
    MigrateSkill.migrate_single_skill (rt := demo_runtime) skill_with_model false "y"
    = Ok (true, changes,
          [Rename (skill_path skill_with_model ++ "/SKILL.md")
                  ((skill_path skill_with_model ++ "/SKILL.md") ++ ".bak");
           WriteText (skill_path skill_with_model ++ "/SKILL.md") content])
    /\ exists d v, dict_get d "model" = Some v
         /\ exists body,
              content = MigrateSkill.reconstruct_skill (rt := demo_runtime)
                          (PDict (dict_del d "model")) body.
Proof.
  eassert (H : MigrateSkill.migrate_single_skill (rt := demo_runtime) skill_with_model
                 false "y" = Ok (_, _, _)) by by_run.
  eexists _, _. split; [exact H|].
  destruct (@skill_rewritten_only_to_remove_model demo_runtime _ _ _ _ _ _ H)
    as [E | (_ & _ & _ & content & m & d & v & _ & _ & _ & M & E)]; [discriminate E|].
  exists d, v. split; [exact M|]. eexists.
  exact (f_equal (fun l => match l with [_; WriteText _ c] => c | _ => [] end) E).
Defined.

Lemma skill_without_model_untouched_witness :
  exists changes,
    MigrateSkill.migrate_single_skill (rt := demo_runtime) skill_plain false "y"
    = Ok (false, changes, [])
    /\ changes <> []
    /\ MigrateSkill.apply_all_migrations (rt := demo_runtime)
         (PDict skill_plain_frontmatter) (skill_name skill_plain)
       = Ok (PDict skill_plain_frontmatter, MigrateSkill.recommendations changes).
Proof.
  eassert (H : MigrateSkill.migrate_single_skill (rt := demo_runtime) skill_plain false "y"
               = Ok (_, _, _)) by by_run.
  eassert (P : AuditSkills.parse_skill (rt := demo_runtime) skill_plain
               = Ok (AuditSkills.Parsed (PDict skill_plain_frontmatter) _)) by by_run.
  destruct (@skill_without_model_untouched demo_runtime skill_plain skill_plain_frontmatter
              _ false "y" P eq_refl _ _ _ H) as (_ & _ & A).
  eexists. split; [exact H|]. split; [discriminate | exact A].
Defined.

Lemma tool_groups_have_matcher_witness :
  exists cfg' changes g,
    MigrateHook.migrate_add_missing_matchers hooks_returning = Ok (cfg', changes)
    /\ hook_group cfg' "PreToolUse" 0 = Some (PDict g)
    /\ exists m, dict_get g "matcher" = Some m /\ truthy m = true.
Proof.
  eassert (H : MigrateHook.migrate_add_missing_matchers hooks_returning = Ok (_, _))
    by by_run.
  destruct (@tool_groups_have_matcher _ _ _ H) as (T & _).
  match type of H with
  | _ = Ok (?c, _) => eassert (G : hook_group c "PreToolUse" 0 = Some _) by by_run
  end.
  destruct (T ("PreToolUse" : pystr) 0%nat _ eq_refl G) as (g & m & E & M).
  eexists _, _, g. split; [exact H|]. split; [rewrite <- E; exact G|]. exists m. exact M.
Defined.

Lemma lifecycle_groups_have_no_empty_matcher_witness :
  exists cfg' changes g,
    MigrateHook.migrate_remove_empty_matchers (rt := demo_runtime) hooks_returning
    = Ok (cfg', changes)
    /\ hook_group cfg' "Stop" 0 = Some (PDict g)
    /\ dict_get g "matcher" = None
    /\ forall j, hook_item cfg' "Stop" 0 j = hook_item hooks_returning "Stop" 0 j.
Proof.
  eassert (H : MigrateHook.migrate_remove_empty_matchers (rt := demo_runtime) hooks_returning
               = Ok (_, _)) by by_run.
  destruct (@lifecycle_groups_have_no_empty_matcher demo_runtime _ _ _ H) as (_ & _ & I).
  eexists _, _, _. split; [exact H|]. split; [by_run|]. split; [by_run|].
  exact (I _ _).
Defined.

Lemma invalid_events_removed_witness :
  exists cfg' changes,
    MigrateHook.migrate_remove_invalid_events hooks_returning = Ok (cfg', changes)
    /\ event_names cfg' = strs ["PreToolUse"; "Stop"]
    /\ changes = [removed_event "OnSave"]
    /\ MigrateHook.migrate_remove_invalid_events cfg' = Ok (cfg', []).
Proof.
  eassert (H : MigrateHook.migrate_remove_invalid_events hooks_returning = Ok (_, _))
    by by_run.
  destruct (@invalid_events_removed _ _ _ H) as (N & C & _ & A).
  eexists _, _. split; [exact H|]. split; [rewrite N; by_run|].
  split; [by_run | exact A].
Defined.

Lemma hook_types_second_run_witness :
  exists cfg' changes,
    MigrateHook.migrate_validate_hook_types (rt := demo_runtime) hooks_returning
    = Ok (cfg', changes)
    /\ length changes = 2%nat
    /\ MigrateHook.migrate_validate_hook_types (rt := demo_runtime) cfg'
       = Ok (cfg', ["ERROR: PreToolUse hook #1, item #1: Missing 'command' field" : pystr]).
Proof.
  eassert (H : MigrateHook.migrate_validate_hook_types (rt := demo_runtime) hooks_returning
               = Ok (_, _)) by by_run.
  eexists _, _. split; [exact H|]. split; [by_run|].
  exact (@hook_types_second_run demo_runtime _ _ _ H).
Defined.

Lemma valid_hook_type_kept_witness :
  exists cfg' changes,
    MigrateHook.migrate_validate_hook_types (rt := demo_runtime) hooks_example
    = Ok (cfg', changes)
    /\ hook_item cfg' "PreToolUse" 0 0 = hook_item hooks_example "PreToolUse" 0 0.
Proof.
  eassert (I : hook_item hooks_example "PreToolUse" 0 0 = Some (PDict _)) by by_run.
  destruct (@valid_hook_type_kept demo_runtime hooks_example ("PreToolUse" : pystr)
              0%nat 0%nat _ eq_refl I eq_refl) as (cfg' & changes & H & K & _).
  exists cfg', changes. split; [exact H|]. rewrite K. symmetry. exact I.
Defined.

Lemma run_migrations_result_witness :
  exists cfg' changes,
    MigrateHook.run_migrations (rt := demo_runtime) hooks_returning = Ok (cfg', changes)
    /\ (forall ev, In ev (event_names cfg') -> str_mem ev MigrateHook.VALID_EVENTS = true)
    /\ length changes = 5%nat.
Proof.
  eassert (H : MigrateHook.run_migrations (rt := demo_runtime) hooks_returning = Ok (_, _))
    by by_run.
  destruct (@run_migrations_result demo_runtime _ _ _ H) as (N & _).
  eexists _, _. split; [exact H|]. split; [exact N | by_run].
Defined.

Lemma command_audit_exit_code_witness :
  exists results,
    AuditCommands.audit (rt := demo_runtime) [command_migrated; command_haiku] = Ok results
    /\ map fst results = [command_migrated; command_haiku]
    /\ AuditCommands.exit_code results = 1%nat.
Proof.
  eassert (H : AuditCommands.audit (rt := demo_runtime) [command_migrated; command_haiku]
               = Ok _) by by_run.
  destruct (@command_audit_exit_code demo_runtime _ _ H) as (F & _).
  eexists. split; [exact H|]. split; [exact F | by_run].
Defined.

Lemma skill_audit_exit_code_witness :
  exists results,
    AuditSkillsMain.audit (rt := demo_runtime) [skill_plain; skill_with_model] = Ok results
    /\ map fst results = [skill_plain; skill_with_model]
    /\ AuditSkillsMain.exit_code results = 1%nat.
Proof.
  eassert (H : AuditSkillsMain.audit (rt := demo_runtime) [skill_plain; skill_with_model]
               = Ok _) by by_run.
  destruct (@skill_audit_exit_code demo_runtime _ _ H) as (F & _).
  eexists. split; [exact H|]. split; [exact F | by_run].
Defined.

Lemma validate_command_exit_status_witness :
  ValidateCommandMain.main (rt := demo_runtime) command_haiku = Ok 1%nat
  /\ ValidateCommandMain.main (rt := demo_runtime) command_migrated = Ok 0%nat.
Proof.
  eassert (H : ValidateCommand.validate_command (rt := demo_runtime) command_haiku
               = Ok (_, _)) by by_run.
  eassert (K : ValidateCommand.validate_command (rt := demo_runtime) command_migrated
               = Ok (_, _)) by by_run.
  split.
  - exact (proj1 (@validate_command_exit_status demo_runtime _ _ _ H)).
  - exact (proj1 (@validate_command_exit_status demo_runtime _ _ _ K)).
Defined.

Lemma parsers_split_document_witness :
  AuditCommands.parse_command (rt := demo_runtime) command_blank_line
  = Ok (AuditCommands.Parsed (PDict command_haiku_frontmatter) ("Fix the bug." ++ NL)).
Proof.
  refine (proj1 (@parsers_split_document demo_runtime
                   ("description: fix bug" ++ NL ++ "model: haiku") NL []
                   ("Fix the bug." ++ NL) (PDict command_haiku_frontmatter)
                   _ _ _ _ _ _) command_blank_line _); by_run.
Defined.

Lemma reconstruct_then_parse_witness :
  file_read command_migrated
  = inl (MigrateCommand.reconstruct_command (rt := demo_runtime)
           (PDict command_migrated_frontmatter) ("Fix the bug." ++ NL))
  /\ AuditCommands.parse_command (rt := demo_runtime) command_migrated
     = Ok (AuditCommands.Parsed (PDict command_migrated_frontmatter) ("Fix the bug." ++ NL)).
Proof.
  split; [by_run|].
  refine (proj1 (@reconstruct_then_parse demo_runtime (PDict command_migrated_frontmatter)
                   ("description: fix bug" ++ NL ++ "model: claude-haiku-4-5") []
                   ("Fix the bug." ++ NL) _ _ _ _ _ _) command_migrated _); by_run.
Defined.

Lemma migrated_command_file_settled_witness :
  MigrateCommand.migrate_single_command (rt := demo_runtime) command_migrated false "y"
  = Ok (false, [], []).
Proof.
  refine (@migrated_command_file_settled demo_runtime (PDict command_haiku_frontmatter)
            (PDict command_migrated_frontmatter) _
            ("description: fix bug" ++ NL ++ "model: claude-haiku-4-5") []
            ("Fix the bug." ++ NL) command_migrated false "y" _ _ _ _ _ _ _ _); by_run.
Defined.

Lemma migrated_command_file_content_witness :
  exists changes,
    MigrateCommand.migrate_single_command (rt := demo_runtime) command_blank_line false "y"
    = Ok (true, changes,
          [Rename "commands/fix-bug.md" "commands/fix-bug.md.bak";
           WriteText "commands/fix-bug.md"
             ("---" ++ NL ++ "description: fix bug" ++ NL ++ "model: claude-haiku-4-5" ++ NL
              ++ "---" ++ NL ++ "Fix the bug." ++ NL)]).
Proof.
  eassert (A : MigrateCommand.apply_all_migrations (rt := demo_runtime)
                 (PDict command_haiku_frontmatter) = Ok (_, _ :: _)) by by_run.
  assert (P : md_path (file_path command_blank_line)).
  { exists ("commands/" : pystr), ("fix-bug" : pystr).
    split; [reflexivity|]. split; [discriminate|]. split; [reflexivity|].
    right. exists ("commands" : pystr). reflexivity. }
  eexists.
  refine (@migrated_command_file_content demo_runtime
            ("description: fix bug" ++ NL ++ "model: haiku") NL []
            ("Fix the bug." ++ NL) _ _ _ _ command_blank_line "y"
            P _ _ _ _ _ _ A _ _); by_run.
Defined.

Lemma accepted_names_witness :
  critical_errors (AuditCommands.check_filename (rt := demo_runtime) ("fix-bug" ++ NL)
                     no_findings) = [].
Proof.
  apply (proj1 (@accepted_names demo_runtime ("fix-bug" ++ NL))).
  split; [|vm_compute; lia].
  exists ("fix-bug" : pystr). split; [discriminate|]. split; [by_run | now right].
Defined.
